(** * psy-automation: field validation, record reconciliation and page fetching

    A shallow embedding of
      - [DataValidator] and [DataFormatter] of [stage4_validation.py],
      - [WebScraper.is_valid_url], [fetch_url] and [is_same_domain] of
        [stage2_web_scraping.py],
    together with the properties the specification states about them.

    Modelling conventions.
      - A Python [str] is a list of characters ([str := list ascii]), a
        character being a code point below 256.  On this range white space
        ([str.strip], [\s]), lower-casing, [str.isdigit], [\d], [\w] and the
        explicit classes are Python's.  Upper-casing is Python's on 7-bit
        text; above 127 it leaves a character as it is (three of these
        characters have an upper-case form above 255).
      - A regular expression of the source is a value of the type [re]; it is
        run by a backtracking matcher that enumerates the matches in the
        priority order of Python's [re] module.
      - A pandas row is a finite map from column names to cells; a cell is a
        text or the missing value NaN; a DataFrame is the list of its rows
        with the default index 0 .. n-1, as [pandas.read_excel] builds it.
      - The rows that [iterrows] yields are views of the table or copies of
        its rows, depending on pandas and on how the table is stored; the
        reconciliation takes this as a parameter ([row_is_view]) and the
        properties are proved for both. *)

From Stdlib Require Import Ascii String ZArith NArith Lia Bool.
From stdpp Require Import gmap strings list fin_maps sorting.

Local Open Scope string_scope.
Local Open Scope list_scope.

(** ** Python strings *)

Definition str := list ascii.

(** String literals are written as Rocq strings and read as [str]. *)
Definition lit (s : string) : list ascii := list_ascii_of_string s.
Coercion lit : string >-> list.

(** [a + b] on strings *)
Notation "a +++ b" := (@app ascii a b)
  (at level 60, right associativity, only parsing).

Definition str_eqb (a b : str) : bool := bool_decide (a = b).

Module Char.

Definition code (c : ascii) : N := N_of_ascii c.

Definition between (lo hi : N) (c : ascii) : bool :=
  (lo <=? code c)%N && (code c <=? hi)%N.

(** The class [\d]: the decimal digits. *)
Definition is_digit (c : ascii) : bool := between 48 57 c.

(** [str.isdigit]: the decimal digits and the superscripts two, three
    (0xb2, 0xb3) and one (0xb9). *)
Definition isdigit (c : ascii) : bool :=
  is_digit c || between 178 179 c || (code c =? 185)%N.

Definition is_upper (c : ascii) : bool := between 65 90 c.
Definition is_lower (c : ascii) : bool := between 97 122 c.
(** The class [[A-Za-z]] *)
Definition is_alpha (c : ascii) : bool := is_upper c || is_lower c.

(** [str.isspace], the class [\s] and what [str.strip()] removes:
    tab, line feed, vertical tab, form feed, carriage return, the four
    separators 0x1c .. 0x1f, the space, the next-line control 0x85 and the
    no-break space 0xa0. *)
Definition is_space (c : ascii) : bool :=
  between 9 13 c || between 28 31 c || (code c =? 32)%N
  || (code c =? 133)%N || (code c =? 160)%N.

(** The class [\w]: what [str.isalnum] accepts, and the underscore.  Above
    127 these are the letters 0xaa, 0xb5, 0xba, 0xc0 .. 0xd6, 0xd8 .. 0xf6,
    0xf8 .. 0xff and the numerals 0xb2, 0xb3, 0xb9, 0xbc .. 0xbe. *)
Definition is_word (c : ascii) : bool :=
  is_alpha c || is_digit c || (code c =? 95)%N
  || (code c =? 170)%N || between 178 179 c || (code c =? 181)%N
  || between 185 186 c || between 188 190 c
  || between 192 214 c || between 216 246 c || between 248 255 c.

(** [str.upper] on 7-bit text; a character above 127 is left as it is.
    The one caller, [validate_psychologist_type], looks for 7-bit keywords
    without the letter S in the result, so that the upper-case forms above
    127 (among them SS for 0xdf) do not change its answer. *)
Definition upper (c : ascii) : ascii :=
  if is_lower c then ascii_of_N (code c - 32) else c.
(** [str.lower]: the letters [A-Z] and the capital letters 0xc0 .. 0xd6,
    0xd8 .. 0xde. *)
Definition lower (c : ascii) : ascii :=
  if is_upper c || between 192 214 c || between 216 222 c
  then ascii_of_N (code c + 32) else c.

Definition eqb (a b : ascii) : bool := Ascii.eqb a b.

Definition newline : ascii := ascii_of_N 10.

End Char.

Module Str.

Definition upper (s : str) : str := map Char.upper s.
Definition lower (s : str) : str := map Char.lower s.

Fixpoint lstrip (s : str) : str :=
  match s with
  | c :: s' => if Char.is_space c then lstrip s' else s
  | [] => []
  end.

Definition rstrip (s : str) : str := rev (lstrip (rev s)).

(** [s.strip()] *)
Definition strip (s : str) : str := rstrip (lstrip s).

(** [s.startswith(p)] *)
Fixpoint startswith (p s : str) : bool :=
  match p, s with
  | [], _ => true
  | a :: p', b :: s' => Char.eqb a b && startswith p' s'
  | _ :: _, [] => false
  end.

(** [s.endswith(p)] *)
Definition endswith (p s : str) : bool := startswith (rev p) (rev s).

(** [p in s] *)
Fixpoint contains (p s : str) : bool :=
  startswith p s ||
  match s with
  | [] => false
  | _ :: s' => contains p s'
  end.

(** [s.replace(old, new)] for a non-empty [old]: every occurrence, leftmost
    first, without overlap. *)
Fixpoint replace_fuel (fuel : nat) (old new s : str) : str :=
  match fuel with
  | O => s
  | S fuel' =>
      match s with
      | [] => []
      | c :: s' =>
          if startswith old s
          then new ++ replace_fuel fuel' old new (drop (length old) s)
          else c :: replace_fuel fuel' old new s'
      end
  end.

Definition replace (old new s : str) : str :=
  replace_fuel (length s) old new s.

(** [s.rsplit(' ', 1)] with a one-character separator: split at the last
    occurrence, or the whole string alone when there is none. *)
Fixpoint rsplit1_aux (sep : ascii) (r acc : str) : option (str * str) :=
  match r with
  | [] => None
  | c :: r' =>
      if Char.eqb c sep then Some (rev r', acc)
      else rsplit1_aux sep r' (c :: acc)
  end.

Definition rsplit1 (sep : ascii) (s : str) : list str :=
  match rsplit1_aux sep (rev s) [] with
  | Some (a, b) => [a; b]
  | None => [s]
  end.

(** Truthiness of a string: [if s:]. *)
Definition truthy (s : str) : bool :=
  match s with [] => false | _ :: _ => true end.

End Str.

(** ** Regular expressions *)

Inductive re : Type :=
| Eps
| Chr (p : ascii -> bool)
| Seq (a b : re)
| Alt (a b : re)
| Star (a : re)
| Group (i : nat) (a : re)
| Bol
| Eol
| WordB.

Module Re.

Definition Plus (a : re) : re := Seq a (Star a).
Definition Opt (a : re) : re := Alt a Eps.
Definition C (c : string) : re :=
  match c with
  | String a _ => Chr (Char.eqb a)
  | EmptyString => Eps
  end.

Fixpoint Lit (s : string) : re :=
  match s with
  | EmptyString => Eps
  | String a EmptyString => Chr (Char.eqb a)
  | String a s' => Seq (Chr (Char.eqb a)) (Lit s')
  end.

Fixpoint Times (n : nat) (a : re) : re :=
  match n with
  | O => Eps
  | S O => a
  | S n' => Seq a (Times n' a)
  end.

(** [a{0,n}], greedy. *)
Fixpoint UpTo (n : nat) (a : re) : re :=
  match n with
  | O => Eps
  | S n' => Opt (Seq a (UpTo n' a))
  end.

(** [a{m,n}] *)
Definition Range (m n : nat) (a : re) : re := Seq (Times m a) (UpTo (n - m) a).
(** [a{m,}] *)
Definition AtLeast (m : nat) (a : re) : re := Seq (Times m a) (Star a).

Definition digit : re := Chr Char.is_digit.
Definition space : re := Chr Char.is_space.
Definition word : re := Chr Char.is_word.
(** [.] without DOTALL *)
Definition dot : re := Chr (fun c => negb (Char.eqb c Char.newline)).
Definition one_of (ps : list (ascii -> bool)) : re :=
  Chr (fun c => existsb (fun p => p c) ps).
Definition chars (s : string) : ascii -> bool :=
  fun c => existsb (Char.eqb c) (list_ascii_of_string s).

(** The matcher's position: the character before the cursor, the text after
    it, and the groups captured so far (latest first). *)
Record mstate : Type := MState {
  prev : option ascii;
  rest : str;
  caps : list (nat * str)
}.

Definition is_word_opt (o : option ascii) : bool :=
  match o with Some c => Char.is_word c | None => false end.

Definition step (p : ascii -> bool) (st : mstate) : list mstate :=
  match rest st with
  | c :: r => if p c then [MState (Some c) r (caps st)] else []
  | [] => []
  end.

Definition capture (i : nat) (st st' : mstate) : mstate :=
  MState (prev st') (rest st')
         ((i, take (length (rest st) - length (rest st')) (rest st)) :: caps st').

(** The greedy loop of a star: one more round of [body] first (rounds that
    consume nothing are cut), then no more.  [n] bounds the rounds by the
    length of the text that is left. *)
Fixpoint star_loop (body : mstate -> list mstate) (n : nat) (st : mstate)
  : list mstate :=
  match n with
  | O => [st]
  | S n' =>
      flat_map (fun st' =>
                  if (length (rest st') <? length (rest st))%nat
                  then star_loop body n' st' else [])
               (body st) ++ [st]
  end.

(** All the ways [r] matches at [st], in the order Python tries them. *)
Fixpoint run (r : re) (st : mstate) : list mstate :=
  match r with
  | Eps => [st]
  | Chr p => step p st
  | Seq a b => flat_map (run b) (run a st)
  | Alt a b => run a st ++ run b st
  | Star a => star_loop (run a) (length (rest st)) st
  | Group i a => map (capture i st) (run a st)
  | Bol => match prev st with None => [st] | Some _ => [] end
  | Eol =>
      match rest st with
      | [] => [st]
      | [c] => if Char.eqb c Char.newline then [st] else []
      | _ => []
      end
  | WordB =>
      if xorb (is_word_opt (prev st)) (is_word_opt (head (rest st)))
      then [st] else []
  end.

(** A match object: the text matched (group 0), the text after the match
    and the captured groups. *)
Record mobj : Type := MObj {
  whole : str;
  after : str;
  groups : list (nat * str)
}.

Definition mk_obj (st st' : mstate) : mobj :=
  MObj (take (length (rest st) - length (rest st')) (rest st))
       (rest st') (caps st').

Definition match_at (r : re) (st : mstate) : option mobj :=
  match run r st with
  | st' :: _ => Some (mk_obj st st')
  | [] => None
  end.

(** [re.match(r, s)] *)
Definition rmatch (r : re) (s : str) : option mobj :=
  match_at r (MState None s []).

(** [re.search(r, s)]: the leftmost position where [r] matches, with the
    text before it. *)
Fixpoint search_from (r : re) (before : str) (p : option ascii) (s : str)
  : option (str * mobj) :=
  match match_at r (MState p s []) with
  | Some m => Some (rev before, m)
  | None =>
      match s with
      | [] => None
      | c :: s' => search_from r (c :: before) (Some c) s'
      end
  end.

Definition search (r : re) (s : str) : option mobj :=
  snd <$> search_from r [] None s.

(** [m.group(i)] for a group that took part in the match. *)
Fixpoint assoc (i : nat) (l : list (nat * str)) : option str :=
  match l with
  | [] => None
  | (j, v) :: l' => if Nat.eqb i j then Some v else assoc i l'
  end.

Definition group (i : nat) (m : mobj) : str :=
  match assoc i (groups m) with
  | Some v => v
  | None => []
  end.

(** [re.split(r, s)] for an [r] that matches no empty text. *)
Fixpoint split_fuel (fuel : nat) (r : re) (cur : str) (p : option ascii)
         (s : str) : list str :=
  match fuel with
  | O => [rev cur ++ s]
  | S fuel' =>
      match s with
      | [] => [rev cur]
      | c :: s' =>
          match match_at r (MState p s []) with
          | Some m =>
              match whole m with
              | [] => split_fuel fuel' r (c :: cur) (Some c) s'
              | _ :: _ =>
                  rev cur :: split_fuel fuel' r [] (last (whole m)) (after m)
              end
          | None => split_fuel fuel' r (c :: cur) (Some c) s'
          end
      end
  end.

Definition split (r : re) (s : str) : list str :=
  split_fuel (S (length s)) r [] None s.

End Re.

(** ** [DataValidator] *)

Definition is_some {A} (o : option A) : bool :=
  match o with Some _ => true | None => false end.

(** [s[a:b]] for [0 <= a <= b] *)
Definition slice (a b : nat) (s : str) : str := take (b - a) (drop a s).

Module DataValidator.
Import Re.

(** [^\d+\s+[\w\s]+,\s+[\w\s]+\s+[A-Z]{2,3}\s+\d{4,5}$] *)
Definition word_or_space : re := one_of [Char.is_word; Char.is_space].
Definition suburb_state_postcode : re :=
  Seq (C ",") (Seq (Plus space) (Seq (Plus word_or_space) (Seq (Plus space)
    (Seq (Range 2 3 (Chr Char.is_upper)) (Seq (Plus space)
      (Seq (Range 4 5 digit) Eol)))))).
Definition address_pattern1 : re :=
  Seq Bol (Seq (Plus digit) (Seq (Plus space) (Seq (Plus word_or_space)
    suburb_state_postcode))).

(** [^Cnr\s+[\w\s]+\s+&\s+[\w\s]+,\s+[\w\s]+\s+[A-Z]{2,3}\s+\d{4,5}$] *)
Definition address_pattern2 : re :=
  Seq Bol (Seq (Lit "Cnr") (Seq (Plus space) (Seq (Plus word_or_space)
    (Seq (Plus space) (Seq (C "&") (Seq (Plus space) (Seq (Plus word_or_space)
      suburb_state_postcode))))))).

(** [^[a-zA-Z0-9._%+-]+@[a-zA-Z0-9.-]+\.[a-zA-Z]{2,}$] *)
Definition email_pattern : re :=
  Seq Bol (Seq (Plus (one_of [Char.is_alpha; Char.is_digit; chars "._%+-"]))
    (Seq (C "@") (Seq (Plus (one_of [Char.is_alpha; Char.is_digit; chars ".-"]))
      (Seq (C ".") (Seq (AtLeast 2 (Chr Char.is_alpha)) Eol))))).

(** [url_pattern] (line 25): [^(http|https)://[a-zA-Z0-9.-]+\.[a-zA-Z]{2,}],
    then optionally a slash and any characters (group 2), then [$]. *)
Definition url_pattern : re :=
  Seq Bol (Seq (Group 1 (Alt (Lit "http") (Lit "https"))) (Seq (Lit "://")
    (Seq (Plus (one_of [Char.is_alpha; Char.is_digit; chars ".-"]))
      (Seq (C ".") (Seq (AtLeast 2 (Chr Char.is_alpha))
        (Seq (Opt (Group 2 (Seq (C "/") (Star dot)))) Eol)))))).

Definition au_states : list string :=
  ["NSW"; "VIC"; "QLD"; "SA"; "WA"; "TAS"; "NT"; "ACT"].

(** [^((?:Unit\s+)?[\dA-Za-z]+[\/\\])(\d+(?:[A-Za-z])?)\s+(.+)$] *)
Definition unit_pattern : re :=
  Seq Bol
    (Seq (Group 1 (Seq (Opt (Seq (Lit "Unit") (Plus space)))
                    (Seq (Plus (one_of [Char.is_digit; Char.is_alpha]))
                         (Chr (chars "/\")))))
      (Seq (Group 2 (Seq (Plus digit) (Opt (Chr Char.is_alpha))))
        (Seq (Plus space) (Seq (Group 3 (Plus dot)) Eol)))).

(** [\b\d{4}\b] *)
Definition postcode_pattern : re := Seq WordB (Seq (Times 4 digit) WordB).

(** [\s+STATE\s+] *)
Definition state_split_pattern (state : string) : re :=
  Seq (Plus space) (Seq (Lit state) (Plus space)).

Definition matches_address (address : str) : bool :=
  is_some (rmatch address_pattern1 address)
  || is_some (rmatch address_pattern2 address).

(** Lines 44-58: the unit prefix is dropped where [unit_pattern] matches. *)
Definition strip_unit (address : str) : str :=
  match rmatch unit_pattern address with
  | Some unit_match =>
      let building_number := group 2 unit_match in
      let rest_of_address := group 3 unit_match in
      building_number +++ " " +++ rest_of_address
  | None => address
  end.

(** Lines 79-103: the rebuild around the state token. *)
Definition rebuild (address : str) (state_match : string) (postcode : str)
  : option str :=
  match split (state_split_pattern state_match) address with
  | [part0; _] =>
      let street_part := Str.strip part0 in
      let street_part :=
        if negb (Str.contains "," street_part) then
          match Str.rsplit1 " " street_part with
          | [street; suburb] => Str.strip street +++ ", " +++ Str.strip suburb
          | _ => street_part
          end
        else street_part in
      Some (street_part +++ ", " +++ state_match +++ " " +++ postcode)
  | _ => None
  end.

Definition validate_address (address : str) : bool * str :=
  if negb (Str.truthy address) then (false, [])
  else
    let address := Str.strip address in
    let address := strip_unit address in
    if matches_address address then (true, address)
    else
      let postcode_match := search postcode_pattern address in
      let state_match :=
        find (fun state : string =>
                Str.contains (" " +++ state +++ " ") (" " +++ address +++ " "))
             au_states in
      match postcode_match, state_match with
      | Some pm, Some state =>
          match rebuild address state (whole pm) with
          | Some formatted_address =>
              if matches_address formatted_address
              then (true, formatted_address)
              else (false, address)
          | None => (false, address)
          end
      | _, _ => (false, address)
      end.

Definition validate_email (email : str) : bool * str :=
  if negb (Str.truthy email) then (false, [])
  else
    let email := Str.lower (Str.strip email) in
    if is_some (rmatch email_pattern email) then (true, email)
    else (false, email).

Definition validate_url (url : str) : bool * str :=
  if negb (Str.truthy url) then (false, [])
  else
    let url := Str.strip url in
    let url :=
      if negb (Str.startswith "http://" url || Str.startswith "https://" url)
      then "http://" +++ url else url in
    if is_some (rmatch url_pattern url) then (true, url)
    else (false, url).

(** The digits the formatter works on (lines 168-171). *)
Definition phone_digits (phone : str) : str :=
  let digits_only := filter (fun c => Char.isdigit c = true) phone in
  if (length digits_only =? 9)%nat && Str.startswith "4" digits_only
  then "0" +++ digits_only else digits_only.

Definition validate_phone (phone : str) : bool * str :=
  if negb (Str.truthy phone) then (false, [])
  else
    let digits_only := phone_digits phone in
    let n := length digits_only in
    if (8 <=? n)%nat && (n <=? 12)%nat then
      if (n =? 10)%nat && Str.startswith "04" digits_only then
        (true, "0" +++ slice 1 4 digits_only +++ " " +++ slice 4 7 digits_only
                   +++ " " +++ slice 7 10 digits_only)
      else if (n =? 10)%nat
              && (Str.startswith "02" digits_only
                  || Str.startswith "03" digits_only
                  || Str.startswith "07" digits_only
                  || Str.startswith "08" digits_only) then
        (true, "(" +++ slice 0 2 digits_only +++ ") " +++ slice 2 6 digits_only
                   +++ " " +++ slice 6 10 digits_only)
      else if ((n =? 10)%nat && Str.startswith "1300" digits_only)
              || Str.startswith "1800" digits_only then
        (true, slice 0 4 digits_only +++ " " +++ slice 4 7 digits_only
                   +++ " " +++ slice 7 10 digits_only)
      else if (n =? 8)%nat then
        (true, slice 0 4 digits_only +++ " " +++ slice 4 8 digits_only)
      else if (n =? 9)%nat then
        (true, slice 0 3 digits_only +++ " " +++ slice 3 6 digits_only
                   +++ " " +++ slice 6 9 digits_only)
      else (true, digits_only)
    else (false, phone).

Definition validate_psychologist_type (psych_type : str) : bool * str :=
  if negb (Str.truthy psych_type) then (false, [])
  else
    let psych_type := Str.upper (Str.strip psych_type) in
    if str_eqb psych_type "C" || str_eqb psych_type "G" then (true, psych_type)
    else if Str.startswith "C" psych_type || Str.contains "CLINICAL" psych_type
    then (true, lit "C")
    else if Str.startswith "G" psych_type || Str.contains "GENERAL" psych_type
    then (true, lit "G")
    else (false, []).

(** [\$?(\d+(?:\.\d{2})?)] *)
Definition price_pattern : re :=
  Seq (Opt (C "$"))
      (Group 1 (Seq (Plus digit) (Opt (Seq (C ".") (Times 2 digit))))).

Definition validate_price (price : str) : bool * str :=
  if negb (Str.truthy price) then (false, [])
  else
    match search price_pattern price with
    | Some price_match => (true, group 1 price_match)
    | None => (false, price)
    end.

End DataValidator.

(** ** [DataFormatter] *)

(** A cell of a DataFrame: a text, or the missing value ([float('nan')]) that
    pandas stores for an empty spreadsheet cell. *)
Inductive cell : Type :=
| Text (s : str)
| NaN.

#[global] Instance cell_eq_dec : EqDecision cell.
Proof. solve_decision. Defined.

Module Cell.
(** [bool(v)]: a text is true when non-empty; NaN is a non-zero float. *)
Definition truthy (v : cell) : bool :=
  match v with Text s => Str.truthy s | NaN => true end.
(** [str(v)] *)
Definition to_str (v : cell) : str :=
  match v with Text s => s | NaN => lit "nan" end.
(** [pd.notna(v)] *)
Definition notna (v : cell) : bool :=
  match v with Text _ => true | NaN => false end.
End Cell.

(** A row (a pandas Series indexed by the column names). *)
Abbreviation row := (gmap string cell).

(** A DataFrame with the default index: row [i] has the label [i]. *)
Record DataFrame : Type := Frame {
  columns : list string;
  rows : list row
}.

(** The validator injected into [DataFormatter.__init__]. *)
Record Validator : Type := {
  v_phone : str -> bool * str;
  v_email : str -> bool * str;
  v_url : str -> bool * str;
  v_price : str -> bool * str;
  v_psychologist_type : str -> bool * str
}.

(** [validator or DataValidator()] *)
Definition default_validator : Validator := {|
  v_phone := DataValidator.validate_phone;
  v_email := DataValidator.validate_email;
  v_url := DataValidator.validate_url;
  v_price := DataValidator.validate_price;
  v_psychologist_type := DataValidator.validate_psychologist_type
|}.

(** What the extraction step hands over for one practice. *)
Record psychologist : Type := Psych {
  psy_name : option str;
  psy_type : option str
}.

Record candidate : Type := Candidate {
  email : option str;
  doctor_page_url : option str;
  initial_consult : option str;
  followup_consult : option str;
  psychologists : list psychologist
}.

(** A dict with the key ["error"], or a candidate record. *)
Inductive practice_data : Type :=
| PError (message : str)
| PData (c : candidate).

(** The value stored under a practice name: a dict or a list of dicts. *)
Inductive entry : Type :=
| One (d : practice_data)
| Many (l : list practice_data).

Abbreviation extracted := (gmap str entry).

Module DataFormatter.

(** [d.get(key)] followed by a truth test: the value when present and
    non-empty. *)
Definition present (o : option str) : option str :=
  match o with
  | Some s => if Str.truthy s then Some s else None
  | None => None
  end.

Definition flag_discrepancies (existing_data new_data : row) (field : string)
  : bool * str :=
  match existing_data !! field, new_data !! field with
  | Some existing_value, Some new_value =>
      if negb (Cell.truthy existing_value) || negb (Cell.truthy new_value)
      then (false, [])
      else if negb (str_eqb (Str.strip (Cell.to_str existing_value))
                            (Str.strip (Cell.to_str new_value)))
      then (true, "Discrepancy in " +++ lit field +++ ": '"
                  +++ Cell.to_str existing_value +++ "' vs '"
                  +++ Cell.to_str new_value +++ "'")
      else (false, [])
  | _, _ => (false, [])
  end.

(** The three values the method builds and returns. *)
Record state : Type := State {
  updated_df : list row;
  new_rows : list row;
  discrepancies : list (nat * str)
}.

(** [updated_df.at[idx, col] = v] *)
Definition set_at (idx : nat) (col : string) (v : cell) (st : state) : state :=
  State (alter (<[col := v]>) idx (updated_df st)) (new_rows st)
        (discrepancies st).

(** The block repeated for each field: flag against the row, then write. *)
Definition flag_and_set (idx : nat) (r : row) (field : string) (v : str)
           (st : state) : state :=
  let '(has_discrepancy, message) :=
    flag_discrepancies r {[field := Text v]} field in
  let st :=
    if has_discrepancy
    then State (updated_df st) (new_rows st)
               (discrepancies st ++ [(idx, message)])
    else st in
  set_at idx field (Text v) st.

Definition required_columns : list string :=
  ["Name"; "Email"; "Doctors"; "Type"; "Initial Consult";
   "Follow-up Consult"; "Date"; "Notes"].

(** Lines 309-313 *)
Definition ensure_column (col : string) (df : DataFrame) : DataFrame :=
  if bool_decide (col ∈ columns df) then df
  else Frame (columns df ++ [col]) (map (<[col := Text []]>) (rows df)).

Definition ensure_required (df : DataFrame) : DataFrame :=
  fold_left (fun d col => ensure_column col d) required_columns df.

Section WithValidator.
Variable validator : Validator.
Variable today : str.
(** Whether the [row] that [iterrows] yields shares its data with
    [updated_df].  It does under pandas 2 without copy-on-write when
    [updated_df] is stored as a single block (all columns of one dtype, as in
    a frame built from texts, and no column added at line 313): [row] then
    shows what [updated_df.at[idx, col] = v] has written since.  Otherwise
    (columns of several dtypes, as [read_excel] gives for a sheet with an
    empty column; a column added at line 313; copy-on-write) [row] is a copy
    taken when the loop starts. *)
Variable row_is_view : bool.

(** The value of [row] during the iteration for [idx]: [r] is the row as it
    was when the loop started. *)
Definition row_value (idx : nat) (r : row) (st : state) : row :=
  if row_is_view then default r (updated_df st !! idx) else r.

(** Lines 315-321, for one row *)
Definition format_phone (r : row) : row :=
  match r !! "Phone" with
  | Some phone =>
      if Cell.notna phone && Cell.truthy phone then
        let '(valid, clean_phone) := v_phone validator (Cell.to_str phone) in
        if valid then <["Phone" := Text clean_phone]> r else r
      else r
  | None => r
  end.

Definition format_phones (df : DataFrame) : DataFrame :=
  if bool_decide ("Phone" ∈ columns df)
  then Frame (columns df) (map format_phone (rows df))
  else df.

(** A validated optional field: lines 345-354 and the like. *)
Definition update_field (validate : str -> bool * str) (value : option str)
           (idx : nat) (r : row) (field : string) (st : state) : state :=
  match present value with
  | Some raw =>
      let '(valid, clean) := validate raw in
      if valid then flag_and_set idx (row_value idx r st) field clean st else st
  | None => st
  end.

(** Lines 433-459: the row built for one additional psychologist from [r],
    the value of [row] at line 434. *)
Definition clone_row (r : row) (c : candidate) (psych : psychologist) : row :=
  let new_row := r in
  let new_row :=
    match present (psy_name psych) with
    | Some name => <["Name" := Text name]> new_row
    | None => new_row
    end in
  let new_row :=
    match present (psy_type psych) with
    | Some psych_type =>
        let '(valid, clean_type) := v_psychologist_type validator psych_type in
        if valid then <["Type" := Text clean_type]> new_row else new_row
    | None => new_row
    end in
  let new_row :=
    match present (doctor_page_url c) with
    | Some url =>
        let '(valid, clean_url) := v_url validator url in
        if valid then <["Doctors" := Text clean_url]> new_row else new_row
    | None => new_row
    end in
  let new_row :=
    match present (email c) with
    | Some e =>
        let '(valid, clean_email) := v_email validator e in
        if valid then <["Email" := Text clean_email]> new_row else new_row
    | None => new_row
    end in
  <["Date" := Text today]> new_row.

(** Lines 344-459 *)
Definition process_candidate (idx : nat) (r : row) (c : candidate)
           (st : state) : state :=
  let st := update_field (v_email validator) (email c) idx r "Email" st in
  let st := update_field (v_url validator) (doctor_page_url c) idx r
                         "Doctors" st in
  let st := update_field (v_price validator) (initial_consult c) idx r
                         "Initial Consult" st in
  let st := update_field (v_price validator) (followup_consult c) idx r
                         "Follow-up Consult" st in
  let st := set_at idx "Date" (Text today) st in
  match psychologists c with
  | [] => set_at idx "Notes" (Text "No psychologists found") st
  | first_psych :: others =>
      let st :=
        match present (psy_name first_psych) with
        | Some name => flag_and_set idx (row_value idx r st) "Name" name st
        | None => st
        end in
      let st := update_field (v_psychologist_type validator)
                             (psy_type first_psych) idx r "Type" st in
      State (updated_df st)
            (new_rows st ++ map (clone_row (row_value idx r st) c) others)
            (discrepancies st)
  end.

(** Lines 331-342 *)
Definition first_item (e : entry) : practice_data :=
  match e with
  | One d => d
  | Many (d :: _) => d
  | Many [] => PError "Empty list for practice data"
  end.

Definition process_data (idx : nat) (r : row) (d : practice_data)
           (st : state) : state :=
  match d with
  | PError message =>
      set_at idx "Notes" (Text ("Extraction error: " +++ message)) st
  | PData c => process_candidate idx r c st
  end.

(** Lines 325-329: the candidate the row is reconciled with, if any. *)
Definition lookup_practice (extracted_data : extracted) (r : row)
  : option entry :=
  match r !! "Practice" with
  | Some (Text practice_name) =>
      if Str.truthy practice_name then extracted_data !! practice_name
      else None
  | Some NaN => None
  | None => None
  end.

Definition process_row (extracted_data : extracted) (idx : nat) (r : row)
           (st : state) : state :=
  match lookup_practice extracted_data (row_value idx r st) with
  | Some e => process_data idx r (first_item e) st
  | None => st
  end.

(** The loop over [updated_df.iterrows()]: [snapshot] holds the rows as
    they are when the loop starts ([iterrows] reads [updated_df.values]
    once), [idx] the label of its first row. *)
Fixpoint process_rows (extracted_data : extracted) (idx : nat)
         (snapshot : list row) (st : state) : state :=
  match snapshot with
  | [] => st
  | r :: snapshot' =>
      process_rows extracted_data (S idx) snapshot'
                   (process_row extracted_data idx r st)
  end.

(** [None] stands for the [KeyError] of [df['Practice']] (line 303). *)
Definition format_data_for_excel (df : DataFrame) (extracted_data : extracted)
  : option (DataFrame * list row * list (nat * str)) :=
  if bool_decide ("Practice" ∈ columns df) then
    let updated := format_phones (ensure_required df) in
    let st := process_rows extracted_data 0 (rows updated)
                           (State (rows updated) [] []) in
    Some (Frame (columns updated) (updated_df st), new_rows st,
          discrepancies st)
  else None.

End WithValidator.

End DataFormatter.

(** ** [WebScraper]: URLs and fetching *)

Module Url.

(** [urllib.parse.urlparse(url)], reduced to the two components the
    scraper reads: [(scheme, netloc)].  [None] stands for [ValueError].
    The function follows [urlsplit]: leading control characters and spaces
    are dropped, tabs and line breaks removed, the scheme is the text before
    the first colon when it is a letter followed by letters, digits, [+],
    [-] or [.], and the netloc is what follows [//] up to the first [/],
    [?] or [#].  A netloc with one kind of square bracket only is refused;
    one with both is handed to [_check_bracketed_netloc] where the Python
    at hand has it. *)
Definition is_c0_or_space (c : ascii) : bool := (Char.code c <=? 32)%N.

(** tab, carriage return, line feed *)
Definition is_unsafe (c : ascii) : bool :=
  (Char.code c =? 9)%N || (Char.code c =? 13)%N || (Char.code c =? 10)%N.

Definition is_scheme_char (c : ascii) : bool :=
  Char.is_alpha c || Char.is_digit c || Re.chars "+-." c.

Fixpoint drop_while (p : ascii -> bool) (s : str) : str :=
  match s with
  | c :: s' => if p c then drop_while p s' else s
  | [] => []
  end.

Fixpoint take_while (p : ascii -> bool) (s : str) : str :=
  match s with
  | c :: s' => if p c then c :: take_while p s' else []
  | [] => []
  end.

Definition split_scheme (url : str) : str * str :=
  let candidate := take_while (fun c => negb (Char.eqb c ":")) url in
  let i := length candidate in
  if (i <? length url)%nat && (0 <? i)%nat
     && Char.is_alpha (default Char.newline (head url))
     && forallb is_scheme_char candidate
  then (Str.lower candidate, drop (S i) url)
  else ([], url).

Section Brackets.
(** Whether [_check_bracketed_netloc(netloc)] returns (it raises
    [ValueError] unless the brackets enclose the whole host and hold an IPv6
    or IPvFuture address).  Python before 3.11.4 makes no such check. *)
Variable bracketed_netloc_ok : str -> bool.

Definition urlparse (url : str) : option (str * str) :=
  let url := drop_while is_c0_or_space url in
  let url := filter (fun c => is_unsafe c = false) url in
  let '(scheme, url) := split_scheme url in
  if Str.startswith "//" url then
    let netloc := take_while (fun c => negb (Re.chars "/?#" c)) (drop 2 url) in
    let opening := existsb (Char.eqb "[") netloc in
    let closing := existsb (Char.eqb "]") netloc in
    if xorb opening closing then None
    else if opening && negb (bracketed_netloc_ok netloc) then None
    else Some (scheme, netloc)
  else Some (scheme, []).

End Brackets.

(** No check of a bracketed netloc, as before Python 3.11.4. *)
Definition unchecked : str -> bool := fun _ => true.

End Url.

(** One answer of [session.get]: a response, or a [requests.RequestException]. *)
Record response : Type := Response {
  status_code : Z;
  content : str
}.

Inductive get_outcome : Type :=
| Returned (r : response)
| Raised (error : str).

(** What a call does to the outside world, in order. *)
Inductive event : Type :=
| Get (url : str)
| Sleep (seconds : nat).


Module WebScraper.

Section Fetcher.
(** [urlparse] of the standard library, and the network: [net k] is what
    the [k]-th call of [session.get] made by one [fetch_url] meets. *)
Variable urlparse : str -> option (str * str).
Variable net : nat -> get_outcome.

Definition is_valid_url (url : str) : bool :=
  if negb (Str.truthy url) then false
  else
    match urlparse url with
    | Some (scheme, netloc) => Str.truthy scheme && Str.truthy netloc
    | None => false
    end.

(** The [while retries < max_retries] loop; [remaining] is
    [max_retries - retries], the number of attempts left. *)
Fixpoint fetch_loop (url : str) (remaining retries : nat) (trace : list event)
  : (bool * option response) * list event :=
  match remaining with
  | O => ((false, None), trace)
  | S remaining' =>
      let trace := trace ++ [Get url] in
      match net retries with
      | Returned r =>
          if (status_code r =? 200)%Z then ((true, Some r), trace)
          else if (status_code r =? 404)%Z then ((false, None), trace)
          else
            let retries := S retries in
            fetch_loop url remaining' retries (trace ++ [Sleep (2 * retries)])
      | Raised _ =>
          let retries := S retries in
          fetch_loop url remaining' retries (trace ++ [Sleep (2 * retries)])
      end
  end.

Definition fetch_url_retries (url : str) (max_retries : nat)
  : (bool * option response) * list event :=
  if negb (is_valid_url url) then ((false, None), [])
  else fetch_loop url max_retries 0 [].


(** [None] stands for a [ValueError] raised by [urlparse]. *)
Definition is_same_domain (url1 url2 : str) : option bool :=
  match urlparse url1, urlparse url2 with
  | Some (_, domain1), Some (_, domain2) =>
      let domain1 := Str.replace "www." [] domain1 in
      let domain2 := Str.replace "www." [] domain2 in
      Some (str_eqb domain1 domain2)
  | _, _ => None
  end.

End Fetcher.

End WebScraper.

(** ** [WebScraper]: cleaning URLs and finding pages *)

(** An [<a href=...>] element as [find_all('a', href=True)] yields it: the
    attribute and the text of the element. *)
Record anchor : Type := Anchor {
  a_href : str;
  a_text : str
}.

Module LinkDiscovery.

(** [clean_url(url)]; [None] is Python's [None]. *)
Definition clean_url (url : str) : option str :=
  if negb (Str.truthy url) then None
  else
    let url := Str.strip url in
    let url :=
      if negb (Str.startswith "http://" url || Str.startswith "https://" url)
      then "https://" +++ url else url in
    let url :=
      if Str.endswith "/" url then take (length url - 1) url else url in
    Some url.

Definition target_pages : list string :=
  ["about"; "about-us"; "our-team"; "our-doctors"; "our-psychologists";
   "team"; "staff"; "practitioners"; "doctors"; "psychologists"; "clinicians";
   "our-services"; "services"; "fees"; "pricing"].

Section Discovery.
(** [urljoin] and [urlparse] of the standard library. *)
Variable urljoin : str -> str -> str.
Variable urlparse : str -> option (str * str).

(** Lines 226-228: a relative link is resolved against the base. *)
Definition resolve (base_url href : str) : str :=
  if negb (Str.startswith "http://" href || Str.startswith "https://" href)
  then urljoin base_url href else href.

(** Line 235 *)
Definition contains_keyword (link_text href : str) : bool :=
  existsb (fun keyword : string =>
             Str.contains keyword link_text
             || Str.contains keyword (Str.lower href))
          target_pages.

(** [find_doctor_pages]; [None] stands for the [ValueError] that
    [is_same_domain] lets through. *)
Fixpoint find_doctor_pages (anchors : list anchor) (base_url : str)
  : option (list str) :=
  match anchors with
  | [] => Some []
  | a :: anchors' =>
      let link_text := Str.strip (Str.lower (a_text a)) in
      let href := resolve base_url (a_href a) in
      match WebScraper.is_same_domain urlparse href base_url with
      | None => None
      | Some false => find_doctor_pages anchors' base_url
      | Some true =>
          match find_doctor_pages anchors' base_url with
          | Some doctor_pages =>
              if contains_keyword link_text href
              then Some (href :: doctor_pages) else Some doctor_pages
          | None => None
          end
      end
  end.

End Discovery.

End LinkDiscovery.

(** ** The specification's reading of "same domain" *)

Module SameDomainSpec.

(** Remove a leading ["www."], and nothing else. *)
Definition strip_leading_www (host : str) : str :=
  if Str.startswith "www." host then drop 4 host else host.

Definition same_domain (urlparse : str -> option (str * str)) (url1 url2 : str)
  : option bool :=
  match urlparse url1, urlparse url2 with
  | Some (_, host1), Some (_, host2) =>
      Some (str_eqb (strip_leading_www host1) (strip_leading_www host2))
  | _, _ => None
  end.

End SameDomainSpec.

(** ** Vocabulary of the statements *)

(** An answer after which [fetch_url] tries again: a status other than 200
    and 404, or a network-level error. *)
Definition retryable (o : get_outcome) : Prop :=
  match o with
  | Returned r => status_code r <> 200%Z /\ status_code r <> 404%Z
  | Raised _ => True
  end.


(** The columns the reconciliation loop writes. *)
Definition written_columns : list string :=
  ["Email"; "Doctors"; "Initial Consult"; "Follow-up Consult"; "Date";
   "Notes"; "Name"; "Type"].

(** [l'] is [l] with the row [idx] rewritten in the columns [cols] only. *)
Definition touches_only (idx : nat) (cols : list string) (l l' : list row) : Prop :=
  length l' = length l
  /\ (forall j, j <> idx -> l' !! j = l !! j)
  /\ (forall x, l !! idx = Some x ->
        exists y, l' !! idx = Some y /\ forall col, col ∉ cols -> y !! col = x !! col).

(** What [update_field] writes into the row. *)
Definition write_field (validate : str -> bool * str) (value : option str)
           (field : string) (x : row) : row :=
  match DataFormatter.present value with
  | Some raw =>
      let '(valid, clean) := validate raw in
      if valid then <[field := Text clean]> x else x
  | None => x
  end.

(** The writes of one iteration of the loop for a candidate, in order. *)
Definition candidate_writes (validator : Validator) (today : str) (c : candidate)
           (x : row) : row :=
  let x := write_field (v_email validator) (email c) "Email" x in
  let x := write_field (v_url validator) (doctor_page_url c) "Doctors" x in
  let x := write_field (v_price validator) (initial_consult c) "Initial Consult" x in
  let x := write_field (v_price validator) (followup_consult c)
                       "Follow-up Consult" x in
  let x := <["Date" := Text today]> x in
  match psychologists c with
  | [] => <["Notes" := Text "No psychologists found"]> x
  | first_psych :: _ =>
      let x :=
        match DataFormatter.present (psy_name first_psych) with
        | Some name => <["Name" := Text name]> x
        | None => x
        end in
      write_field (v_psychologist_type validator) (psy_type first_psych) "Type" x
  end.

(** The row that [row.copy()] copies at line 434, after the iteration has
    written the candidate's values: the written row where [row] is a view,
    the row as the loop found it where [row] is a copy. *)
Definition copied_row (validator : Validator) (today : str) (row_is_view : bool)
           (c : candidate) (r : row) : row :=
  if row_is_view then candidate_writes validator today c r else r.

(** The rows added for the practice of [r]: one per psychologist after the
    first, in the order of the list. *)
Definition expansion (validator : Validator) (today : str) (row_is_view : bool)
           (extracted_data : extracted) (r : row) : list row :=
  match DataFormatter.lookup_practice extracted_data r with
  | Some e =>
      match DataFormatter.first_item e with
      | PData c =>
          map (DataFormatter.clone_row validator today
                 (copied_row validator today row_is_view c r) c)
              (tail (psychologists c))
      | PError _ => []
      end
  | None => []
  end.

(** The candidate a row is reconciled with: the dict itself, or the first
    item of a list. *)
Definition candidate_for (extracted_data : extracted) (r : row)
  : option practice_data :=
  DataFormatter.first_item <$> DataFormatter.lookup_practice extracted_data r.

(** The table as the reconciliation loop finds it. *)
Definition snapshot (validator : Validator) (df : DataFrame) : list row :=
  rows (DataFormatter.format_phones validator (DataFormatter.ensure_required df)).

(** ** The data of the repository's own test ([test_stage4.py]) *)

Module Wisemind.

Definition existing_row : row :=
  list_to_map
    [("Practice", Text "Wisemind Psychology");
     ("Address", Text "Unit 2/40 Minchinton St, Caloundra QLD 4551");
     ("Website", Text "http://www.wisemind.com.au");
     ("Phone", Text "0490193347");
     ("Name", Text ""); ("Email", Text ""); ("Doctors", Text "");
     ("Type", Text ""); ("Initial Consult", Text "");
     ("Follow-up Consult", Text ""); ("Date", Text ""); ("Notes", Text "")].

Definition all_columns : list string :=
  ["Practice"; "Address"; "Website"; "Phone"; "Name"; "Email"; "Doctors";
   "Type"; "Initial Consult"; "Follow-up Consult"; "Date"; "Notes"].

Definition df : DataFrame := Frame all_columns [existing_row].

Definition staff : candidate :=
  Candidate (Some (lit "admin@wisemind.com.au"))
            (Some (lit "http://www.wisemind.com.au/our-team/"))
            (Some (lit "$220")) (Some (lit "$180"))
            [Psych (Some (lit "Melissa Madden")) (Some (lit "C"));
             Psych (Some (lit "Danielle Comerford")) (Some (lit "G"));
             Psych (Some (lit "Rachel Hannam")) (Some (lit "G"))].

Definition extracted_data : extracted :=
  {[ lit "Wisemind Psychology" := One (PData staff) ]}.

Definition today : str := lit "2025-03-01".

(** The same row as [pandas.read_excel] loads it from the sheet of
    [test_pipe.py]: the empty cells are NaN. *)
Definition loaded_row : row :=
  list_to_map
    [("Practice", Text "Wisemind Psychology");
     ("Address", Text "Unit 2/40 Minchinton St, Caloundra QLD 4551");
     ("Website", Text "http://www.wisemind.com.au");
     ("Phone", Text "0490193347");
     ("Name", NaN); ("Email", NaN); ("Doctors", NaN); ("Type", NaN);
     ("Initial Consult", NaN); ("Follow-up Consult", NaN); ("Date", NaN);
     ("Notes", NaN)].

Definition loaded_df : DataFrame := Frame all_columns [loaded_row].

(** An extraction that failed, and one that knows another practice only. *)
Definition failed : extracted :=
  {[ lit "Wisemind Psychology" := One (PError "quota exceeded") ]}.

Definition other_practice : extracted :=
  {[ lit "Mindful Therapy" := One (PData staff) ]}.

End Wisemind.

(** The three components of a result, [None] read as empty. *)
Definition updated_of (res : option (DataFrame * list row * list (nat * str)))
  : list row :=
  match res with Some (u, _, _) => rows u | None => [] end.
Definition new_rows_of (res : option (DataFrame * list row * list (nat * str)))
  : list row :=
  match res with Some (_, n, _) => n | None => [] end.
Definition discrepancies_of (res : option (DataFrame * list row * list (nat * str)))
  : list (nat * str) :=
  match res with Some (_, _, d) => d | None => [] end.

(** ** Vocabulary for the matcher *)

Section MatcherVocabulary.
Import Re DataValidator.

Definition first (r : re) (st : mstate) : option mstate := head (run r st).

(** The position after reading [w]. *)
Definition after_text (q : option ascii) (w : str) : option ascii :=
  match last w with Some c => Some c | None => q end.

Definition optional_letter (l : str) : Prop :=
  l = [] \/ exists c, l = [c] /\ Char.is_alpha c = true.

Definition no_newline (s : str) : Prop :=
  Forall (fun c => negb (Char.eqb c Char.newline) = true) s.

Definition starts_unspaced (s : str) : Prop :=
  match s with [] => False | c :: _ => Char.is_space c = false end.

(** [r], tried at a text that starts with [w] and goes on with [s], reads
    exactly [w] on its first (preferred) path and turns the captures [g]
    into [f g]. *)
Definition reads (r : re) (w s : str) (f : list (nat * str) -> list (nat * str))
  : Prop :=
  forall q g, exists q', first r (MState q (w ++ s) g) = Some (MState q' s (f g)).

Definition stops (p : ascii -> bool) (s : str) : Prop :=
  match s with [] => True | c :: _ => p c = false end.

(** The body of [unit_pattern] after [^]. *)
Definition unit_body : re :=
  Seq (Group 1 (Seq (Opt (Seq (Lit "Unit") (Plus space)))
                    (Seq (Plus (one_of [Char.is_digit; Char.is_alpha]))
                         (Chr (chars "/\")))))
      (Seq (Group 2 (Seq (Plus digit) (Opt (Chr Char.is_alpha))))
           (Seq (Plus space) (Seq (Group 3 (Plus dot)) Eol))).

(** All 256 characters. *)
Definition all_chars : list ascii :=
  map (fun n => ascii_of_nat n) (seq 0 256).

(** A character [r] may read. *)
Fixpoint may_read (r : re) (c : ascii) : bool :=
  match r with
  | Chr p => p c
  | Seq a b | Alt a b => may_read a c || may_read b c
  | Star a | Group _ a => may_read a c
  | Eps | Bol | Eol | WordB => false
  end.

Definition only_spaces (p : ascii -> bool) : bool :=
  forallb (fun c => implb (p c) (Char.is_space c)) all_chars.

(** A number of white-space characters that [r] reads at least. *)
Fixpoint min_spaces (r : re) : nat :=
  match r with
  | Chr p => if only_spaces p then 1 else 0
  | Seq a b => min_spaces a + min_spaces b
  | Alt a b => Nat.min (min_spaces a) (min_spaces b)
  | Group _ a => min_spaces a
  | Star _ | Eps | Bol | Eol | WordB => 0
  end.

Definition count_spaces (w : str) : nat :=
  length (List.filter Char.is_space w).

(** [r] ends with [$]. *)
Fixpoint ends_at_eol (r : re) : bool :=
  match r with
  | Eol => true
  | Seq _ b => ends_at_eol b
  | Group _ a => ends_at_eol a
  | Alt a b => ends_at_eol a && ends_at_eol b
  | _ => false
  end.

(** What a successful run of [r] has read. *)
Definition read_by (r : re) (st st' : mstate) : Prop :=
  exists w, rest st = w ++ rest st'
            /\ Forall (fun c => may_read r c = true) w
            /\ min_spaces r <= count_spaces w.

(** [t] is what [r] ends with, after a chain of sequences. *)
Inductive ends_with (t : re) : re -> Prop :=
| ends_here : ends_with t t
| ends_later a b : ends_with t b -> ends_with t (Seq a b).

(** What follows the comma in both address patterns. *)
Definition after_comma : re :=
  Seq (Plus space) (Seq (Plus word_or_space) (Seq (Plus space)
    (Seq (Range 2 3 (Chr Char.is_upper)) (Seq (Plus space)
      (Seq (Range 4 5 digit) Eol))))).

Definition comma : ascii := ",".

Definition comma_free (s : str) : Prop := Forall (fun c => c <> comma) s.

Definition spaces (w : str) : Prop := Forall (fun c => Char.is_space c = true) w.

Definition ends_unspaced (s : str) : Prop := starts_unspaced (rev s).

(** The shape the specification gives for an address with a unit prefix:
    an optional "Unit ", digits and an optional letter, a slash or backslash,
    digits and an optional letter, one space, and one or more characters
    other than a line break, up to the end. *)
Definition unit_shape : re :=
  Seq Bol (Seq (Opt (Lit "Unit ")) (Seq (Plus digit) (Seq (Opt (Chr Char.is_alpha))
    (Seq (Chr (chars "/\")) (Seq (Plus digit) (Seq (Opt (Chr Char.is_alpha))
      (Seq (C " ") (Seq (Plus dot) Eol)))))))).

End MatcherVocabulary.

(** ** Vocabulary for URLs *)

Definition has_scheme (url : str) : bool :=
  Str.startswith "http://" url || Str.startswith "https://" url.

(** The text [validate_url] tests and returns. *)
Definition url_text (url : str) : str :=
  if negb (has_scheme (Str.strip url)) then "http://" +++ Str.strip url
  else Str.strip url.

(** ** Vocabulary for the reconciled row, continued *)

(** The number of rows a row's candidate adds. *)
Definition added_rows (extracted_data : extracted) (r : row) : nat :=
  match candidate_for extracted_data r with
  | Some (PData c) => length (psychologists c) - 1
  | _ => 0
  end.

(** The fields whose new value is compared with the row. *)
Definition flagged_fields : list string :=
  ["Email"; "Doctors"; "Initial Consult"; "Follow-up Consult"; "Name"; "Type"].

(** A discrepancy entry of row [idx] read off the row [r] the loop holds:
    a flagged field whose cell in [r] is true, with the message built from
    that cell. *)
Definition recorded_for (idx : nat) (r : row) (e : nat * str) : Prop :=
  e.1 = idx
  /\ exists field old v,
       field ∈ flagged_fields
       /\ r !! field = Some old
       /\ Cell.truthy old = true
       /\ e.2 = "Discrepancy in " +++ lit field +++ ": '" +++ Cell.to_str old
                +++ "' vs '" +++ v +++ "'".

(** [st'] holds the discrepancies of [st] followed by entries of row [idx]. *)
Definition records_only (idx : nat) (r : row) (st st' : DataFormatter.state) : Prop :=
  exists l, DataFormatter.discrepancies st' = DataFormatter.discrepancies st ++ l
            /\ Forall (recorded_for idx r) l.

(** The cell a validated field holds after [update_field]: the clean value
    when the new value is present and valid, the old cell otherwise. *)
Definition field_after (validate : str -> bool * str) (value : option str)
           (old : option cell) : option cell :=
  match DataFormatter.present value with
  | Some raw =>
      let '(valid, clean) := validate raw in
      if valid then Some (Text clean) else old
  | None => old
  end.

(** The cell of a required column as the loop finds it: the cell of the
    table, or the empty text of a column created on the way. *)
Definition existing_cell (df : DataFrame) (r : row) (col : string) : option cell :=
  if bool_decide (col ∈ columns df) then r !! col else Some (Text []).

(** An entry of the loop: the row it belongs to has a candidate, and the
    entry is read off that row. *)
Definition entry_of_loop (ex : extracted) (idx : nat) (snap : list row)
           (e : nat * str) : Prop :=
  exists k r c, snap !! k = Some r /\ e.1 = idx + k
                /\ candidate_for ex r = Some (PData c)
                /\ recorded_for (idx + k) r e.

(** The sheet of the test once more, now listing an older e-mail address. *)
Module Revisit.

Definition listed_row : row :=
  <["Email" := Text "info@wisemind.com.au"]> Wisemind.existing_row.

Definition df : DataFrame := Frame Wisemind.all_columns [listed_row].

End Revisit.

(** ** Vocabulary for prices *)

(** The cents the price pattern reads after the digits: a point and two
    digits, when they follow. *)
Definition cents (post : str) : str :=
  match post with
  | c :: a :: b :: _ =>
      if Char.eqb "." c && Char.is_digit a && Char.is_digit b then [c; a; b] else []
  | _ => []
  end.

(** The optional group of the price pattern, [(?:\.\d{2})?]. *)
Definition cents_pattern : re :=
  Re.Opt (Seq (Re.C ".") (Re.Times 2 Re.digit)).

(** ** Proof automation *)

(** A string is not among the finitely many strings of an explicit list. *)
Ltac not_in_list :=
  let H := fresh in
  intros H; repeat (apply elem_of_cons in H as [H|H]; [discriminate H|]);
  apply elem_of_nil in H; exact H.

(** A string is among the strings of an explicit list. *)
Ltac in_list :=
  repeat first [ apply list_elem_of_here | apply list_elem_of_further ].

(* ===================================================================== *)
(** * Properties *)
(* ===================================================================== *)

(** ** Phone numbers *)

Section Phone.
Import DataValidator.

(** X2: a phone number is valid exactly when it has 8 to 12 digits, counted
    after a 9-digit number starting with 4 got its leading zero back. *)
Lemma validate_phone_valid_iff (phone : str) :
  fst (validate_phone phone) = true <->
  (8 <= length (phone_digits phone) <= 12)%nat.
Proof.
  unfold validate_phone.
  destruct phone as [|c phone]; simpl Str.truthy; cbn [negb].
  - simpl. split; [discriminate | cbn; lia].
  - set (d := phone_digits (c :: phone)).
    destruct ((8 <=? length d)%nat && (length d <=? 12)%nat) eqn:E.
    + apply andb_true_iff in E as [E1 E2].
      apply Nat.leb_le in E1, E2.
      split; [lia|intros _].
      repeat match goal with
             | |- context [if ?b then _ else _] => destruct b
             end; reflexivity.
    + split; [discriminate|].
      intros [H1 H2]. apply Nat.leb_le in H1, H2.
      rewrite H1, H2 in E. discriminate.
Qed.

(** C3 (the defect): on line 189 [and] binds tighter than [or], so a digit
    string that starts with 1800 takes the ten-digit grouping whatever its
    length.  Eleven digits lose their last digit instead of being returned
    ungrouped, and eight digits are not grouped four and four. *)
Theorem validate_phone_1800_any_length :
  phone_digits "18001234567" = lit "18001234567"
  /\ validate_phone "18001234567" = (true, lit "1800 123 456")
  /\ phone_digits "18001234" = lit "18001234"
  /\ validate_phone "18001234" = (true, lit "1800 123 4").
Proof. repeat split; vm_compute; reflexivity. Qed.

End Phone.

(** ** Category codes *)

Section Category.
Import DataValidator.

(** C9: validating the value of a validation gives the same pair again. *)
Theorem validate_psychologist_type_idempotent (x : str) :
  validate_psychologist_type (snd (validate_psychologist_type x))
  = validate_psychologist_type x.
Proof.
  unfold validate_psychologist_type at 2 3.
  destruct (negb (Str.truthy x)); [reflexivity|].
  generalize (Str.upper (Str.strip x)); intros p.
  unfold str_eqb.
  repeat case_bool_decide; subst; try reflexivity; cbn [orb].
  repeat match goal with
         | |- context [if ?b then _ else _] => destruct b
         end; reflexivity.
Qed.

End Category.

(** ** Fetching *)

Section Fetch.
Import WebScraper.
Variable urlparse : str -> option (str * str).
Variable net : nat -> get_outcome.

Lemma is_valid_url_true (url : str) :
  is_valid_url urlparse url = true <->
  url <> [] /\ exists scheme netloc,
    urlparse url = Some (scheme, netloc) /\ scheme <> [] /\ netloc <> [].
Proof.
  unfold is_valid_url. destruct url as [|c url]; simpl.
  - split; [discriminate | intros [H _]; congruence].
  - destruct (urlparse (c :: url)) as [[scheme netloc]|].
    + destruct scheme, netloc; simpl; split; try discriminate;
        try (intros (_ & ? & ? & [= <- <-] & ? & ?); congruence).
      intros _. split; [discriminate|]. eexists _, _. repeat split; discriminate.
    + split; [discriminate|]. intros (_ & ? & ? & ? & _). discriminate.
Qed.

(** A retryable answer costs one GET and one sleep, then the loop goes on. *)
Lemma fetch_loop_retry (url : str) (remaining retries : nat) (trace : list event) :
  retryable (net retries) ->
  fetch_loop net url (S remaining) retries trace
  = fetch_loop net url remaining (S retries)
               ((trace ++ [Get url]) ++ [Sleep (2 * S retries)]).
Proof.
  intros Hr. cbn [fetch_loop]. destruct (net retries) as [r|e]; [|reflexivity].
  destruct Hr as [H200 H404].
  apply Z.eqb_neq in H200, H404. rewrite H200, H404. reflexivity.
Qed.


End Fetch.


(** ** Same-domain test *)

(** C5 (the defect): [str.replace] removes every ["www."] of the host, not
    only a leading one, so two different hosts are reported as one domain
    where the specification's comparison keeps them apart. *)
Theorem is_same_domain_inner_www (bracketed_netloc_ok : str -> bool) :
  Url.urlparse bracketed_netloc_ok "http://shop.www.example.com"
  = Some (lit "http", lit "shop.www.example.com")
  /\ Url.urlparse bracketed_netloc_ok "http://shop.example.com"
     = Some (lit "http", lit "shop.example.com")
  /\ WebScraper.is_same_domain (Url.urlparse bracketed_netloc_ok)
       "http://shop.www.example.com" "http://shop.example.com" = Some true
  /\ SameDomainSpec.same_domain (Url.urlparse bracketed_netloc_ok)
       "http://shop.www.example.com" "http://shop.example.com" = Some false.
Proof. repeat split; vm_compute; reflexivity. Qed.

(** ** Reconciliation *)

Section Reconcile.
Import DataFormatter.
Variable validator : Validator.
Variable today : str.
Variable row_is_view : bool.

Lemma lookup_map {A B} (f : A -> B) (l : list A) (i : nat) :
  map f l !! i = f <$> (l !! i).
Proof.
  revert i. induction l as [|x l IH]; intros [|i]; cbn; try reflexivity. apply IH.
Qed.

Lemma touches_only_refl idx cols l : touches_only idx cols l l.
Proof. repeat split; eauto. Qed.

Lemma touches_only_trans idx cols l1 l2 l3 :
  touches_only idx cols l1 l2 -> touches_only idx cols l2 l3 ->
  touches_only idx cols l1 l3.
Proof.
  intros (Hl1 & Ho1 & Hi1) (Hl2 & Ho2 & Hi2). split; [congruence|]. split.
  - intros j Hj. rewrite Ho2, Ho1 by done. done.
  - intros x Hx. destruct (Hi1 x Hx) as (y & Hy & Hxy).
    destruct (Hi2 y Hy) as (z & Hz & Hyz). exists z. split; [done|].
    intros col Hcol. rewrite Hyz, Hxy by done. done.
Qed.

Lemma set_at_touches idx col v cols st :
  col ∈ cols ->
  touches_only idx cols (updated_df st) (updated_df (set_at idx col v st)).
Proof.
  intros Hin. cbn. split; [apply length_alter|]. split.
  - intros j Hj. apply list_lookup_alter_ne. done.
  - intros x Hx. exists (<[col:=v]> x). rewrite list_lookup_alter_eq, Hx. split; [done|].
    intros c Hc. apply lookup_insert_ne. intros ->. done.
Qed.

Lemma flag_and_set_touches idx r field v cols st :
  field ∈ cols ->
  touches_only idx cols (updated_df st) (updated_df (flag_and_set idx r field v st)).
Proof.
  intros Hin. unfold flag_and_set.
  destruct (flag_discrepancies _ _ _) as [[] msg]; apply (set_at_touches idx field _ cols (State _ _ _) Hin) || apply set_at_touches; done.
Qed.

Lemma flag_and_set_new_rows idx r field v st :
  new_rows (flag_and_set idx r field v st) = new_rows st.
Proof. unfold flag_and_set. destruct (flag_discrepancies _ _ _) as [[] msg]; reflexivity. Qed.

Lemma update_field_touches validate value idx r field cols st :
  field ∈ cols ->
  touches_only idx cols (updated_df st)
               (updated_df (update_field row_is_view validate value idx r field st)).
Proof.
  intros Hin. unfold update_field.
  destruct (present value) as [raw|]; [|apply touches_only_refl].
  destruct (validate raw) as [[] clean]; [|apply touches_only_refl].
  by apply flag_and_set_touches.
Qed.

Lemma update_field_new_rows validate value idx r field st :
  new_rows (update_field row_is_view validate value idx r field st) = new_rows st.
Proof.
  unfold update_field.
  destruct (present value) as [raw|]; [|done].
  destruct (validate raw) as [[] clean]; [|done].
  apply flag_and_set_new_rows.
Qed.


Ltac touch_step :=
  eapply touches_only_trans;
  [| first [ apply set_at_touches | apply flag_and_set_touches
           | apply update_field_touches ]; set_solver ].

Lemma process_candidate_touches idx r c st :
  touches_only idx written_columns (updated_df st)
               (updated_df (process_candidate validator today row_is_view idx r c st)).
Proof.
  unfold process_candidate. cbv zeta.
  destruct (psychologists c) as [|first_psych others].
  - do 6 touch_step. apply touches_only_refl.
  - cbn [updated_df]. touch_step.
    destruct (present (psy_name first_psych)); do 5 touch_step;
      try touch_step; apply touches_only_refl.
Qed.

(** What one write leaves in the row [idx]. *)
Lemma set_at_row idx col v st :
  updated_df (set_at idx col v st) !! idx = <[col := v]> <$> (updated_df st !! idx).
Proof. cbn [set_at updated_df]. apply list_lookup_alter_eq. Qed.

Lemma flag_and_set_row idx r field v st :
  updated_df (flag_and_set idx r field v st) !! idx
  = <[field := Text v]> <$> (updated_df st !! idx).
Proof.
  unfold flag_and_set. destruct (flag_discrepancies _ _ _) as [[] msg];
    rewrite set_at_row; reflexivity.
Qed.

Lemma update_field_row validate value idx r field st :
  updated_df (update_field row_is_view validate value idx r field st) !! idx
  = write_field validate value field <$> (updated_df st !! idx).
Proof.
  unfold update_field, write_field.
  destruct (present value) as [raw|]; [|destruct (_ !! idx); reflexivity].
  destruct (validate raw) as [[] clean]; [|destruct (_ !! idx); reflexivity].
  apply flag_and_set_row.
Qed.

(** One iteration for a candidate rewrites its row by [candidate_writes]. *)
Lemma process_candidate_row idx r c st :
  updated_df (process_candidate validator today row_is_view idx r c st) !! idx
  = candidate_writes validator today c <$> (updated_df st !! idx).
Proof.
  unfold process_candidate, candidate_writes. cbv zeta.
  destruct (psychologists c) as [|first_psych others].
  - rewrite set_at_row, set_at_row, !update_field_row.
    destruct (updated_df st !! idx); reflexivity.
  - cbn [updated_df]. rewrite update_field_row.
    destruct (present (psy_name first_psych)) as [name|].
    + rewrite flag_and_set_row, set_at_row, !update_field_row.
      destruct (updated_df st !! idx); reflexivity.
    + rewrite set_at_row, !update_field_row.
      destruct (updated_df st !! idx); reflexivity.
Qed.

(** What [row] holds: the row of the table itself at the start of its
    iteration, a cell that was not written since, and the written row at
    the end. *)
Lemma row_value_here idx r st :
  updated_df st !! idx = Some r -> row_value row_is_view idx r st = r.
Proof. intros H. unfold row_value. rewrite H. case row_is_view; reflexivity. Qed.

Lemma row_value_cell idx r st x field :
  updated_df st !! idx = Some x -> x !! field = r !! field ->
  row_value row_is_view idx r st !! field = r !! field.
Proof.
  intros Hx Hfield. unfold row_value. rewrite Hx. cbn [default from_option].
  case row_is_view; [exact Hfield | reflexivity].
Qed.

Lemma row_value_copied idx r st c :
  updated_df st !! idx = Some (candidate_writes validator today c r) ->
  row_value row_is_view idx r st = copied_row validator today row_is_view c r.
Proof.
  intros Hx. unfold row_value, copied_row. rewrite Hx. reflexivity.
Qed.

Lemma process_candidate_new_rows idx r c st :
  updated_df st !! idx = Some r ->
  new_rows (process_candidate validator today row_is_view idx r c st)
  = new_rows st
    ++ map (clone_row validator today
              (copied_row validator today row_is_view c r) c)
           (tail (psychologists c)).
Proof.
  intros Hrow.
  pose proof (process_candidate_row idx r c st) as Hfinal.
  rewrite Hrow in Hfinal. cbn [fmap option_fmap option_map] in Hfinal.
  revert Hfinal. unfold process_candidate. cbv zeta.
  destruct (psychologists c) as [|first_psych others]; cbn [new_rows tail map set_at].
  - intros _. rewrite !update_field_new_rows. by rewrite app_nil_r.
  - cbn [updated_df]. intros Hfinal.
    rewrite (row_value_copied idx r _ c Hfinal).
    rewrite update_field_new_rows.
    destruct (present (psy_name first_psych));
      rewrite ?flag_and_set_new_rows; cbn [new_rows set_at];
      rewrite !update_field_new_rows; reflexivity.
Qed.

Lemma process_row_touches ex idx r st :
  touches_only idx written_columns (updated_df st)
               (updated_df (process_row validator today row_is_view ex idx r st)).
Proof.
  unfold process_row, process_data.
  destruct (lookup_practice ex _) as [e|]; [|apply touches_only_refl].
  destruct (first_item e) as [msg|c].
  - apply set_at_touches. set_solver.
  - apply process_candidate_touches.
Qed.

Lemma process_row_other ex idx r st j :
  j <> idx ->
  updated_df (process_row validator today row_is_view ex idx r st) !! j
  = updated_df st !! j.
Proof. intros Hj. by apply (process_row_touches ex idx r st). Qed.

Lemma process_row_new_rows ex idx r st :
  updated_df st !! idx = Some r ->
  new_rows (process_row validator today row_is_view ex idx r st)
  = new_rows st ++ expansion validator today row_is_view ex r.
Proof.
  intros Hrow. unfold process_row, process_data, expansion.
  rewrite (row_value_here idx r st Hrow).
  destruct (lookup_practice ex r) as [e|]; [|by rewrite app_nil_r].
  destruct (first_item e) as [msg|c]; [by rewrite app_nil_r|].
  apply process_candidate_new_rows, Hrow.
Qed.

(** The rows from [idx] on are as the loop found them; one iteration keeps
    this for the rows after its own. *)
Lemma loop_step ex idx r snapshot st :
  drop idx (updated_df st) = r :: snapshot ->
  updated_df st !! idx = Some r
  /\ drop (S idx) (updated_df (process_row validator today row_is_view ex idx r st))
     = snapshot.
Proof.
  intros Hdrop. split.
  - rewrite <- (Nat.add_0_r idx), <- lookup_drop, Hdrop. reflexivity.
  - apply list_eq. intros i. rewrite lookup_drop.
    rewrite process_row_other by lia.
    replace (S idx + i) with (idx + S i) by lia.
    rewrite <- lookup_drop, Hdrop. reflexivity.
Qed.

(** What the loop does to the table: the length stays, rows before [idx]
    stay, and every row keeps the columns that are never written. *)
Lemma process_rows_frame ex snapshot : forall idx st,
  let st' := process_rows validator today row_is_view ex idx snapshot st in
  length (updated_df st') = length (updated_df st)
  /\ (forall j, j < idx -> updated_df st' !! j = updated_df st !! j)
  /\ (forall j x, updated_df st !! j = Some x ->
        exists y, updated_df st' !! j = Some y
                  /\ forall col, col ∉ written_columns -> y !! col = x !! col)
  /\ (drop idx (updated_df st) = snapshot ->
      new_rows st'
      = new_rows st ++ flat_map (expansion validator today row_is_view ex) snapshot).
Proof.
  induction snapshot as [|r snapshot IH]; intros idx st; cbn [process_rows flat_map].
  - cbv zeta. split; [reflexivity|]. split; [reflexivity|]. split; [eauto|].
    intros _. by rewrite app_nil_r.
  - cbv zeta.
    destruct (IH (S idx) (process_row validator today row_is_view ex idx r st))
      as (Hlen & Hbefore & Hkeep & Hnew).
    destruct (process_row_touches ex idx r st) as (Hl & Ho & Hi).
    split; [congruence|]. split; [|split].
    + intros j Hj. rewrite Hbefore by lia. apply Ho. lia.
    + intros j x Hx.
      destruct (decide (j = idx)) as [->|Hne].
      * destruct (Hi x Hx) as (y & Hy & Hxy).
        destruct (Hkeep idx y Hy) as (z & Hz & Hyz). exists z. split; [done|].
        intros col Hcol. rewrite Hyz, Hxy by done. done.
      * rewrite <- Ho in Hx by done. apply Hkeep. done.
    + intros Hdrop. destruct (loop_step ex idx r snapshot st Hdrop) as [Hrow Hnext].
      rewrite (Hnew Hnext), (process_row_new_rows ex idx r st Hrow).
      by rewrite <- app_assoc.
Qed.

Lemma ensure_column_spec col df :
  length (rows (ensure_column col df)) = length (rows df)
  /\ (forall c, c ∈ columns (ensure_column col df) <-> c ∈ columns df \/ c = col)
  /\ (forall i r, rows df !! i = Some r ->
        exists r', rows (ensure_column col df) !! i = Some r'
                   /\ forall c, c ∈ columns df \/ c <> col -> r' !! c = r !! c).
Proof.
  unfold ensure_column. case_bool_decide as Hcol; cbn [rows columns].
  - split; [done|]. split.
    + intros c. split; [auto|]. intros [?| ->]; done.
    + intros i r Hr. exists r. done.
  - split; [apply length_map|]. split.
    + intros c. rewrite elem_of_app, list_elem_of_singleton. done.
    + intros i r Hr. exists (<[col:=Text []]> r). split.
      * rewrite lookup_map, Hr. reflexivity.
      * intros c [Hc|Hc]; apply lookup_insert_ne; congruence.
Qed.

Lemma ensure_fold_spec cols : forall df,
  let df' := fold_left (fun d c => ensure_column c d) cols df in
  length (rows df') = length (rows df)
  /\ (forall c, c ∈ columns df' <-> c ∈ columns df \/ c ∈ cols)
  /\ (forall i r, rows df !! i = Some r ->
        exists r', rows df' !! i = Some r'
                   /\ forall c, c ∈ columns df \/ c ∉ cols -> r' !! c = r !! c).
Proof.
  induction cols as [|col cols IH]; intros df; cbn [fold_left]; cbv zeta.
  - split; [done|]. split.
    + intros c. rewrite elem_of_nil. tauto.
    + intros i r Hr. exists r. done.
  - destruct (IH (ensure_column col df)) as (Hlen & Hcols & Hrows).
    destruct (ensure_column_spec col df) as (Hlen1 & Hcols1 & Hrows1).
    split; [congruence|]. split.
    + intros c. rewrite Hcols, Hcols1, elem_of_cons. tauto.
    + intros i r Hr. destruct (Hrows1 i r Hr) as (r1 & Hr1 & Hsame1).
      destruct (Hrows i r1 Hr1) as (r2 & Hr2 & Hsame2). exists r2. split; [done|].
      intros c Hc. rewrite Hsame2, Hsame1; [done| |].
      * destruct Hc as [Hc|Hc]; [by left|]. right. intros ->. apply Hc. left.
      * destruct Hc as [Hc|Hc]; [left; apply Hcols1; by left|].
        right. intros Hin. apply Hc. by right.
Qed.

Lemma format_phone_other r col : col <> "Phone" -> format_phone validator r !! col = r !! col.
Proof.
  intros Hcol. unfold format_phone.
  destruct (r !! "Phone") as [phone|]; [|done].
  destruct (Cell.notna phone && Cell.truthy phone); [|done].
  destruct (v_phone validator (Cell.to_str phone)) as [[] clean]; [|done].
  apply lookup_insert_ne. congruence.
Qed.

Lemma format_phone_phone r r' :
  r !! "Phone" = r' !! "Phone" ->
  format_phone validator r !! "Phone" = format_phone validator r' !! "Phone".
Proof.
  intros Heq. unfold format_phone. rewrite <- Heq.
  destruct (r !! "Phone") as [phone|] eqn:Hp; [|by rewrite Hp, Heq].
  destruct (Cell.notna phone && Cell.truthy phone); [|by rewrite <- Heq].
  destruct (v_phone validator (Cell.to_str phone)) as [[] clean]; [|by rewrite <- Heq].
  by rewrite !lookup_insert_eq.
Qed.

(** The table the loop starts from, row by row. *)
Lemma snapshot_spec df :
  length (snapshot validator df) = length (rows df)
  /\ (forall i r, rows df !! i = Some r ->
        exists r', snapshot validator df !! i = Some r'
          /\ (forall c, c ∈ columns df \/ c ∉ required_columns ->
                        c <> "Phone" -> r' !! c = r !! c)
          /\ ("Phone" ∈ columns df ->
              r' !! "Phone" = format_phone validator r !! "Phone")
          /\ ("Phone" ∉ columns df -> r' !! "Phone" = r !! "Phone")).
Proof.
  unfold snapshot, ensure_required.
  destruct (ensure_fold_spec required_columns df) as (Hlen & Hcols & Hrows).
  cbv zeta in Hlen, Hcols, Hrows.
  generalize dependent (fold_left (fun d c => ensure_column c d) required_columns df).
  intros df1 Hlen Hcols Hrows.
  assert (Hnotreq : "Phone" ∉ required_columns).
  { unfold required_columns. not_in_list. }
  assert (Hphone : "Phone" ∈ columns df1 <-> "Phone" ∈ columns df).
  { split.
    - intros H. apply Hcols in H as [H|H]; [exact H|]. exfalso. exact (Hnotreq H).
    - intros H. apply Hcols. left. exact H. }
  unfold format_phones. case_bool_decide as Hp; cbn [rows].
  - split; [rewrite length_map; exact Hlen|].
    intros i r Hr. destruct (Hrows i r Hr) as (r1 & Hr1 & Hsame).
    exists (format_phone validator r1). split; [|split; [|split]].
    + rewrite lookup_map, Hr1. reflexivity.
    + intros c Hc Hne. rewrite format_phone_other by exact Hne. apply Hsame, Hc.
    + intros _. apply format_phone_phone. apply Hsame. right. exact Hnotreq.
    + intros Hno. exfalso. apply Hno, Hphone, Hp.
  - split; [exact Hlen|].
    intros i r Hr. destruct (Hrows i r Hr) as (r1 & Hr1 & Hsame).
    exists r1. split; [exact Hr1|]. split; [|split].
    + intros c Hc _. apply Hsame, Hc.
    + intros Hyes. exfalso. apply Hp, Hphone, Hyes.
    + intros _. apply Hsame. right. exact Hnotreq.
Qed.

(** The row [idx + k] is written by the iteration for that row alone. *)
Lemma process_rows_at ex snap : forall idx st k r,
  snap !! k = Some r ->
  exists st_k,
    updated_df st_k !! (idx + k) = updated_df st !! (idx + k)
    /\ updated_df (process_rows validator today row_is_view ex idx snap st) !! (idx + k)
       = updated_df (process_row validator today row_is_view ex (idx + k) r st_k) !! (idx + k).
Proof.
  induction snap as [|r0 snap IH]; intros idx st k r Hk; [done|].
  cbn [process_rows]. destruct k as [|k].
  - injection Hk as ->. exists st. split; [done|].
    rewrite Nat.add_0_r.
    by apply (process_rows_frame ex snap (S idx)); lia.
  - cbn in Hk.
    destruct (IH (S idx) (process_row validator today row_is_view ex idx r0 st) k r Hk)
      as (st_k & Hsame & Hfinal).
    replace (idx + S k) with (S idx + k) by lia.
    exists st_k. split; [|done].
    rewrite Hsame. apply process_row_other. lia.
Qed.

Lemma lookup_practice_ext ex r r' :
  r' !! "Practice" = r !! "Practice" ->
  lookup_practice ex r' = lookup_practice ex r.
Proof. intros H. unfold lookup_practice. by rewrite H. Qed.

Lemma practice_not_required : "Practice" ∉ required_columns.
Proof. unfold required_columns. not_in_list. Qed.

Lemma write_field_lookup validate value field x :
  write_field validate value field x !! field
  = field_after validate value (x !! field).
Proof.
  unfold write_field, field_after.
  destruct (present value) as [raw|]; [|reflexivity].
  destruct (validate raw) as [[] clean]; [|reflexivity].
  apply lookup_insert_eq.
Qed.

Lemma write_field_other validate value field x col :
  col <> field -> write_field validate value field x !! col = x !! col.
Proof.
  intros Hne. unfold write_field.
  destruct (present value) as [raw|]; [|reflexivity].
  destruct (validate raw) as [[] clean]; [|reflexivity].
  apply lookup_insert_ne. congruence.
Qed.

Ltac other_writes :=
  repeat first [ rewrite write_field_other by discriminate
               | rewrite lookup_insert_ne by discriminate ].

Lemma candidate_writes_outside c x col :
  col ∉ written_columns -> candidate_writes validator today c x !! col = x !! col.
Proof.
  intros Hcol.
  assert (Hne : forall w, w ∈ written_columns -> col <> w).
  { intros w Hw ->. exact (Hcol Hw). }
  unfold candidate_writes. cbv zeta.
  destruct (psychologists c) as [|first_psych others].
  - rewrite lookup_insert_ne
      by (intros E; symmetry in E; revert E; apply Hne; unfold written_columns; in_list).
    rewrite lookup_insert_ne
      by (intros E; symmetry in E; revert E; apply Hne; unfold written_columns; in_list).
    rewrite !write_field_other by (apply Hne; unfold written_columns; in_list).
    reflexivity.
  - rewrite write_field_other by (apply Hne; unfold written_columns; in_list).
    destruct (present (psy_name first_psych)) as [name|].
    + rewrite lookup_insert_ne
        by (intros E; symmetry in E; revert E; apply Hne; unfold written_columns; in_list).
      rewrite lookup_insert_ne
        by (intros E; symmetry in E; revert E; apply Hne; unfold written_columns; in_list).
      rewrite !write_field_other by (apply Hne; unfold written_columns; in_list).
      reflexivity.
    + rewrite lookup_insert_ne
        by (intros E; symmetry in E; revert E; apply Hne; unfold written_columns; in_list).
      rewrite !write_field_other by (apply Hne; unfold written_columns; in_list).
      reflexivity.
Qed.

Lemma candidate_writes_practice_fields c x :
  let y := candidate_writes validator today c x in
  y !! "Email" = field_after (v_email validator) (email c) (x !! "Email")
  /\ y !! "Doctors" = field_after (v_url validator) (doctor_page_url c) (x !! "Doctors")
  /\ y !! "Initial Consult"
     = field_after (v_price validator) (initial_consult c) (x !! "Initial Consult")
  /\ y !! "Follow-up Consult"
     = field_after (v_price validator) (followup_consult c) (x !! "Follow-up Consult")
  /\ y !! "Date" = Some (Text today).
Proof.
  cbv zeta. unfold candidate_writes. cbv zeta.
  destruct (psychologists c) as [|first_psych others];
    [|destruct (present (psy_name first_psych)) as [name|]];
    (split; [|split; [|split; [|split]]]);
    other_writes;
    first [ apply lookup_insert_eq
          | rewrite write_field_lookup; other_writes; reflexivity ].
Qed.

Lemma candidate_writes_staff_fields c x :
  let y := candidate_writes validator today c x in
  match psychologists c with
  | [] =>
      y !! "Notes" = Some (Text "No psychologists found")
      /\ y !! "Name" = x !! "Name" /\ y !! "Type" = x !! "Type"
  | first_psych :: _ =>
      y !! "Notes" = x !! "Notes"
      /\ y !! "Name" = match present (psy_name first_psych) with
                       | Some name => Some (Text name)
                       | None => x !! "Name"
                       end
      /\ y !! "Type" = field_after (v_psychologist_type validator)
                                   (psy_type first_psych) (x !! "Type")
  end.
Proof.
  cbv zeta. unfold candidate_writes. cbv zeta.
  destruct (psychologists c) as [|first_psych others].
  - split; [apply lookup_insert_eq|]. split; other_writes; reflexivity.
  - destruct (present (psy_name first_psych)) as [name|].
    + split; [other_writes; reflexivity|]. split.
      * other_writes. apply lookup_insert_eq.
      * rewrite write_field_lookup. other_writes. reflexivity.
    + split; [other_writes; reflexivity|]. split.
      * other_writes. reflexivity.
      * rewrite write_field_lookup. other_writes. reflexivity.
Qed.

Lemma copied_row_outside c r col :
  col ∉ written_columns ->
  copied_row validator today row_is_view c r !! col = r !! col.
Proof.
  intros Hcol. unfold copied_row. case row_is_view; [|reflexivity].
  apply candidate_writes_outside, Hcol.
Qed.

Lemma clone_row_other r c psych col :
  col ∉ ["Name"; "Type"; "Doctors"; "Email"; "Date"] ->
  clone_row validator today r c psych !! col = r !! col.
Proof.
  intros Hcol. unfold clone_row. cbv zeta.
  rewrite lookup_insert_ne by (intros <-; set_solver).
  repeat match goal with
  | |- context [match present ?o with _ => _ end] => destruct (present o)
  | |- context [let '(_, _) := ?v in _] => destruct v as [[] ?]
  end;
  rewrite ?lookup_insert_ne by (intros <-; set_solver); done.
Qed.

Lemma clone_row_email r c psych e clean :
  present (email c) = Some e -> v_email validator e = (true, clean) ->
  clone_row validator today r c psych !! "Email" = Some (Text clean).
Proof.
  intros He Hv. unfold clone_row. cbv zeta. rewrite He, Hv.
  rewrite lookup_insert_ne by done. by rewrite lookup_insert_eq.
Qed.

Lemma clone_row_doctors r c psych url clean :
  present (doctor_page_url c) = Some url -> v_url validator url = (true, clean) ->
  clone_row validator today r c psych !! "Doctors" = Some (Text clean).
Proof.
  intros Hu Hv. unfold clone_row. cbv zeta. rewrite Hu, Hv.
  rewrite lookup_insert_ne by done.
  destruct (present (email c)) as [e|].
  - destruct (v_email validator e) as [[] ?];
      rewrite ?lookup_insert_ne by done; by rewrite lookup_insert_eq.
  - by rewrite lookup_insert_eq.
Qed.

Lemma clone_row_date r c psych :
  clone_row validator today r c psych !! "Date" = Some (Text today).
Proof. unfold clone_row. cbv zeta. apply lookup_insert_eq. Qed.

Lemma clone_row_type r c psych t clean :
  present (psy_type psych) = Some t ->
  v_psychologist_type validator t = (true, clean) ->
  clone_row validator today r c psych !! "Type" = Some (Text clean).
Proof.
  intros Ht Hv. unfold clone_row. cbv zeta. rewrite Ht, Hv.
  rewrite lookup_insert_ne by discriminate.
  repeat match goal with
  | |- context [match present ?o with _ => _ end] => destruct (present o)
  | |- context [let '(_, _) := ?v in _] => destruct v as [[] ?]
  end;
  rewrite ?lookup_insert_ne by discriminate; apply lookup_insert_eq.
Qed.

Lemma clone_row_name r c psych name :
  present (psy_name psych) = Some name ->
  clone_row validator today r c psych !! "Name" = Some (Text name).
Proof.
  intros Hn. unfold clone_row. cbv zeta. rewrite Hn.
  rewrite lookup_insert_ne by discriminate.
  repeat match goal with
  | |- context [match present ?o with _ => _ end] => destruct (present o)
  | |- context [let '(_, _) := ?v in _] => destruct v as [[] ?]
  end;
  rewrite ?lookup_insert_ne by discriminate; apply lookup_insert_eq.
Qed.

(** The result, in terms of the loop run on the table it starts from. *)
Lemma format_data_for_excel_result df ex :
  "Practice" ∈ columns df ->
  exists u n d,
    format_data_for_excel validator today row_is_view df ex = Some (u, n, d)
    /\ rows u = updated_df (process_rows validator today row_is_view ex 0 (snapshot validator df)
                                         (State (snapshot validator df) [] []))
    /\ n = new_rows (process_rows validator today row_is_view ex 0 (snapshot validator df)
                                  (State (snapshot validator df) [] [])).
Proof.
  intros H. unfold format_data_for_excel, snapshot.
  rewrite bool_decide_eq_true_2 by exact H.
  eexists _, _, _. split; [reflexivity|]. split; reflexivity.
Qed.

(** The new rows are the expansions of the rows the loop starts from. *)
Lemma format_data_for_excel_new_rows df ex :
  "Practice" ∈ columns df ->
  exists u n d,
    format_data_for_excel validator today row_is_view df ex = Some (u, n, d)
    /\ n = flat_map (expansion validator today row_is_view ex) (snapshot validator df).
Proof.
  intros Hp.
  destruct (format_data_for_excel_result df ex Hp) as (u & n & d & Hres & _ & Hn).
  exists u, n, d. split; [exact Hres|].
  destruct (process_rows_frame ex (snapshot validator df) 0
              (State (snapshot validator df) [] []))
    as (_ & _ & _ & Hnew).
  revert Hn Hnew. generalize (snapshot validator df). intros snap.
  generalize (process_rows validator today row_is_view ex 0 snap (State snap [] [])).
  intros st' Hn Hnew. cbn [new_rows updated_df drop] in Hnew.
  rewrite Hn, (Hnew eq_refl). apply app_nil_l.
Qed.

Lemma candidate_for_snapshot ex r r' :
  r' !! "Practice" = r !! "Practice" -> candidate_for ex r' = candidate_for ex r.
Proof. intros H. unfold candidate_for. by rewrite (lookup_practice_ext ex r r'). Qed.

(** The expansion of a row, by its candidate. *)
Lemma expansion_of_candidate ex r :
  expansion validator today row_is_view ex r
  = match candidate_for ex r with
    | Some (PData c) =>
        map (clone_row validator today
               (copied_row validator today row_is_view c r) c)
            (tail (psychologists c))
    | _ => []
    end.
Proof.
  unfold expansion, candidate_for.
  destruct (lookup_practice ex r) as [e|]; [|reflexivity].
  cbn [fmap option_fmap option_map]. destruct (first_item e); reflexivity.
Qed.

Lemma lookup_tail {A} (l : list A) (j : nat) : tail l !! j = l !! S j.
Proof. destruct l; reflexivity. Qed.

(** C10: reconciliation returns a table with as many rows as the input and
    the same Practice value at every position.  The new rows are returned
    apart, as one block per row of the table, in row order: the block of a
    row whose candidate lists staff holds one row per psychologist after the
    first, in the order of the list, each with the Practice of the row,
    today's date and the name and category of its psychologist (where these
    are present and valid); the block of any other row is empty. *)
Theorem reconcile_keeps_rows df ex :
  "Practice" ∈ columns df ->
  exists u n d blocks,
    format_data_for_excel validator today row_is_view df ex = Some (u, n, d)
    /\ length (rows u) = length (rows df)
    /\ map (fun r : row => r !! "Practice") (rows u)
       = map (fun r : row => r !! "Practice") (rows df)
    /\ n = concat blocks
    /\ length blocks = length (rows df)
    /\ forall i r block,
         rows df !! i = Some r -> blocks !! i = Some block ->
         match candidate_for ex r with
         | Some (PData c) =>
             length block = length (psychologists c) - 1
             /\ forall j psych new_row,
                  psychologists c !! S j = Some psych ->
                  block !! j = Some new_row ->
                  new_row !! "Practice" = r !! "Practice"
                  /\ new_row !! "Date" = Some (Text today)
                  /\ (forall name,
                        present (psy_name psych) = Some name ->
                        new_row !! "Name" = Some (Text name))
                  /\ (forall t clean,
                        present (psy_type psych) = Some t ->
                        v_psychologist_type validator t = (true, clean) ->
                        new_row !! "Type" = Some (Text clean))
         | _ => block = []
         end.
Proof.
  intros Hp.
  destruct (format_data_for_excel_result df ex Hp) as (u & n & d & Hres & Hu & Hn).
  exists u, n, d,
    (map (expansion validator today row_is_view ex) (snapshot validator df)).
  split; [exact Hres|].
  destruct (process_rows_frame ex (snapshot validator df) 0
              (State (snapshot validator df) [] []))
    as (Hlen & _ & Hkeep & Hnew).
  destruct (snapshot_spec df) as (Hslen & Hsrows).
  revert Hu Hn Hlen Hkeep Hnew Hslen Hsrows.
  generalize (snapshot validator df). intros snap.
  generalize (process_rows validator today row_is_view ex 0 snap (State snap [] [])).
  intros st' Hu Hn Hlen Hkeep Hnew Hslen Hsrows.
  cbn [updated_df new_rows drop] in Hlen, Hkeep, Hnew.
  rewrite Hu. split; [congruence|]. split; [|split; [|split]].
  - apply list_eq. intros i. rewrite !lookup_map.
    destruct (rows df !! i) as [r|] eqn:Hr.
    + destruct (Hsrows i r Hr) as (r' & Hr' & Hsame & _).
      destruct (Hkeep i r' Hr') as (y & Hy & Hyr). rewrite Hy. cbn.
      rewrite Hyr by (unfold written_columns; not_in_list).
      rewrite Hsame; [reflexivity| |discriminate].
      right. apply practice_not_required.
    + apply lookup_ge_None in Hr.
      rewrite (proj2 (lookup_ge_None _ i)); [reflexivity|].
      rewrite Hlen, Hslen. exact Hr.
  - rewrite Hn, (Hnew eq_refl). cbn [app]. apply flat_map_concat_map.
  - rewrite length_map. exact Hslen.
  - intros i r block Hr Hblock.
    destruct (Hsrows i r Hr) as (r' & Hr' & Hsame & _).
    rewrite lookup_map, Hr' in Hblock. cbn [fmap option_fmap option_map] in Hblock.
    injection Hblock as <-.
    assert (Hprac : r' !! "Practice" = r !! "Practice").
    { apply Hsame; [|discriminate]. right. apply practice_not_required. }
    rewrite expansion_of_candidate, (candidate_for_snapshot ex r r' Hprac).
    destruct (candidate_for ex r) as [[message|c]|]; [reflexivity| |reflexivity].
    split.
    + rewrite length_map. destruct (psychologists c); cbn [tail length]; lia.
    + intros j psych new_row Hpsych Hnew_row.
      rewrite lookup_map, lookup_tail, Hpsych in Hnew_row.
      cbn [fmap option_fmap option_map] in Hnew_row. injection Hnew_row as <-.
      split; [|split; [|split]].
      * rewrite clone_row_other by not_in_list.
        rewrite copied_row_outside by (unfold written_columns; not_in_list).
        exact Hprac.
      * apply clone_row_date.
      * intros name Hname. exact (clone_row_name _ c psych name Hname).
      * intros t clean Ht Hv. exact (clone_row_type _ c psych t clean Ht Hv).
Qed.

(** C6 (amended): a row without a matching candidate, or whose candidate is
    an error, keeps every column of the table other than Phone and Notes;
    Phone holds what the phone-formatting pass leaves; Notes is unchanged
    when there is no candidate and holds the error text when the candidate is
    an error. *)
Theorem reconcile_unmatched_or_failed df ex i r :
  "Practice" ∈ columns df ->
  rows df !! i = Some r ->
  (candidate_for ex r = None
   \/ exists message, candidate_for ex r = Some (PError message)) ->
  exists u n d y,
    format_data_for_excel validator today row_is_view df ex = Some (u, n, d)
    /\ rows u !! i = Some y
    /\ (forall col, col ∈ columns df -> col <> "Phone" -> col <> "Notes" ->
                    y !! col = r !! col)
    /\ ("Phone" ∈ columns df -> y !! "Phone" = format_phone validator r !! "Phone")
    /\ (candidate_for ex r = None -> "Notes" ∈ columns df ->
        y !! "Notes" = r !! "Notes")
    /\ (forall message, candidate_for ex r = Some (PError message) ->
          y !! "Notes" = Some (Text ("Extraction error: " +++ message))).
Proof.
  intros Hp Hr Hcase.
  destruct (format_data_for_excel_result df ex Hp) as (u & n & d & Hres & Hu & _).
  destruct (snapshot_spec df) as (_ & Hsrows).
  destruct (Hsrows i r Hr) as (r' & Hr' & Hsame & Hphone & _). clear Hsrows.
  revert Hu Hr'. generalize (snapshot validator df). intros snap Hu Hr'.
  destruct (process_rows_at ex snap 0 (State snap [] []) i r' Hr')
    as (st_i & Hst & Hfinal).
  cbn [updated_df Nat.add] in Hst, Hfinal. rewrite Hr' in Hst. clear Hr'.
  rewrite <- Hu in Hfinal. clear Hu.
  assert (Hprac : r' !! "Practice" = r !! "Practice").
  { apply Hsame; [|discriminate]. right. apply practice_not_required. }
  pose proof (candidate_for_snapshot ex r r' Hprac) as Hcand.
  unfold process_row in Hfinal. rewrite (row_value_here i r' st_i Hst) in Hfinal.
  unfold candidate_for in Hcand, Hcase |- *.
  exists u, n, d.
  destruct Hcase as [Hnone | [message Herr]].
  - rewrite Hnone in Hcand.
    destruct (lookup_practice ex r') as [e|] eqn:Hl; [discriminate Hcand|].
    rewrite Hst in Hfinal.
    exists r'. split; [exact Hres|]. split; [exact Hfinal|].
    split; [|split; [exact Hphone|split]].
    + intros col Hcol Hne _. apply Hsame; [left; exact Hcol | exact Hne].
    + intros _ Hnotes. apply Hsame; [left; exact Hnotes | discriminate].
    + intros message Habs. rewrite Hnone in Habs. discriminate Habs.
  - rewrite Herr in Hcand.
    destruct (lookup_practice ex r') as [e|] eqn:Hl; [|discriminate Hcand].
    injection Hcand as Hitem. rewrite Hitem in Hfinal.
    cbn [process_data set_at updated_df] in Hfinal.
    rewrite list_lookup_alter_eq, Hst in Hfinal. cbn [fmap option_fmap option_map] in Hfinal.
    eexists. split; [exact Hres|]. split; [exact Hfinal|].
    split; [|split; [|split]].
    + intros col Hcol Hne Hnn. rewrite lookup_insert_ne by congruence.
      apply Hsame; [left; exact Hcol | exact Hne].
    + intros Hin. rewrite lookup_insert_ne by discriminate. apply Hphone, Hin.
    + intros Habs. rewrite Herr in Habs. discriminate Habs.
    + intros message' Hm. rewrite Herr in Hm. injection Hm as <-.
      apply lookup_insert_eq.
Qed.

(** C1 (amended): three psychologists against a one-row table give exactly
    two new rows; each carries the row's Address and Website verbatim, the
    row's Phone as the phone-formatting pass leaves it, and the normalized
    email and doctor-page URL of the candidate when these are valid. *)
Theorem expansion_of_three_staff df ex r c :
  "Practice" ∈ columns df ->
  rows df = [r] ->
  candidate_for ex r = Some (PData c) ->
  length (psychologists c) = 3 ->
  exists u n d,
    format_data_for_excel validator today row_is_view df ex = Some (u, n, d)
    /\ length n = 2
    /\ forall new_row, new_row ∈ n ->
         new_row !! "Address" = r !! "Address"
         /\ new_row !! "Website" = r !! "Website"
         /\ ("Phone" ∈ columns df ->
             new_row !! "Phone" = format_phone validator r !! "Phone")
         /\ (forall e clean,
               present (email c) = Some e -> v_email validator e = (true, clean) ->
               new_row !! "Email" = Some (Text clean))
         /\ (forall url clean,
               present (doctor_page_url c) = Some url ->
               v_url validator url = (true, clean) ->
               new_row !! "Doctors" = Some (Text clean)).
Proof.
  intros Hp Hrows Hcand Hthree.
  destruct (format_data_for_excel_new_rows df ex Hp) as (u & n & d & Hres & Hn).
  exists u, n, d. split; [exact Hres|]. clear Hres.
  destruct (snapshot_spec df) as (Hslen & Hsrows).
  rewrite Hrows in Hslen, Hsrows.
  destruct (Hsrows 0 r eq_refl) as (r' & Hr' & Hsame & Hphone & _). clear Hsrows.
  revert Hn Hslen Hr'. generalize (snapshot validator df). intros snap Hn Hslen Hr'.
  destruct snap as [|r0 [|? ?]]; try discriminate Hslen.
  injection Hr' as ->.
  assert (Hprac : r' !! "Practice" = r !! "Practice").
  { apply Hsame; [|discriminate]. right. apply practice_not_required. }
  cbn [flat_map] in Hn. rewrite app_nil_r in Hn.
  rewrite expansion_of_candidate, (candidate_for_snapshot ex r r' Hprac), Hcand in Hn.
  destruct (psychologists c) as [|p1 [|p2 [|p3 [|? ?]]]]; try discriminate Hthree.
  cbn [tail map] in Hn. subst n. split; [reflexivity|].
  intros new_row Hin.
  assert (Hclone : exists p,
             new_row = clone_row validator today
                         (copied_row validator today row_is_view c r') c p).
  { apply elem_of_cons in Hin as [->|Hin]; [eexists; reflexivity|].
    apply list_elem_of_singleton in Hin as ->. eexists; reflexivity. }
  destruct Hclone as [p ->].
  split; [|split; [|split; [|split]]].
  - rewrite clone_row_other by not_in_list.
    rewrite copied_row_outside by (unfold written_columns; not_in_list).
    apply Hsame; [|discriminate].
    right. unfold required_columns. not_in_list.
  - rewrite clone_row_other by not_in_list.
    rewrite copied_row_outside by (unfold written_columns; not_in_list).
    apply Hsame; [|discriminate].
    right. unfold required_columns. not_in_list.
  - intros Hin'. rewrite clone_row_other by not_in_list.
    rewrite copied_row_outside by (unfold written_columns; not_in_list).
    apply Hphone, Hin'.
  - intros e' clean He Hv. exact (clone_row_email _ c p e' clean He Hv).
  - intros url clean Hu Hv. exact (clone_row_doctors _ c p url clean Hu Hv).
Qed.

(** X7: against a text cell, a discrepancy is flagged exactly when the old
    and the new text are both non-empty and differ after trimming. *)
Lemma flag_discrepancies_text (existing : row) (field : string) (old new : str) :
  existing !! field = Some (Text old) ->
  fst (flag_discrepancies existing {[field := Text new]} field) = true
  <-> old <> [] /\ new <> [] /\ Str.strip old <> Str.strip new.
Proof.
  intros Hold. unfold flag_discrepancies. rewrite Hold, lookup_singleton_eq.
  cbn [Cell.truthy Cell.to_str]. unfold str_eqb.
  destruct old, new; cbn [Str.truthy negb orb fst]; try (split; [done|tauto]).
  case_bool_decide as Heq; cbn [negb fst].
  - split; [done|]. tauto.
  - split; [|done]. intros _. repeat split; done.
Qed.

Lemma flag_discrepancies_absent (existing : row) (field : string) (new : cell) :
  existing !! field = None ->
  flag_discrepancies existing {[field := new]} field = (false, []).
Proof. intros H. unfold flag_discrepancies. by rewrite H. Qed.
End Reconcile.


Lemma reconcile_keeps_rows_witness :
  exists u n d,
    DataFormatter.format_data_for_excel default_validator Wisemind.today true
      Wisemind.df Wisemind.extracted_data = Some (u, n, d)
    /\ map (fun r : row => r !! "Practice") (rows u)
       = [Some (Text "Wisemind Psychology")]
    /\ map (fun new_row : row => (new_row !! "Practice", new_row !! "Name")) n
       = [(Some (Text "Wisemind Psychology"), Some (Text "Danielle Comerford"));
          (Some (Text "Wisemind Psychology"), Some (Text "Rachel Hannam"))].
Proof.
  destruct (reconcile_keeps_rows default_validator Wisemind.today true Wisemind.df
              Wisemind.extracted_data)
    as (u & n & d & blocks & H & _ & Hprac & Hn & Hlen & Hblocks).
  - unfold Wisemind.df, Wisemind.all_columns, columns. in_list.
  - exists u, n, d. split; [exact H|]. split; [exact Hprac|].
    destruct blocks as [|block [|? ?]]; try discriminate Hlen.
    specialize (Hblocks 0 Wisemind.existing_row block eq_refl eq_refl).
    assert (Hc : candidate_for Wisemind.extracted_data Wisemind.existing_row
                 = Some (PData Wisemind.staff)) by (vm_compute; reflexivity).
    rewrite Hc in Hblocks. destruct Hblocks as [Hblock Hrows].
    destruct block as [|row1 [|row2 [|? ?]]]; try discriminate Hblock.
    destruct (Hrows 0 _ row1 eq_refl eq_refl) as (Hp1 & _ & Hn1 & _).
    destruct (Hrows 1 _ row2 eq_refl eq_refl) as (Hp2 & _ & Hn2 & _).
    rewrite Hn. cbn [concat app map].
    rewrite Hp1, Hp2, (Hn1 _ eq_refl), (Hn2 _ eq_refl). reflexivity.
Defined.

Lemma reconcile_unmatched_or_failed_witness :
  exists u n d y,
    DataFormatter.format_data_for_excel default_validator Wisemind.today true
      Wisemind.df Wisemind.failed = Some (u, n, d)
    /\ rows u !! 0 = Some y
    /\ y !! "Notes" = Some (Text (lit "Extraction error: quota exceeded")).
Proof.
  destruct (reconcile_unmatched_or_failed default_validator Wisemind.today true
              Wisemind.df Wisemind.failed 0 Wisemind.existing_row)
    as (u & n & d & y & H & Hy & _ & _ & _ & Hnotes).
  - unfold Wisemind.df, Wisemind.all_columns, columns. in_list.
  - reflexivity.
  - right. exists (lit "quota exceeded"). vm_compute. reflexivity.
  - exists u, n, d, y. split; [exact H|]. split; [exact Hy|].
    apply (Hnotes (lit "quota exceeded")). vm_compute. reflexivity.
Defined.

(** C6 (as stated, refuted): the row of a practice the extraction does not
    know comes back with another Phone and with the Notes it had: a field
    other than Notes changed, and Notes describes no failure.  This is so
    whether the rows of the loop are views or copies. *)
Lemma unmatched_row_phone_rewritten :
  candidate_for Wisemind.other_practice Wisemind.existing_row = None
  /\ Wisemind.existing_row !! "Phone" = Some (Text "0490193347")
  /\ Wisemind.existing_row !! "Notes" = Some (Text "")
  /\ Forall (fun row_is_view =>
               map (fun y : row => (y !! "Phone", y !! "Notes"))
                   (updated_of (DataFormatter.format_data_for_excel
                                  default_validator Wisemind.today row_is_view
                                  Wisemind.df Wisemind.other_practice))
               = [(Some (Text "0490 193 347"), Some (Text ""))])
            [true; false].
Proof. repeat split; repeat constructor; vm_compute; reflexivity. Qed.

Lemma expansion_of_three_staff_witness :
  exists u n d,
    DataFormatter.format_data_for_excel default_validator Wisemind.today true
      Wisemind.df Wisemind.extracted_data = Some (u, n, d)
    /\ length n = 2.
Proof.
  destruct (expansion_of_three_staff default_validator Wisemind.today true Wisemind.df
              Wisemind.extracted_data Wisemind.existing_row Wisemind.staff)
    as (u & n & d & H & Hl & _).
  - unfold Wisemind.df, Wisemind.all_columns, columns. in_list.
  - reflexivity.
  - vm_compute. reflexivity.
  - reflexivity.
  - exists u, n, d. split; assumption.
Defined.

(** C1 (as stated, refuted): in the repository's own test the two new rows
    carry the phone ["0490 193 347"], not the existing row's
    ["0490193347"], whether the rows of the loop are views or copies. *)
Lemma expansion_phone_not_verbatim :
  rows Wisemind.df = [Wisemind.existing_row]
  /\ length (psychologists Wisemind.staff) = 3
  /\ Wisemind.existing_row !! "Phone" = Some (Text "0490193347")
  /\ Forall (fun row_is_view =>
               map (fun new_row : row => new_row !! "Phone")
                   (new_rows_of (DataFormatter.format_data_for_excel
                                   default_validator Wisemind.today row_is_view
                                   Wisemind.df Wisemind.extracted_data))
               = [Some (Text "0490 193 347"); Some (Text "0490 193 347")])
            [true; false].
Proof. repeat split; repeat constructor; vm_compute; reflexivity. Qed.

(** C2 (the defect): an empty spreadsheet cell is loaded as NaN, NaN is true
    in Python, and [flag_discrepancies] tests the old value with [not] alone
    where the phone pass of the same method asks [pd.notna] first.  Every
    first-time population of such a row is recorded as a discrepancy against
    the text ['nan']. *)
Theorem discrepancy_against_missing_value (row_is_view : bool) :
  Wisemind.loaded_row !! "Email" = Some NaN
  /\ DataFormatter.flag_discrepancies Wisemind.loaded_row
       {["Email" := Text "admin@wisemind.com.au"]} "Email"
     = (true, lit "Discrepancy in Email: 'nan' vs 'admin@wisemind.com.au'")
  /\ discrepancies_of (DataFormatter.format_data_for_excel default_validator
                         Wisemind.today row_is_view Wisemind.loaded_df Wisemind.extracted_data)
     = [(0, lit "Discrepancy in Email: 'nan' vs 'admin@wisemind.com.au'");
        (0, lit "Discrepancy in Doctors: 'nan' vs 'http://www.wisemind.com.au/our-team/'");
        (0, lit "Discrepancy in Initial Consult: 'nan' vs '220'");
        (0, lit "Discrepancy in Follow-up Consult: 'nan' vs '180'");
        (0, lit "Discrepancy in Name: 'nan' vs 'Melissa Madden'");
        (0, lit "Discrepancy in Type: 'nan' vs 'C'")]
  /\ discrepancies_of (DataFormatter.format_data_for_excel default_validator
                         Wisemind.today row_is_view Wisemind.df Wisemind.extracted_data)
     = [].
Proof. destruct row_is_view; repeat split; vm_compute; reflexivity. Qed.

(** ** E-mail addresses *)

Section Email.
Import DataValidator.

(** C4 (amended): the input is trimmed and lower-cased first, and it is
    this form that is matched and returned, with [true] when it has the
    e-mail shape and with [false] when it has not; the empty input gives
    [(false, "")]. *)
Theorem validate_email_returns_normal_form (email : str) :
  (Re.rmatch email_pattern (Str.lower (Str.strip email)) = None ->
   validate_email email = (false, Str.lower (Str.strip email)))
  /\ (Re.rmatch email_pattern (Str.lower (Str.strip email)) <> None ->
      validate_email email = (true, Str.lower (Str.strip email)))
  /\ validate_email [] = (false, []).
Proof.
  split; [|split; [|reflexivity]].
  - intros Hnone. unfold validate_email.
    destruct email as [|c email]; [reflexivity|]. cbn [Str.truthy negb].
    rewrite Hnone. reflexivity.
  - intros Hsome. unfold validate_email.
    destruct email as [|c email]; [exfalso; apply Hsome; reflexivity|].
    cbn [Str.truthy negb].
    destruct (Re.rmatch email_pattern (Str.lower (Str.strip (c :: email))));
      [reflexivity | congruence].
Qed.

End Email.

(** A capital letter and white space around the address, the no-break
    space included; an address without a top-level part. *)
Lemma validate_email_returns_normal_form_witness :
  DataValidator.validate_email
    (ascii_of_N 160 :: lit " Admin@Wisemind.com.au ")
  = (true, lit "admin@wisemind.com.au")
  /\ DataValidator.validate_email "Missing@Domain" = (false, lit "missing@domain").
Proof.
  split.
  - apply (proj1 (proj2 (validate_email_returns_normal_form
                           (ascii_of_N 160 :: lit " Admin@Wisemind.com.au ")))).
    vm_compute. discriminate.
  - apply (proj1 (validate_email_returns_normal_form "Missing@Domain")).
    vm_compute. reflexivity.
Defined.
(** C4 (as stated, refuted): an input without the e-mail shape comes back
    trimmed and lower-cased, not as it was given. *)
Lemma validate_email_invalid_is_rewritten :
  Re.rmatch DataValidator.email_pattern "Not-An-Email " = None
  /\ DataValidator.validate_email "Not-An-Email " = (false, lit "not-an-email")
  /\ DataValidator.validate_email "Not-An-Email " <> (false, lit "Not-An-Email ").
Proof. repeat split; vm_compute; (reflexivity || discriminate). Qed.

(** ** Addresses *)

Section RegexFirst.
Import Re.

Lemma after_text_cons q c w : after_text q (c :: w) = after_text (Some c) w.
Proof.
  unfold after_text. destruct w as [|d w]; [reflexivity|].
  change (last (c :: d :: w)) with (last (d :: w)).
  destruct (last (d :: w)) eqn:E; [reflexivity|].
  apply last_None in E. discriminate E.
Qed.

Lemma first_seq a b st st1 st2 :
  first a st = Some st1 -> first b st1 = Some st2 -> first (Seq a b) st = Some st2.
Proof.
  unfold first. cbn [run]. intros Ha Hb.
  destruct (run a st) as [|x l]; [discriminate Ha|]. injection Ha as ->.
  cbn [flat_map]. destruct (run b st1) as [|y l']; [discriminate Hb|].
  injection Hb as ->. reflexivity.
Qed.

Lemma first_alt_l a b st st1 :
  first a st = Some st1 -> first (Alt a b) st = Some st1.
Proof.
  unfold first. cbn [run]. intros Ha.
  destruct (run a st) as [|x l]; [discriminate Ha|]. exact Ha.
Qed.

Lemma first_alt_r a b st :
  run a st = [] -> first (Alt a b) st = first b st.
Proof. unfold first. cbn [run]. intros ->. reflexivity. Qed.

Lemma first_group i a st st1 :
  first a st = Some st1 -> first (Group i a) st = Some (capture i st st1).
Proof.
  unfold first. cbn [run]. intros Ha.
  destruct (run a st) as [|x l]; [discriminate Ha|]. injection Ha as ->. reflexivity.
Qed.

Lemma first_chr p q c s g :
  p c = true ->
  first (Chr p) (MState q (c :: s) g) = Some (MState (Some c) s g).
Proof. intros Hp. unfold first. cbn. rewrite Hp. reflexivity. Qed.

Lemma run_chr_fail p q s g :
  match s with [] => True | c :: _ => p c = false end ->
  run (Chr p) (MState q s g) = [].
Proof. destruct s as [|c s]; cbn; [reflexivity|]. intros ->. reflexivity. Qed.

(** A greedy star of a character class reads the whole run of the class. *)
Lemma step_hit p q c s g :
  p c = true -> step p (MState q (c :: s) g) = [MState (Some c) s g].
Proof. intros Hp. unfold step. cbn. rewrite Hp. reflexivity. Qed.

Lemma step_miss p q s g :
  match s with [] => True | c :: _ => p c = false end ->
  step p (MState q s g) = [].
Proof. destruct s as [|c s]; cbn; [reflexivity|]. intros ->. reflexivity. Qed.

Lemma star_loop_chr p : forall w n q s g,
  Forall (fun c => p c = true) w ->
  match s with [] => True | c :: _ => p c = false end ->
  length (w ++ s) <= n ->
  head (star_loop (step p) n (MState q (w ++ s) g))
  = Some (MState (after_text q w) s g).
Proof.
  induction w as [|x w IH]; intros n q s g Hw Hs Hn.
  - cbn [app]. destruct n as [|n]; [reflexivity|].
    cbn [star_loop]. rewrite step_miss by exact Hs. reflexivity.
  - destruct n as [|n]; [cbn in Hn; lia|].
    apply Forall_cons in Hw as [Hx Hw].
    cbn [star_loop app]. rewrite step_hit by exact Hx.
    cbn [flat_map rest length].
    rewrite (proj2 (Nat.ltb_lt _ _)) by lia.
    rewrite app_nil_r.
    specialize (IH n (Some x) s g Hw Hs ltac:(cbn in Hn; lia)).
    destruct (star_loop (step p) n (MState (Some x) (w ++ s) g)) as [|y l];
      [discriminate IH|].
    cbn. injection IH as ->. rewrite after_text_cons. reflexivity.
Qed.

Lemma first_star_chr p w q s g :
  Forall (fun c => p c = true) w ->
  match s with [] => True | c :: _ => p c = false end ->
  first (Star (Chr p)) (MState q (w ++ s) g) = Some (MState (after_text q w) s g).
Proof.
  intros Hw Hs. unfold first. cbn [run rest].
  change (fun st : mstate => step p st) with (step p).
  apply star_loop_chr; auto.
Qed.

Lemma first_plus_chr p w q s g :
  w <> [] ->
  Forall (fun c => p c = true) w ->
  match s with [] => True | c :: _ => p c = false end ->
  first (Plus (Chr p)) (MState q (w ++ s) g) = Some (MState (after_text q w) s g).
Proof.
  intros Hne Hw Hs. destruct w as [|x w]; [congruence|].
  apply Forall_cons in Hw as [Hx Hw].
  unfold Plus. eapply first_seq.
  - cbn [app]. apply first_chr. exact Hx.
  - rewrite after_text_cons. apply first_star_chr; assumption.
Qed.
End RegexFirst.

Section UnitPattern.
Import Re DataValidator.

Lemma take_consumed (w s : str) : take (length (w ++ s) - length s) (w ++ s) = w.
Proof.
  rewrite length_app. replace (length w + length s - length s) with (length w) by lia.
  apply take_app_length.
Qed.

Lemma match_at_first r st st' :
  first r st = Some st' -> match_at r st = Some (mk_obj st st').
Proof.
  unfold first, match_at. destruct (run r st) as [|x l]; [discriminate|].
  intros [= ->]. reflexivity.
Qed.

Lemma digit_not_alpha c : Char.is_digit c = true -> Char.is_alpha c = false.
Proof.
  destruct c as [[] [] [] [] [] [] [] []]; vm_compute; congruence.
Qed.

Lemma space_not_digit c : Char.is_space c = true -> Char.is_digit c = false.
Proof.
  destruct c as [[] [] [] [] [] [] [] []]; vm_compute; congruence.
Qed.

Lemma space_not_alpha c : Char.is_space c = true -> Char.is_alpha c = false.
Proof.
  destruct c as [[] [] [] [] [] [] [] []]; vm_compute; congruence.
Qed.

Lemma alpha_not_digit c : Char.is_alpha c = true -> Char.is_digit c = false.
Proof.
  destruct c as [[] [] [] [] [] [] [] []]; vm_compute; congruence.
Qed.

Lemma digit_not_space c : Char.is_digit c = true -> Char.is_space c = false.
Proof.
  destruct c as [[] [] [] [] [] [] [] []]; vm_compute; congruence.
Qed.
End UnitPattern.

Section Reads.
Import Re.

Lemma reads_eps s : reads Eps [] s id.
Proof. intros q g. exists q. reflexivity. Qed.

Lemma reads_chr p c s : p c = true -> reads (Chr p) [c] s id.
Proof. intros Hp q g. eexists. apply first_chr. exact Hp. Qed.

Lemma reads_star_chr p w s :
  Forall (fun c => p c = true) w -> stops p s -> reads (Star (Chr p)) w s id.
Proof. intros Hw Hs q g. eexists. apply first_star_chr; assumption. Qed.

Lemma reads_plus_chr p w s :
  w <> [] -> Forall (fun c => p c = true) w -> stops p s ->
  reads (Plus (Chr p)) w s id.
Proof. intros Hne Hw Hs q g. eexists. apply first_plus_chr; assumption. Qed.

Lemma reads_seq a b w1 w2 s f1 f2 :
  reads a w1 (w2 ++ s) f1 -> reads b w2 s f2 ->
  reads (Seq a b) (w1 ++ w2) s (fun g => f2 (f1 g)).
Proof.
  intros Ha Hb q g. destruct (Ha q g) as [q1 H1]. destruct (Hb q1 (f1 g)) as [q2 H2].
  exists q2. rewrite <- app_assoc. eapply first_seq; eassumption.
Qed.

Lemma reads_alt_l a b w s f : reads a w s f -> reads (Alt a b) w s f.
Proof. intros Ha q g. destruct (Ha q g) as [q1 H1]. exists q1. apply first_alt_l, H1. Qed.

Lemma reads_alt_r a b w s f :
  (forall q g, run a (MState q (w ++ s) g) = []) -> reads b w s f ->
  reads (Alt a b) w s f.
Proof.
  intros Ha Hb q g. destruct (Hb q g) as [q1 H1]. exists q1.
  rewrite first_alt_r; [exact H1 | apply Ha].
Qed.

Lemma reads_group i a w s f :
  reads a w s f -> reads (Group i a) w s (fun g => (i, w) :: f g).
Proof.
  intros Ha q g. destruct (Ha q g) as [q1 H1]. exists q1.
  rewrite (first_group i a _ _ H1). unfold capture. cbn [rest prev caps].
  rewrite take_consumed. reflexivity.
Qed.

Lemma reads_eol : reads Eol [] [] id.
Proof. intros q g. exists q. reflexivity. Qed.

(** [re.match] with a pattern that starts with [^]. *)
Lemma rmatch_reads r w f :
  reads r w [] f ->
  exists m, rmatch (Seq Bol r) w = Some m /\ groups m = f [] /\ whole m = w.
Proof.
  intros Hr. destruct (Hr None []) as [q' H]. rewrite app_nil_r in H.
  eexists. split; [|split].
  - unfold rmatch. apply match_at_first. eapply first_seq; [reflexivity | exact H].
  - reflexivity.
  - unfold mk_obj. cbn [whole rest]. rewrite Nat.sub_0_r. apply firstn_all.
Qed.
End Reads.

Section UnitMatch.
Import Re DataValidator.

Lemma slash_not_alnum c :
  chars "/\" c = true ->
  existsb (fun p : ascii -> bool => p c) [Char.is_digit; Char.is_alpha] = false.
Proof.
  destruct c as [[] [] [] [] [] [] [] []]; vm_compute; congruence.
Qed.

Lemma digit_not_U c : Char.is_digit c = true -> Char.eqb "U" c = false.
Proof.
  destruct c as [[] [] [] [] [] [] [] []]; vm_compute; congruence.
Qed.

Lemma run_seq_fail a b st : run a st = [] -> run (Seq a b) st = [].
Proof. intros H. cbn [run]. rewrite H. reflexivity. Qed.

Lemma run_chr_miss p q s g : stops p s -> run (Chr p) (MState q s g) = [].
Proof. intros H. cbn [run]. apply step_miss, H. Qed.

Lemma reads_lit_unit s : reads (Lit "Unit") "Unit" s id.
Proof. intros q g. eexists. cbn. reflexivity. Qed.

Lemma optional_letter_alnum ud ul :
  Forall (fun c => Char.is_digit c = true) ud -> optional_letter ul ->
  Forall (fun c => existsb (fun p : ascii -> bool => p c)
                           [Char.is_digit; Char.is_alpha] = true) (ud ++ ul).
Proof.
  intros Hd Hl. apply Forall_app. split.
  - eapply Forall_impl; [exact Hd|]. intros c Hc. cbn. rewrite Hc. reflexivity.
  - destruct Hl as [-> | (c & -> & Hc)]; [constructor|].
    constructor; [|constructor]. cbn. rewrite Hc. apply orb_true_r.
Qed.

Lemma unit_pattern_body : unit_pattern = Seq Bol unit_body.
Proof. reflexivity. Qed.

Lemma reads_unit_body pre ud ul sl nd nl ws core :
  pre = [] \/ pre = lit "Unit " ->
  ud <> [] -> Forall (fun c => Char.is_digit c = true) ud -> optional_letter ul ->
  chars "/\" sl = true ->
  nd <> [] -> Forall (fun c => Char.is_digit c = true) nd -> optional_letter nl ->
  ws <> [] -> Forall (fun c => Char.is_space c = true) ws ->
  starts_unspaced core -> no_newline core ->
  exists f,
    reads unit_body
          ((pre ++ (ud ++ ul) ++ [sl]) ++ (nd ++ nl) ++ ws ++ core ++ []) [] f
    /\ f [] = [(3, core); (2, nd ++ nl); (1, pre ++ (ud ++ ul) ++ [sl])].
Proof.
  intros Hpre Hud Hudd Hul Hsl Hnd Hndd Hnl Hws Hwss Hcore Hnn.
  destruct ud as [|d ud']; [congruence|]. pose proof (Forall_inv Hudd) as Hd.
  destruct ws as [|w0 ws']; [congruence|]. pose proof (Forall_inv Hwss) as Hw0.
  destruct core as [|c0 core']; [destruct Hcore|]. cbn in Hcore.
  eexists. split.
  - unfold unit_body.
    apply reads_seq; [apply reads_group| apply reads_seq;
      [apply reads_group | apply reads_seq; [| apply reads_seq;
        [apply reads_group | apply reads_eol]]]].
    + (* group 1 *)
      apply reads_seq; [| apply reads_seq].
      * destruct Hpre as [-> | ->].
        -- apply reads_alt_r; [|apply reads_eps].
           intros q g. apply run_seq_fail.
           change (Lit "Unit") with (Seq (Chr (Char.eqb "U")) (Lit "nit")).
           apply run_seq_fail, run_chr_miss. cbn. apply digit_not_U, Hd.
        -- apply reads_alt_l.
           change (lit "Unit ") with (lit "Unit" ++ lit " ").
           apply reads_seq; [apply reads_lit_unit|].
           apply reads_plus_chr; [discriminate | repeat constructor |].
           cbn. apply digit_not_space, Hd.
      * apply reads_plus_chr.
        -- discriminate.
        -- apply optional_letter_alnum; assumption.
        -- cbn. apply slash_not_alnum, Hsl.
      * apply reads_chr. exact Hsl.
    + (* group 2 *)
      apply reads_seq.
      * apply reads_plus_chr; [exact Hnd | exact Hndd |].
        destruct Hnl as [-> | (c & -> & Hc)]; cbn.
        -- apply space_not_digit, Hw0.
        -- apply alpha_not_digit, Hc.
      * destruct Hnl as [-> | (c & -> & Hc)].
        -- apply reads_alt_r; [|apply reads_eps].
           intros q g. apply run_chr_miss. cbn. apply space_not_alpha, Hw0.
        -- apply reads_alt_l. apply reads_chr. exact Hc.
    + (* the white space *)
      apply reads_plus_chr; [discriminate | exact Hwss |]. cbn. exact Hcore.
    + (* group 3 *)
      apply reads_plus_chr; [discriminate | exact Hnn | exact I].
  - reflexivity.
Qed.
End UnitMatch.

Section Abstract.
Import Re.

Lemma all_chars_complete c : In c all_chars.
Proof.
  unfold all_chars. apply in_map_iff. exists (nat_of_ascii c). split.
  - apply ascii_nat_embedding.
  - apply in_seq. pose proof (nat_ascii_bounded c). lia.
Qed.

Lemma only_spaces_spec p c : only_spaces p = true -> p c = true -> Char.is_space c = true.
Proof.
  unfold only_spaces. rewrite forallb_forall. intros H Hp.
  specialize (H c (all_chars_complete c)). rewrite Hp in H. exact H.
Qed.

Lemma count_spaces_app a b : count_spaces (a ++ b) = count_spaces a + count_spaces b.
Proof. unfold count_spaces. rewrite List.filter_app, length_app. reflexivity. Qed.

Lemma read_by_weaken (P Q : ascii -> bool) w :
  (forall c, P c = true -> Q c = true) ->
  Forall (fun c => P c = true) w -> Forall (fun c => Q c = true) w.
Proof. intros H F. eapply Forall_impl; [exact F | exact H]. Qed.

Lemma star_loop_read body (a : re) :
  (forall st st', In st' (body st) -> read_by a st st') ->
  forall n st st', In st' (star_loop body n st) ->
    exists w, rest st = w ++ rest st' /\ Forall (fun c => may_read a c = true) w.
Proof.
  intros Hbody. induction n as [|n IH]; intros st st' Hin; cbn [star_loop] in Hin.
  - destruct Hin as [<- | []]. exists []. split; [reflexivity | constructor].
  - apply in_app_iff in Hin as [Hin | [<- | []]].
    + apply in_flat_map in Hin as (m & Hm & Hin).
      destruct (length (rest m) <? length (rest st))%nat; [|destruct Hin].
      destruct (Hbody st m Hm) as (w1 & E1 & F1 & _).
      destruct (IH m st' Hin) as (w2 & E2 & F2).
      exists (w1 ++ w2). split.
      * rewrite E1, E2, app_assoc. reflexivity.
      * apply Forall_app. split; assumption.
    + exists []. split; [reflexivity | constructor].
Qed.

Lemma run_read_by r : forall st st', In st' (run r st) -> read_by r st st'.
Proof.
  induction r as [|p|a IHa b IHb|a IHa b IHb|a IHa|i a IHa| | |];
    intros st st' Hin; cbn [run] in Hin.
  - destruct Hin as [<- | []]. exists []. split; [reflexivity|]. split; [constructor | cbn; lia].
  - unfold step in Hin. destruct (rest st) as [|c s] eqn:E; [destruct Hin|].
    destruct (p c) eqn:Hp; [|destruct Hin]. destruct Hin as [<- | []].
    exists [c]. cbn [rest app]. split; [exact E|]. split.
    + constructor; [exact Hp | constructor].
    + cbn [min_spaces]. destruct (only_spaces p) eqn:Ho; [|lia].
      unfold count_spaces. cbn. rewrite (only_spaces_spec p c Ho Hp). cbn. lia.
  - apply in_flat_map in Hin as (m & Hm & Hin).
    destruct (IHa st m Hm) as (w1 & E1 & F1 & C1).
    destruct (IHb m st' Hin) as (w2 & E2 & F2 & C2).
    exists (w1 ++ w2). split; [rewrite E1, E2, app_assoc; reflexivity|]. split.
    + apply Forall_app. split.
      * eapply read_by_weaken; [|exact F1]. intros c Hc. cbn. rewrite Hc. reflexivity.
      * eapply read_by_weaken; [|exact F2]. intros c Hc. cbn. rewrite Hc.
        apply orb_true_r.
    + cbn [min_spaces]. rewrite count_spaces_app. lia.
  - apply in_app_iff in Hin as [Hin | Hin].
    + destruct (IHa st st' Hin) as (w & E & F & C). exists w. split; [exact E|]. split.
      * eapply read_by_weaken; [|exact F]. intros c Hc. cbn. rewrite Hc. reflexivity.
      * cbn [min_spaces]. lia.
    + destruct (IHb st st' Hin) as (w & E & F & C). exists w. split; [exact E|]. split.
      * eapply read_by_weaken; [|exact F]. intros c Hc. cbn. rewrite Hc.
        apply orb_true_r.
      * cbn [min_spaces]. lia.
  - destruct (star_loop_read (run a) a IHa _ _ _ Hin) as (w & E & F).
    exists w. split; [exact E|]. split; [exact F | cbn; lia].
  - apply in_map_iff in Hin as (m & <- & Hm).
    destruct (IHa st m Hm) as (w & E & F & C). exists w. cbn [capture rest].
    split; [exact E|]. split; [exact F | exact C].
  - destruct (prev st); [destruct Hin|]. destruct Hin as [<- | []].
    exists []. split; [reflexivity|]. split; [constructor | cbn; lia].
  - assert (st' = st) as ->.
    { destruct (rest st) as [|c [|? ?]]; [| |destruct Hin].
      - destruct Hin as [<- | []]. reflexivity.
      - destruct (Char.eqb c Char.newline); [|destruct Hin].
        destruct Hin as [<- | []]. reflexivity. }
    exists []. split; [reflexivity|]. split; [constructor | cbn; lia].
  - destruct (xorb _ _); [|destruct Hin]. destruct Hin as [<- | []].
    exists []. split; [reflexivity|]. split; [constructor | cbn; lia].
Qed.

Lemma run_ends_at_eol r : forall st st',
  ends_at_eol r = true -> In st' (run r st) ->
  rest st' = [] \/ rest st' = [Char.newline].
Proof.
  induction r as [|p|a IHa b IHb|a IHa b IHb|a IHa|i a IHa| | |];
    intros st st' He Hin; cbn [ends_at_eol] in He; try discriminate He;
    cbn [run] in Hin.
  - apply in_flat_map in Hin as (m & _ & Hin). exact (IHb m st' He Hin).
  - apply andb_true_iff in He as [He1 He2].
    apply in_app_iff in Hin as [Hin | Hin]; eauto.
  - apply in_map_iff in Hin as (m & <- & Hm). cbn [capture rest]. eauto.
  - destruct (rest st) as [|c [|? ?]] eqn:E; [| |destruct Hin].
    + destruct Hin as [<- | []]. left. exact E.
    + destruct (Char.eqb c Char.newline) eqn:Hc; [|destruct Hin].
      destruct Hin as [<- | []]. right. rewrite E.
      apply Ascii.eqb_eq in Hc. rewrite Hc. reflexivity.
Qed.
End Abstract.

Section Rebuild.
Import Re DataValidator.

Lemma run_ends_with t r :
  ends_with t r -> forall st st', In st' (run r st) ->
  exists m w, rest st = w ++ rest m /\ In st' (run t m).
Proof.
  induction 1 as [|a b Hb IH]; intros st st' Hin.
  - exists st, []. split; [reflexivity | exact Hin].
  - cbn [run] in Hin. apply in_flat_map in Hin as (m & Hm & Hin).
    destruct (run_read_by a st m Hm) as (w1 & E1 & _).
    destruct (IH m st' Hin) as (m' & w2 & E2 & Hin').
    exists m', (w1 ++ w2). split; [rewrite E1, E2, app_assoc; reflexivity | exact Hin'].
Qed.

Lemma suburb_state_postcode_eq :
  suburb_state_postcode = Seq (Chr (Char.eqb comma)) after_comma.
Proof. reflexivity. Qed.

Lemma after_comma_reads_no_comma c : may_read after_comma c = true -> c <> comma.
Proof. intros H ->. vm_compute in H. discriminate H. Qed.

Lemma newline_not_comma : Char.newline <> comma.
Proof. discriminate. Qed.

(** A text that matches a pattern ending in [suburb_state_postcode] has a
    comma followed by comma-free text with three white-space characters. *)
Lemma ends_with_suburb_state_postcode r st st' :
  ends_with suburb_state_postcode r -> In st' (run r st) ->
  exists pre post,
    rest st = pre ++ comma :: post /\ comma_free post /\ 3 <= count_spaces post.
Proof.
  intros He Hin.
  destruct (run_ends_with _ r He st st' Hin) as (m & pre & E & Hin1).
  rewrite suburb_state_postcode_eq in Hin1. cbn [run] in Hin1.
  apply in_flat_map in Hin1 as (m' & Hm' & Hin2).
  unfold step in Hm'. destruct (rest m) as [|c s] eqn:Em; [destruct Hm'|].
  destruct (Char.eqb comma c) eqn:Hc; [|destruct Hm'].
  destruct Hm' as [<- | []]. apply Ascii.eqb_eq in Hc. subst c.
  destruct (run_read_by after_comma _ _ Hin2) as (w & Ew & Fw & Cw).
  pose proof (run_ends_at_eol after_comma _ _ eq_refl Hin2) as Htail.
  cbn [rest] in Ew. exists pre, s. split; [exact E|]. rewrite Ew. split.
  - apply Forall_app. split.
    + eapply Forall_impl; [exact Fw|]. intros c. apply after_comma_reads_no_comma.
    + destruct Htail as [-> | ->]; [constructor|].
      constructor; [exact newline_not_comma | constructor].
  - rewrite count_spaces_app. change (min_spaces after_comma) with 3 in Cw. lia.
Qed.

Lemma split_at_first c : forall x y a b : str,
  x ++ c :: a = y ++ c :: b ->
  Forall (fun d => d <> c) x -> Forall (fun d => d <> c) y -> x = y.
Proof.
  induction x as [|d x IH]; intros [|e y] a b E Hx Hy; cbn in E.
  - reflexivity.
  - injection E as <- _. apply Forall_inv in Hy. congruence.
  - injection E as -> _. apply Forall_inv in Hx. congruence.
  - injection E as <- E. f_equal.
    apply (IH y a b E); [eapply Forall_inv_tail, Hx | eapply Forall_inv_tail, Hy].
Qed.

Lemma split_at_last c (a b x y : str) :
  a ++ c :: x = b ++ c :: y ->
  Forall (fun d => d <> c) x -> Forall (fun d => d <> c) y -> x = y.
Proof.
  intros E Hx Hy. apply (f_equal (@rev ascii)) in E.
  rewrite !rev_app_distr in E. cbn [rev] in E. rewrite <- !app_assoc in E.
  cbn [app] in E.
  rewrite <- (rev_involutive x), <- (rev_involutive y). f_equal.
  apply (split_at_first c _ _ _ _ E); apply Forall_rev; assumption.
Qed.

Lemma rmatch_In r s m :
  rmatch r s = Some m -> exists st', In st' (run r (MState None s [])).
Proof.
  unfold rmatch, match_at. destruct (run r _) as [|x l]; [discriminate|].
  intros _. exists x. left. reflexivity.
Qed.

Lemma address_pattern1_ends : ends_with suburb_state_postcode address_pattern1.
Proof. unfold address_pattern1. repeat constructor. Qed.

Lemma address_pattern2_ends : ends_with suburb_state_postcode address_pattern2.
Proof. unfold address_pattern2. repeat constructor. Qed.

Lemma matches_address_comma (s : str) :
  matches_address s = true ->
  exists pre post,
    s = pre ++ comma :: post /\ comma_free post /\ 3 <= count_spaces post.
Proof.
  unfold matches_address. intros H. apply orb_true_iff in H as [H | H].
  - destruct (rmatch address_pattern1 s) as [m|] eqn:E; [|discriminate H].
    destruct (rmatch_In _ _ _ E) as [st' Hin].
    exact (ends_with_suburb_state_postcode _ _ _ address_pattern1_ends Hin).
  - destruct (rmatch address_pattern2 s) as [m|] eqn:E; [|discriminate H].
    destruct (rmatch_In _ _ _ E) as [st' Hin].
    exact (ends_with_suburb_state_postcode _ _ _ address_pattern2_ends Hin).
Qed.
End Rebuild.

Section Rebuild2.
Import Re DataValidator.

Lemma match_at_read r st m :
  match_at r st = Some m -> Forall (fun c => may_read r c = true) (whole m).
Proof.
  unfold match_at. destruct (run r st) as [|st' l] eqn:E; [discriminate|].
  intros [= <-]. destruct (run_read_by r st st') as (w & Ew & Fw & _).
  { rewrite E. left. reflexivity. }
  unfold mk_obj. cbn [whole]. rewrite Ew, take_consumed. exact Fw.
Qed.

Lemma search_from_read r : forall s before p res,
  search_from r before p s = Some res ->
  Forall (fun c => may_read r c = true) (whole (snd res)).
Proof.
  induction s as [|c s IH]; intros before p res H; cbn [search_from] in H.
  - destruct (match_at r _) as [m|] eqn:E; [|discriminate H].
    injection H as <-. exact (match_at_read _ _ _ E).
  - destruct (match_at r _) as [m|] eqn:E.
    + injection H as <-. exact (match_at_read _ _ _ E).
    + exact (IH _ _ _ H).
Qed.

Lemma search_read r s m :
  search r s = Some m -> Forall (fun c => may_read r c = true) (whole m).
Proof.
  unfold search. destruct (search_from r [] None s) as [res|] eqn:E; [|discriminate].
  intros [= <-]. exact (search_from_read _ _ _ _ _ E).
Qed.

Lemma postcode_reads_digits c :
  may_read postcode_pattern c = true -> Char.is_digit c = true.
Proof.
  destruct c as [[] [] [] [] [] [] [] []]; vm_compute; congruence.
Qed.

Lemma digit_not_comma c : Char.is_digit c = true -> c <> comma.
Proof. intros H ->. vm_compute in H. discriminate H. Qed.

Lemma count_spaces_none (w : str) :
  Forall (fun c => Char.is_space c = false) w -> count_spaces w = 0.
Proof.
  unfold count_spaces. induction 1 as [|c w Hc _ IH]; [reflexivity|].
  cbn. rewrite Hc. exact IH.
Qed.

Lemma state_plain (state : string) :
  In state au_states ->
  comma_free (lit state) /\ count_spaces (lit state) = 0.
Proof.
  unfold au_states. intros H.
  repeat (destruct H as [<- | H];
          [split; [repeat constructor; discriminate | reflexivity]|]).
  destruct H.
Qed.

Lemma rebuild_shape address state postcode formatted :
  rebuild address state postcode = Some formatted ->
  exists street_part,
    formatted = street_part ++ comma :: (" " +++ lit state +++ " " +++ postcode).
Proof.
  unfold rebuild.
  destruct (split (state_split_pattern state) address) as [|p0 [|p1 [|? ?]]];
    try discriminate.
  intros [= <-]. eexists. reflexivity.
Qed.

(** The rebuilt address has a comma before the state, which no address
    pattern admits: the rebuild of lines 79-103 never validates. *)
Lemma rebuild_never_matches address state pm formatted :
  search postcode_pattern address = Some pm ->
  In state au_states ->
  rebuild address state (whole pm) = Some formatted ->
  matches_address formatted = false.
Proof.
  intros Hpm Hstate Hre.
  destruct (matches_address formatted) eqn:Hm; [exfalso|reflexivity].
  destruct (matches_address_comma _ Hm) as (pre & post & E & Hfree & Hcount).
  destruct (rebuild_shape _ _ _ _ Hre) as (street & Ef).
  pose proof (search_read _ _ _ Hpm) as Hdigits.
  assert (Hd : Forall (fun c => Char.is_digit c = true) (whole pm)).
  { eapply Forall_impl; [exact Hdigits|]. exact postcode_reads_digits. }
  destruct (state_plain state Hstate) as (Hsfree & Hscount).
  rewrite Ef in E.
  assert (Hpost : " " +++ lit state +++ " " +++ whole pm = post).
  { apply (split_at_last comma street pre _ _ E); [|exact Hfree].
    constructor; [discriminate|]. apply Forall_app. split; [exact Hsfree|].
    constructor; [discriminate|].
    eapply Forall_impl; [exact Hd|]. exact digit_not_comma. }
  rewrite <- Hpost in Hcount.
  change (" " +++ lit state +++ " " +++ whole pm)
    with ([" "%char] ++ lit state ++ [" "%char] ++ whole pm) in Hcount.
  rewrite !count_spaces_app, Hscount in Hcount.
  rewrite (count_spaces_none (whole pm)) in Hcount.
  - vm_compute in Hcount. lia.
  - eapply Forall_impl; [exact Hd|]. exact digit_not_space.
Qed.

(** What [validate_address] returns for a non-empty input: the trimmed
    address without its unit prefix, valid when that text matches one of the
    two address patterns. *)
Lemma validate_address_result (address : str) :
  address <> [] ->
  validate_address address
  = (matches_address (strip_unit (Str.strip address)),
     strip_unit (Str.strip address)).
Proof.
  intros Hne. unfold validate_address.
  destruct address as [|c address]; [congruence|]. cbn [Str.truthy negb].
  generalize (strip_unit (Str.strip (c :: address))). intros a.
  destruct (matches_address a) eqn:Hm; [reflexivity|].
  destruct (search postcode_pattern a) as [pm|] eqn:Hpm; [|reflexivity].
  destruct (find _ au_states) as [state|] eqn:Hfind; [|reflexivity].
  destruct (rebuild a state (whole pm)) as [formatted|] eqn:Hre; [|reflexivity].
  apply find_some in Hfind as [Hin _].
  rewrite (rebuild_never_matches a state pm formatted Hpm Hin Hre). reflexivity.
Qed.
End Rebuild2.

Section Strip.
Import Re DataValidator.

Lemma lstrip_spaces l s : spaces l -> Str.lstrip (l ++ s) = Str.lstrip s.
Proof. induction 1 as [|c l Hc _ IH]; [reflexivity|]. cbn. rewrite Hc. exact IH. Qed.

Lemma lstrip_unspaced s : starts_unspaced s -> Str.lstrip s = s.
Proof. destruct s as [|c s]; [intros []|]. cbn. intros ->. reflexivity. Qed.

Lemma lstrip_split s :
  exists lead, s = lead ++ Str.lstrip s /\ spaces lead
               /\ (Str.lstrip s = [] \/ starts_unspaced (Str.lstrip s)).
Proof.
  induction s as [|c s (lead & E & Hl & Hs)].
  - exists []. split; [reflexivity|]. split; [constructor | left; reflexivity].
  - cbn [Str.lstrip]. destruct (Char.is_space c) eqn:Hc.
    + exists (c :: lead). split; [cbn; f_equal; exact E|].
      split; [constructor; assumption | exact Hs].
    + exists []. split; [reflexivity|]. split; [constructor | right; exact Hc].
Qed.

Lemma rstrip_spaces s t : spaces t -> Str.rstrip (s ++ t) = Str.rstrip s.
Proof.
  intros Ht. unfold Str.rstrip. rewrite rev_app_distr, lstrip_spaces; [reflexivity|].
  apply Forall_rev, Ht.
Qed.

Lemma rstrip_unspaced s : ends_unspaced s -> Str.rstrip s = s.
Proof.
  intros H. unfold Str.rstrip. rewrite lstrip_unspaced by exact H.
  apply rev_involutive.
Qed.

Lemma rstrip_split s :
  exists trail, s = Str.rstrip s ++ trail /\ spaces trail
                /\ (Str.rstrip s = [] \/ ends_unspaced (Str.rstrip s)).
Proof.
  destruct (lstrip_split (rev s)) as (lead & E & Hl & Hs).
  exists (rev lead). unfold Str.rstrip, ends_unspaced. split; [|split].
  - rewrite <- rev_app_distr, <- E. symmetry. apply rev_involutive.
  - apply Forall_rev, Hl.
  - rewrite rev_involutive. destruct Hs as [-> | Hs]; [left; reflexivity | right; exact Hs].
Qed.

Lemma ends_unspaced_app a b : ends_unspaced b -> ends_unspaced (a ++ b).
Proof.
  unfold ends_unspaced. rewrite rev_app_distr.
  destruct (rev b) as [|c r]; [intros []|]. intros H. exact H.
Qed.

(** A text with a visible character: white space, the trimmed text, white
    space; the trimmed text starts and ends with a visible character. *)
Lemma strip_split s :
  Str.strip s <> [] ->
  exists lead trail,
    s = lead ++ Str.strip s ++ trail /\ spaces lead /\ spaces trail
    /\ starts_unspaced (Str.strip s) /\ ends_unspaced (Str.strip s).
Proof.
  intros Hne. unfold Str.strip in *.
  destruct (lstrip_split s) as (lead & E & Hl & Hs).
  destruct (rstrip_split (Str.lstrip s)) as (trail & E' & Ht & Hr).
  destruct Hr as [Hr | Hr]; [congruence|].
  exists lead, trail. split; [|split; [exact Hl|split; [exact Ht|split; [|exact Hr]]]].
  - rewrite <- E'. exact E.
  - destruct Hs as [Hs | Hs]; [rewrite Hs in Hne; cbn in Hne; congruence|].
    destruct (Str.lstrip s) as [|c t]; [destruct Hs|]. cbn in Hs.
    destruct (Str.rstrip (c :: t)) as [|d u]; [congruence|].
    cbn in E'. injection E' as -> _. exact Hs.
Qed.

Lemma strip_framed (a core trail : str) :
  starts_unspaced a -> ends_unspaced core -> spaces trail ->
  Str.strip (a ++ core ++ trail) = a ++ core.
Proof.
  intros Ha Hc Ht. unfold Str.strip.
  rewrite lstrip_unspaced.
  - rewrite app_assoc, rstrip_spaces by exact Ht.
    apply rstrip_unspaced, ends_unspaced_app, Hc.
  - destruct a as [|c a]; [destruct Ha|]. exact Ha.
Qed.
End Strip.

Section UnitTheorem.
Import Re DataValidator.

Lemma strip_unit_reads pre ud ul sl nd nl ws core :
  pre = [] \/ pre = lit "Unit " ->
  ud <> [] -> Forall (fun c => Char.is_digit c = true) ud -> optional_letter ul ->
  chars "/\" sl = true ->
  nd <> [] -> Forall (fun c => Char.is_digit c = true) nd -> optional_letter nl ->
  ws <> [] -> spaces ws ->
  starts_unspaced core -> no_newline core ->
  strip_unit (pre ++ ud ++ ul ++ sl :: nd ++ nl ++ ws ++ core)
  = nd ++ nl ++ " " ++ core.
Proof.
  intros Hpre Hud Hudd Hul Hsl Hnd Hndd Hnl Hws Hwss Hcore Hnn.
  destruct (reads_unit_body pre ud ul sl nd nl ws core) as (f & Hreads & Hf);
    try assumption.
  destruct (rmatch_reads _ _ _ Hreads) as (m & Hm & Hg & _).
  assert (E : pre ++ ud ++ ul ++ sl :: nd ++ nl ++ ws ++ core
              = (pre ++ (ud ++ ul) ++ [sl]) ++ (nd ++ nl) ++ ws ++ core ++ []).
  { rewrite app_nil_r, <- !app_assoc. reflexivity. }
  unfold strip_unit. rewrite unit_pattern_body, E, Hm.
  unfold group. rewrite Hg, Hf. cbn [assoc Nat.eqb].
  rewrite <- app_assoc. reflexivity.
Qed.

(** C8 (amended): for an address of the shape "Unit "-or-nothing, unit
    number, slash, building number, a space and a rest that has a visible
    character and no line break inside, [validate_address] returns the
    building number, one space and the trimmed rest; it is valid exactly when
    that text matches one of the two address patterns. *)
Theorem validate_address_strips_unit pre ud ul sl nd nl rest :
  pre = [] \/ pre = lit "Unit " ->
  ud <> [] -> Forall (fun c => Char.is_digit c = true) ud -> optional_letter ul ->
  chars "/\" sl = true ->
  nd <> [] -> Forall (fun c => Char.is_digit c = true) nd -> optional_letter nl ->
  Str.strip rest <> [] -> no_newline (Str.strip rest) ->
  validate_address (pre ++ ud ++ ul ++ sl :: nd ++ nl ++ " " ++ rest)
  = (matches_address (nd ++ nl ++ " " ++ Str.strip rest),
     nd ++ nl ++ " " ++ Str.strip rest).
Proof.
  intros Hpre Hud Hudd Hul Hsl Hnd Hndd Hnl Hrest Hnn.
  destruct (strip_split rest Hrest) as (lead & trail & E & Hlead & Htrail & Hs & He).
  set (core := Str.strip rest) in *.
  rewrite validate_address_result.
  2:{ intros H. apply (f_equal (@length ascii)) in H.
      rewrite !length_app in H. cbn in H. lia. }
  assert (Hstrip : Str.strip (pre ++ ud ++ ul ++ sl :: nd ++ nl ++ " " ++ rest)
                   = pre ++ ud ++ ul ++ sl :: nd ++ nl ++ (" " ++ lead) ++ core).
  { rewrite E.
    replace (pre ++ ud ++ ul ++ sl :: nd ++ nl ++ " " ++ lead ++ core ++ trail)
      with ((pre ++ ud ++ ul ++ sl :: nd ++ nl ++ " " ++ lead) ++ core ++ trail).
    2:{ rewrite <- !app_assoc. cbn [app]. rewrite <- !app_assoc. reflexivity. }
    rewrite strip_framed; [| |exact He|exact Htrail].
    - rewrite <- !app_assoc. cbn [app]. rewrite <- !app_assoc. reflexivity.
    - destruct Hpre as [-> | ->]; [|reflexivity].
      destruct ud as [|d ud']; [congruence|]. cbn.
      apply digit_not_space. exact (Forall_inv Hudd). }
  rewrite Hstrip.
  rewrite (strip_unit_reads pre ud ul sl nd nl (" " ++ lead) core); try assumption.
  - reflexivity.
  - discriminate.
  - constructor; [reflexivity | exact Hlead].
Qed.
End UnitTheorem.

Lemma validate_address_strips_unit_witness :
  DataValidator.validate_address "Unit 2/40 Minchinton St, Caloundra QLD 4551"
  = (true, lit "40 Minchinton St, Caloundra QLD 4551").
Proof.
  refine (eq_trans
    (validate_address_strips_unit "Unit " "2" "" "/" "40" ""
       "Minchinton St, Caloundra QLD 4551" _ _ _ _ _ _ _ _ _ _) _).
  - right. reflexivity.
  - discriminate.
  - repeat constructor.
  - left. reflexivity.
  - reflexivity.
  - discriminate.
  - repeat constructor.
  - left. reflexivity.
  - vm_compute. discriminate.
  - vm_compute. repeat constructor.
  - vm_compute. reflexivity.
Defined.

(** C8 (as stated, refuted): ["2/40  "] has the stated shape (the rest is a
    space), but trimming leaves ["2/40"], which [unit_pattern] does not
    match, and the unit prefix stays. *)
Lemma validate_address_blank_rest_keeps_unit :
  Re.rmatch unit_shape "2/40  " <> None
  /\ DataValidator.validate_address "2/40  " = (false, lit "2/40").
Proof. split; vm_compute; [discriminate | reflexivity]. Qed.

(** ** Further properties of the validators, the fetcher and the link finder *)

Section ValidatorExtras.
Import Re DataValidator.

(** X4: the category returned is "C", "G" or the empty string, and the flag
    is true exactly when it is not empty. *)
Theorem validate_psychologist_type_values (x : str) :
  (snd (validate_psychologist_type x) = lit "C"
   \/ snd (validate_psychologist_type x) = lit "G"
   \/ snd (validate_psychologist_type x) = [])
  /\ (fst (validate_psychologist_type x) = true
      <-> snd (validate_psychologist_type x) <> []).
Proof.
  unfold validate_psychologist_type.
  destruct (negb (Str.truthy x)).
  { cbn. split; [auto|]. split; [discriminate | congruence]. }
  generalize (Str.upper (Str.strip x)); intros p. unfold str_eqb.
  repeat case_bool_decide; subst; cbn [orb fst snd].
  - split; [auto|]. split; [discriminate | reflexivity].
  - split; [auto|]. split; [discriminate | reflexivity].
  - split; [auto|]. split; [discriminate | reflexivity].
  - repeat match goal with
           | |- context [if ?b then _ else _] => destruct b
           end; cbn [fst snd];
      (split; [auto|]); (split; [discriminate || congruence | discriminate || reflexivity || congruence]).
Qed.

Lemma phone_digits_are_digits (phone : str) :
  Forall (fun c => Char.isdigit c = true) (phone_digits phone).
Proof.
  unfold phone_digits.
  assert (H : Forall (fun c => Char.isdigit c = true)
                     (filter (fun c => Char.isdigit c = true) phone)).
  { apply Forall_forall. intros c Hc. apply list_elem_of_filter in Hc as [Hc _]. exact Hc. }
  destruct (_ && _); [|exact H]. constructor; [reflexivity | exact H].
Qed.
End ValidatorExtras.

Section PhoneExtras.
Import Re DataValidator.

Lemma filter_digits_all (w : list ascii) :
  Forall (fun c => Char.isdigit c = true) w ->
  filter (fun c => Char.isdigit c = true) w = w.
Proof.
  induction w as [|c w IH]; intros H; [reflexivity|].
  apply Forall_cons in H as [Hc H].
  rewrite filter_cons. rewrite decide_True by exact Hc. f_equal. exact (IH H).
Qed.

Ltac split_digits H :=
  repeat match type of H with
         | Forall _ (_ :: _) =>
             let Hc := fresh "Hc" in
             apply Forall_cons in H as [Hc H]
         end.

Ltac eqb_cases :=
  repeat match goal with
         | |- context [Char.eqb ?a ?b] =>
             let E := fresh "E" in
             destruct (Char.eqb a b) eqn:E;
             [apply Ascii.eqb_eq in E; subst | ]
         end.

(** X3: formatting a valid phone number only inserts separators: the digits
    of the result are the digits the formatter worked on, provided the number
    does not start with 1800 or has ten digits (see C3 for the other case). *)
Theorem validate_phone_keeps_digits (phone : str) :
  fst (validate_phone phone) = true ->
  Str.startswith "1800" (phone_digits phone) = false
  \/ length (phone_digits phone) = 10 ->
  filter (fun c => Char.isdigit c = true) (snd (validate_phone phone))
  = phone_digits phone.
Proof.
  pose proof (phone_digits_are_digits phone) as Hd.
  unfold validate_phone.
  destruct (negb (Str.truthy phone)); [discriminate|].
  revert Hd. generalize (phone_digits phone). intros d Hd Hvalid H1800.
  destruct d as [|c1 [|c2 [|c3 [|c4 [|c5 [|c6 [|c7 [|c8 d]]]]]]]];
    try discriminate Hvalid.
  destruct d as [|c9 [|c10 [|c11 [|c12 [|c13 d]]]]];
    try discriminate Hvalid.
  all: split_digits Hd.
  all: cbn [length Nat.leb Nat.eqb andb orb Str.startswith lit list_ascii_of_string
            slice take drop Nat.sub app fst snd] in *.
  all: eqb_cases; cbn [andb orb fst snd app];
    try (destruct H1800 as [H1800 | H1800]; discriminate H1800).
  all: change str with (list ascii) in *.
  all: repeat (rewrite filter_cons;
               first [ rewrite decide_True by (assumption || reflexivity)
                     | rewrite decide_False by (vm_compute; discriminate) ]).
  all: try reflexivity.
Qed.
End PhoneExtras.

Section NormalFormExtras.
Import Re DataValidator.

Lemma lower_keeps_space c : Char.is_space (Char.lower c) = Char.is_space c.
Proof. destruct c as [[] [] [] [] [] [] [] []]; vm_compute; reflexivity. Qed.

Lemma lower_lower c : Char.lower (Char.lower c) = Char.lower c.
Proof. destruct c as [[] [] [] [] [] [] [] []]; vm_compute; reflexivity. Qed.

Lemma lstrip_lower s : Str.lstrip (Str.lower s) = Str.lower (Str.lstrip s).
Proof.
  unfold Str.lower. induction s as [|c s IH]; [reflexivity|].
  cbn [map Str.lstrip]. rewrite lower_keeps_space.
  destruct (Char.is_space c); [exact IH | reflexivity].
Qed.

Lemma strip_lower s : Str.strip (Str.lower s) = Str.lower (Str.strip s).
Proof.
  unfold Str.strip, Str.rstrip. rewrite lstrip_lower.
  unfold Str.lower at 1. rewrite <- map_rev.
  change (map Char.lower ?x) with (Str.lower x). rewrite lstrip_lower.
  unfold Str.lower. rewrite map_rev. reflexivity.
Qed.

Lemma lower_idempotent s : Str.lower (Str.lower s) = Str.lower s.
Proof.
  unfold Str.lower. rewrite map_map. apply map_ext. exact lower_lower.
Qed.

Lemma strip_fixed s : starts_unspaced s -> ends_unspaced s -> Str.strip s = s.
Proof.
  intros Hs He. unfold Str.strip. rewrite lstrip_unspaced by exact Hs.
  apply rstrip_unspaced, He.
Qed.

Lemma strip_idempotent s : Str.strip (Str.strip s) = Str.strip s.
Proof.
  destruct (Str.strip s) as [|c t] eqn:E; [reflexivity|]. rewrite <- E.
  assert (Hne : Str.strip s <> []) by (rewrite E; discriminate).
  destruct (strip_split s Hne) as (lead & trail & _ & _ & _ & Hs & He).
  apply strip_fixed; assumption.
Qed.

(** X5: validating the text that [validate_email] returned gives the same
    flag and the same text again. *)
Theorem validate_email_idempotent (email : str) :
  validate_email (snd (validate_email email)) = validate_email email.
Proof.
  unfold validate_email at 2 3.
  destruct (negb (Str.truthy email)); [reflexivity|].
  set (v := Str.lower (Str.strip email)).
  assert (Hv : Str.lower (Str.strip v) = v).
  { unfold v. rewrite strip_lower, lower_idempotent, strip_idempotent. reflexivity. }
  replace (snd (if is_some (rmatch email_pattern v) then (true, v) else (false, v)))
    with v by (destruct (is_some _); reflexivity).
  unfold validate_email. destruct v as [|c v'] eqn:Ev.
  - reflexivity.
  - cbn [Str.truthy negb]. rewrite Hv. reflexivity.
Qed.

Lemma startswith_app p s : Str.startswith p (p ++ s) = true.
Proof.
  induction p as [|c p IH]; [reflexivity|]. cbn.
  unfold Char.eqb. rewrite Ascii.eqb_refl. exact IH.
Qed.

Lemma has_scheme_unspaced url : has_scheme url = true -> starts_unspaced url.
Proof.
  unfold has_scheme. destruct url as [|c url]; [discriminate|].
  cbn [Str.startswith lit list_ascii_of_string].
  destruct (Char.eqb "h" c) eqn:E; cbn [andb orb]; [|discriminate].
  intros _. apply Ascii.eqb_eq in E. subst c. reflexivity.
Qed.

(** The text [validate_url] goes on with after trimming and prefixing. *)
Lemma url_normal_form (s : str) :
  (s = [] \/ (starts_unspaced s /\ ends_unspaced s)) ->
  let v := if negb (has_scheme s) then "http://" +++ s else s in
  has_scheme v = true /\ Str.strip v = v /\ v <> [].
Proof.
  intros Hs. cbv zeta. destruct (has_scheme s) eqn:H; cbn [negb].
  - split; [exact H|]. destruct Hs as [-> | [Hs He]]; [discriminate H|].
    split; [apply strip_fixed; assumption|]. intros ->. discriminate H.
  - split; [reflexivity|]. split; [|discriminate].
    destruct Hs as [-> | [Hs He]]; [reflexivity|].
    apply strip_fixed; [reflexivity|]. apply ends_unspaced_app, He.
Qed.

Lemma strip_shape s :
  Str.strip s = [] \/ (starts_unspaced (Str.strip s) /\ ends_unspaced (Str.strip s)).
Proof.
  destruct (Str.strip s) as [|c t] eqn:E; [left; reflexivity|]. right. rewrite <- E.
  assert (Hne : Str.strip s <> []) by (rewrite E; discriminate).
  destruct (strip_split s Hne) as (lead & trail & _ & _ & _ & Hs & He).
  split; assumption.
Qed.

Lemma validate_url_eq (url : str) :
  url <> [] ->
  validate_url url = (is_some (rmatch url_pattern (url_text url)), url_text url).
Proof.
  intros Hne. unfold validate_url, url_text, has_scheme.
  destruct url as [|c url]; [congruence|]. cbn [Str.truthy negb].
  destruct (is_some _); reflexivity.
Qed.

Lemma url_text_fixed (url : str) :
  has_scheme (url_text url) = true
  /\ url_text (url_text url) = url_text url
  /\ url_text url <> [].
Proof.
  assert (H : has_scheme (url_text url) = true
              /\ Str.strip (url_text url) = url_text url /\ url_text url <> []).
  { exact (url_normal_form (Str.strip url) (strip_shape url)). }
  destruct H as (H1 & H2 & H3).
  split; [exact H1|]. split; [|exact H3].
  unfold url_text at 1. rewrite H2, H1. reflexivity.
Qed.

(** X6: for a non-empty input the URL that [validate_url] returns starts
    with http:// or https://, and validating it again changes nothing. *)
Theorem validate_url_normal_form (url : str) :
  url <> [] ->
  has_scheme (snd (validate_url url)) = true
  /\ validate_url (snd (validate_url url)) = validate_url url.
Proof.
  intros Hne. destruct (url_text_fixed url) as (H1 & H2 & H3).
  rewrite (validate_url_eq url Hne). cbn [snd]. split; [exact H1|].
  rewrite (validate_url_eq _ H3), H2. reflexivity.
Qed.
End NormalFormExtras.

Section FetchExtras.
Import WebScraper.
Variable urlparse : str -> option (str * str).
Variable net : nat -> get_outcome.




Lemma fetch_loop_success url r : forall remaining retries trace,
  fst (fetch_loop net url remaining retries trace) = (true, Some r) <->
  exists k, k < remaining
            /\ net (retries + k) = Returned r /\ status_code r = 200%Z
            /\ (forall j, j < k -> retryable (net (retries + j))).
Proof.
  induction remaining as [|remaining IH]; intros retries trace.
  - cbn [fetch_loop fst]. split; [discriminate|]. intros (k & Hk & _). lia.
  - split.
    + intros H. cbn [fetch_loop] in H.
      assert (Hretry : retryable (net retries) ->
                fst (fetch_loop net url remaining (S retries)
                       ((trace ++ [Get url]) ++ [Sleep (2 * S retries)]))
                = (true, Some r) ->
                exists k, k < S remaining
                  /\ net (retries + k) = Returned r /\ status_code r = 200%Z
                  /\ (forall j, j < k -> retryable (net (retries + j)))).
      { intros Hr H'. apply IH in H' as (k & Hk & Hnet & H200 & Hbefore).
        exists (S k). split; [lia|]. rewrite Nat.add_succ_r. split; [exact Hnet|].
        split; [exact H200|]. intros [|j] Hj.
        - rewrite Nat.add_0_r. exact Hr.
        - rewrite Nat.add_succ_r. apply Hbefore. lia. }
      destruct (net retries) as [r0|e] eqn:Hnet; [|exact (Hretry I H)].
      destruct (status_code r0 =? 200)%Z eqn:H200.
      * cbn [fst] in H. injection H as ->. exists 0. rewrite Nat.add_0_r.
        split; [lia|]. split; [exact Hnet|]. split; [apply Z.eqb_eq, H200|].
        intros j Hj. lia.
      * destruct (status_code r0 =? 404)%Z eqn:H404; [discriminate H|].
        apply Hretry; [|exact H]. split; apply Z.eqb_neq; assumption.
    + intros (k & Hk & Hnet & H200 & Hbefore). destruct k as [|k].
      * rewrite Nat.add_0_r in Hnet. cbn [fetch_loop]. rewrite Hnet.
        rewrite (proj2 (Z.eqb_eq _ _) H200). reflexivity.
      * rewrite fetch_loop_retry.
        2:{ specialize (Hbefore 0 ltac:(lia)). rewrite Nat.add_0_r in Hbefore.
            exact Hbefore. }
        apply IH. exists k. split; [lia|]. rewrite Nat.add_succ_r in Hnet.
        split; [exact Hnet|]. split; [exact H200|].
        intros j Hj. specialize (Hbefore (S j) ltac:(lia)).
        rewrite Nat.add_succ_r in Hbefore. exact Hbefore.
Qed.

(** X9: [fetch_url] succeeds with the response [r] exactly when the URL is
    valid and some attempt within the limit is answered by [r] with status
    200 while every earlier attempt was retryable. *)
Theorem fetch_url_succeeds_iff (url : str) (max_retries : nat) (r : response) :
  fst (fetch_url_retries urlparse net url max_retries) = (true, Some r) <->
  is_valid_url urlparse url = true
  /\ exists k, k < max_retries
               /\ net k = Returned r /\ status_code r = 200%Z
               /\ (forall j, j < k -> retryable (net j)).
Proof.
  unfold fetch_url_retries. destruct (is_valid_url urlparse url); cbn [negb].
  - rewrite (fetch_loop_success url r max_retries 0 []). cbn [Nat.add].
    split; [intros H; split; [reflexivity | exact H] | intros [_ H]; exact H].
  - cbn [fst]. split; [discriminate | intros [H _]; discriminate H].
Qed.

End FetchExtras.

Section DomainExtras.
Import WebScraper LinkDiscovery.
Variable urljoin : str -> str -> str.
Variable urlparse : str -> option (str * str).

Lemma str_eqb_sym (a b : str) : str_eqb a b = str_eqb b a.
Proof. unfold str_eqb. repeat case_bool_decide; congruence. Qed.

(** X10: the same-domain test does not depend on the order of its
    arguments. *)
Theorem is_same_domain_symmetric (url1 url2 : str) :
  is_same_domain urlparse url1 url2 = is_same_domain urlparse url2 url1.
Proof.
  unfold is_same_domain.
  destruct (urlparse url1) as [[s1 d1]|], (urlparse url2) as [[s2 d2]|];
    try reflexivity.
  rewrite str_eqb_sym. reflexivity.
Qed.

(** X11: every page [find_doctor_pages] returns is on the domain of the
    base URL, comes from an anchor of the page, and has a keyword in the
    anchor text or in its address. *)
Theorem find_doctor_pages_sound (base_url : str) : forall anchors pages,
  find_doctor_pages urljoin urlparse anchors base_url = Some pages ->
  Forall (fun page =>
            is_same_domain urlparse page base_url = Some true
            /\ exists a, In a anchors
                 /\ page = resolve urljoin base_url (a_href a)
                 /\ contains_keyword (Str.strip (Str.lower (a_text a))) page = true)
         pages.
Proof.
  induction anchors as [|a anchors IH]; intros pages H; cbn [find_doctor_pages] in H.
  - injection H as <-. constructor.
  - cbv zeta in H.
    destruct (is_same_domain urlparse (resolve urljoin base_url (a_href a)) base_url)
      as [[]|] eqn:Hsame; [| |discriminate H].
    + destruct (find_doctor_pages urljoin urlparse anchors base_url) as [l|];
        [|discriminate H].
      specialize (IH l eq_refl).
      assert (IH' : Forall (fun page =>
                is_same_domain urlparse page base_url = Some true
                /\ exists a0, In a0 (a :: anchors)
                     /\ page = resolve urljoin base_url (a_href a0)
                     /\ contains_keyword (Str.strip (Str.lower (a_text a0))) page = true) l).
      { eapply Forall_impl; [exact IH|]. intros page (Hp & a0 & Hin & Heq & Hk).
        split; [exact Hp|]. exists a0. split; [right; exact Hin|]. split; assumption. }
      destruct (contains_keyword _ _) eqn:Hk; injection H as <-; [|exact IH'].
      constructor; [|exact IH'].
      split; [exact Hsame|]. exists a. split; [left; reflexivity|].
      split; [reflexivity | exact Hk].
    + specialize (IH pages H).
      eapply Forall_impl; [exact IH|]. intros page (Hp & a0 & Hin & Heq & Hk).
      split; [exact Hp|]. exists a0. split; [right; exact Hin|]. split; assumption.
Qed.

Lemma startswith_length (p : str) : forall s : str,
  Str.startswith p s = true -> length p <= length s.
Proof.
  induction p as [|a p IH]; intros [|b s] H; cbn in *; try lia; try discriminate H.
  apply andb_true_iff in H as [_ H]. apply IH in H. lia.
Qed.

Lemma length_strip_prefixed (s : str) :
  7 <= length (if negb (Str.startswith "http://" s || Str.startswith "https://" s)
               then "https://" +++ s else s).
Proof.
  destruct (Str.startswith "http://" s) eqn:H1; cbn [orb negb].
  - apply startswith_length in H1. cbn in H1. lia.
  - destruct (Str.startswith "https://" s) eqn:H2; cbn [negb].
    + apply startswith_length in H2. cbn in H2. lia.
    + rewrite length_app. cbn. lia.
Qed.

(** X12: [clean_url] gives [None] for the empty string only, and never an
    empty string: what it returns has at least six characters. *)
Theorem clean_url_not_empty (url : str) :
  (clean_url url = None <-> url = [])
  /\ forall cleaned, clean_url url = Some cleaned -> 6 <= length cleaned.
Proof.
  unfold clean_url. destruct url as [|c url].
  - split; [split; reflexivity | discriminate].
  - change (negb (Str.truthy (c :: url))) with false. cbv iota zeta.
    pose proof (length_strip_prefixed (Str.strip (c :: url))) as Hlen.
    revert Hlen.
    generalize (if negb (Str.startswith "http://" (Str.strip (c :: url))
                         || Str.startswith "https://" (Str.strip (c :: url)))
                then "https://" +++ Str.strip (c :: url)
                else Str.strip (c :: url)).
    intros u Hlen. split; [split; discriminate|].
    intros cleaned H. injection H as <-.
    destruct (Str.endswith _ u); [|lia].
    rewrite length_take. lia.
Qed.
End DomainExtras.


(** X1: for every non-empty input, [validate_address] returns the trimmed
    input without its unit prefix, and the flag says whether that text
    matches one of the two address patterns: the rebuild of lines 79-103
    never changes the outcome. *)
Theorem validate_address_returns_stripped_input (address : str) :
  address <> [] ->
  DataValidator.validate_address address
  = (DataValidator.matches_address
       (DataValidator.strip_unit (Str.strip address)),
     DataValidator.strip_unit (Str.strip address)).
Proof. exact (validate_address_result address). Qed.

Lemma validate_address_returns_stripped_input_witness :
  DataValidator.validate_address "40 Minchinton St Caloundra QLD 4551"
  = (false, lit "40 Minchinton St Caloundra QLD 4551").
Proof.
  refine (eq_trans (validate_address_returns_stripped_input
                      "40 Minchinton St Caloundra QLD 4551" _) _).
  - discriminate.
  - vm_compute. reflexivity.
Defined.

Lemma validate_phone_keeps_digits_witness :
  filter (fun c => Char.is_digit c = true)
         (snd (DataValidator.validate_phone "(07) 5432 1098"))
  = lit "0754321098".
Proof.
  refine (eq_trans (validate_phone_keeps_digits "(07) 5432 1098" _ _) _).
  - vm_compute. reflexivity.
  - left. vm_compute. reflexivity.
  - vm_compute. reflexivity.
Defined.

Lemma validate_url_normal_form_witness :
  has_scheme (snd (DataValidator.validate_url "www.mindfultherapy.net")) = true
  /\ DataValidator.validate_url (snd (DataValidator.validate_url "www.mindfultherapy.net"))
     = DataValidator.validate_url "www.mindfultherapy.net".
Proof. apply validate_url_normal_form. discriminate. Defined.

Lemma flag_discrepancies_text_witness :
  fst (DataFormatter.flag_discrepancies
         {["Email" := Text "old@clinic.com.au"]}
         {["Email" := Text "new@clinic.com.au"]} "Email") = true.
Proof.
  apply (proj2 (flag_discrepancies_text {["Email" := Text "old@clinic.com.au"]}
                  "Email" "old@clinic.com.au" "new@clinic.com.au"
                  (lookup_singleton_eq _ _))).
  repeat split; vm_compute; discriminate.
Defined.

Lemma find_doctor_pages_sound_witness :
  Forall (fun page =>
            WebScraper.is_same_domain (Url.urlparse Url.unchecked) page "https://www.wisemind.com.au"
            = Some true
            /\ exists a, In a [Anchor "/our-team/" "Meet the team";
                               Anchor "https://twitter.com/wisemind" "Our staff";
                               Anchor "/contact" "Contact"]
                 /\ page = LinkDiscovery.resolve (fun base href => base ++ href)
                             "https://www.wisemind.com.au" (a_href a)
                 /\ LinkDiscovery.contains_keyword
                      (Str.strip (Str.lower (a_text a))) page = true)
         [lit "https://www.wisemind.com.au/our-team/"].
Proof.
  apply (find_doctor_pages_sound (fun base href => base ++ href) (Url.urlparse Url.unchecked)
           "https://www.wisemind.com.au"
           [Anchor "/our-team/" "Meet the team";
            Anchor "https://twitter.com/wisemind" "Our staff";
            Anchor "/contact" "Contact"]).
  vm_compute. reflexivity.
Defined.

Lemma clean_url_not_empty_witness :
  LinkDiscovery.clean_url "www.wisemind.com.au/" = Some (lit "https://www.wisemind.com.au")
  /\ 6 <= length (lit "https://www.wisemind.com.au").
Proof.
  assert (H : LinkDiscovery.clean_url "www.wisemind.com.au/"
              = Some (lit "https://www.wisemind.com.au")) by (vm_compute; reflexivity).
  split; [exact H|].
  exact (proj2 (clean_url_not_empty "www.wisemind.com.au/") _ H).
Defined.

(** ** Further properties of the reconciliation *)

Section ReconcileExtras.
Import DataFormatter.
Variable validator : Validator.
Variable today : str.
Variable row_is_view : bool.

(** The reconciled row of a record that has a candidate. *)
Lemma format_data_for_excel_matched df ex i r c :
  "Practice" ∈ columns df ->
  rows df !! i = Some r ->
  candidate_for ex r = Some (PData c) ->
  exists u n d r',
    format_data_for_excel validator today row_is_view df ex = Some (u, n, d)
    /\ snapshot validator df !! i = Some r'
    /\ rows u !! i = Some (candidate_writes validator today c r').
Proof.
  intros Hp Hr Hcand.
  destruct (format_data_for_excel_result validator today row_is_view df ex Hp)
    as (u & n & d & Hres & Hu & _).
  destruct (snapshot_spec validator df) as (_ & Hsrows).
  destruct (Hsrows i r Hr) as (r' & Hr' & Hsame & _). clear Hsrows.
  exists u, n, d, r'. split; [exact Hres|]. split; [exact Hr'|].
  assert (Hprac : r' !! "Practice" = r !! "Practice").
  { apply Hsame; [|discriminate]. right. apply practice_not_required. }
  pose proof (candidate_for_snapshot ex r r' Hprac) as Hc'. rewrite Hcand in Hc'.
  revert Hu Hr'. generalize (snapshot validator df). intros snap Hu Hr'.
  destruct (process_rows_at validator today row_is_view ex snap 0 (State snap [] []) i r' Hr')
    as (st_i & Hst & Hfinal).
  cbn [updated_df Nat.add] in Hst, Hfinal. rewrite Hr' in Hst.
  rewrite Hu, Hfinal. unfold process_row.
  rewrite (row_value_here row_is_view i r' st_i Hst).
  unfold candidate_for in Hc'.
  destruct (lookup_practice ex r') as [e|]; [|discriminate Hc'].
  injection Hc' as Hitem. rewrite Hitem. cbn [process_data].
  rewrite (process_candidate_row validator today row_is_view), Hst. reflexivity.
Qed.
End ReconcileExtras.

Section ReconcileDiscrepancies.
Import DataFormatter.
Variable validator : Validator.
Variable today : str.
Variable row_is_view : bool.

Lemma records_only_refl idx r st : records_only idx r st st.
Proof. exists []. split; [symmetry; apply app_nil_r|constructor]. Qed.

Lemma records_only_trans idx r st1 st2 st3 :
  records_only idx r st1 st2 -> records_only idx r st2 st3 ->
  records_only idx r st1 st3.
Proof.
  intros (l1 & H1 & F1) (l2 & H2 & F2). exists (l1 ++ l2). split.
  - rewrite H2, H1. symmetry. apply app_assoc.
  - apply Forall_app. split; assumption.
Qed.

Lemma records_only_new_rows idx r st st' n :
  records_only idx r st st' ->
  records_only idx r st (State (updated_df st') n (discrepancies st')).
Proof. intros (l & Hl & Fl). exists l. split; [exact Hl | exact Fl]. Qed.

Lemma set_at_records idx r col v st : records_only idx r st (set_at idx col v st).
Proof. exists []. split; [symmetry; apply app_nil_r|constructor]. Qed.

Lemma flag_and_set_records idx r x field v st :
  field ∈ flagged_fields ->
  x !! field = r !! field ->
  records_only idx r st (flag_and_set idx x field v st).
Proof.
  intros Hin Hcell. unfold flag_and_set.
  destruct (flag_discrepancies x {[field := Text v]} field) as [[] msg] eqn:Hflag.
  - exists [(idx, msg)]. split; [reflexivity|].
    constructor; [|constructor]. split; [reflexivity|].
    unfold flag_discrepancies in Hflag. rewrite lookup_singleton_eq, Hcell in Hflag.
    destruct (r !! field) as [old|] eqn:Hold; [|discriminate Hflag].
    exists field, old, v. split; [exact Hin|]. split; [exact Hold|].
    destruct (Cell.truthy old); [|discriminate Hflag]. split; [reflexivity|].
    cbn [negb orb] in Hflag.
    destruct (negb (Cell.truthy (Text v))); [discriminate Hflag|].
    cbn [orb] in Hflag.
    destruct (negb (str_eqb _ _)); [|discriminate Hflag].
    injection Hflag as <-. reflexivity.
  - apply set_at_records.
Qed.

Lemma update_field_records validate value idx r field st :
  field ∈ flagged_fields ->
  row_value row_is_view idx r st !! field = r !! field ->
  records_only idx r st (update_field row_is_view validate value idx r field st).
Proof.
  intros Hin Hcell. unfold update_field.
  destruct (present value) as [raw|]; [|apply records_only_refl].
  destruct (validate raw) as [[] clean]; [|apply records_only_refl].
  apply flag_and_set_records; assumption.
Qed.

(** The cell [row] shows for a field that was not written since the
    iteration started with the row [r]. *)
Ltac unwritten Hrow :=
  eapply (row_value_cell row_is_view);
  [ repeat first [ rewrite (update_field_row row_is_view)
                 | rewrite flag_and_set_row | rewrite set_at_row ];
    rewrite Hrow; reflexivity
  | repeat first [ rewrite write_field_other by discriminate
                 | rewrite lookup_insert_ne by discriminate ];
    reflexivity ].

Ltac record_step Hrow :=
  eapply records_only_trans;
  [| first [ apply set_at_records
           | apply flag_and_set_records;
             [unfold flagged_fields; in_list | unwritten Hrow]
           | apply update_field_records;
             [unfold flagged_fields; in_list | unwritten Hrow] ] ].

Lemma process_candidate_records idx r c st :
  updated_df st !! idx = Some r ->
  records_only idx r st (process_candidate validator today row_is_view idx r c st).
Proof.
  intros Hrow. unfold process_candidate. cbv zeta.
  destruct (psychologists c) as [|first_psych others].
  - do 6 record_step Hrow. apply records_only_refl.
  - apply records_only_new_rows.
    destruct (present (psy_name first_psych));
      do 6 record_step Hrow; try record_step Hrow; apply records_only_refl.
Qed.

(** One iteration records entries of its own row only, and none unless the
    row has a candidate. *)
Lemma process_row_records ex idx r st :
  updated_df st !! idx = Some r ->
  exists l,
    discrepancies (process_row validator today row_is_view ex idx r st)
    = discrepancies st ++ l
    /\ Forall (recorded_for idx r) l
    /\ (l <> [] -> exists c, candidate_for ex r = Some (PData c)).
Proof.
  intros Hrow. unfold process_row, candidate_for.
  rewrite (row_value_here row_is_view idx r st Hrow).
  destruct (lookup_practice ex r) as [e|]; cbn [fmap option_fmap option_map].
  - unfold process_data. destruct (first_item e) as [msg|c].
    + exists []. split; [symmetry; apply app_nil_r|]. split; [constructor|].
      intros H. exfalso. apply H. reflexivity.
    + destruct (process_candidate_records idx r c st Hrow) as (l & Hl & Fl).
      exists l. split; [exact Hl|]. split; [exact Fl|]. intros _. exists c. reflexivity.
  - exists []. split; [symmetry; apply app_nil_r|]. split; [constructor|].
    intros H. exfalso. apply H. reflexivity.
Qed.

Lemma process_rows_records ex snap : forall idx st,
  drop idx (updated_df st) = snap ->
  exists l,
    discrepancies (process_rows validator today row_is_view ex idx snap st)
    = discrepancies st ++ l
    /\ Forall (entry_of_loop ex idx snap) l
    /\ StronglySorted le (map fst l).
Proof.
  induction snap as [|r snap IH]; intros idx st Hdrop; cbn [process_rows].
  - exists []. split; [symmetry; apply app_nil_r|]. split; constructor.
  - destruct (loop_step validator today row_is_view ex idx r snap st Hdrop)
      as [Hrow Hnext].
    destruct (IH (S idx) (process_row validator today row_is_view ex idx r st) Hnext)
      as (l2 & H2 & F2 & S2).
    destruct (process_row_records ex idx r st Hrow) as (l1 & H1 & F1 & C1).
    exists (l1 ++ l2). split; [rewrite H2, H1; symmetry; apply app_assoc|].
    assert (G1 : Forall (fun e : nat * str => e.1 = idx) l1).
    { eapply Forall_impl; [exact F1|]. intros e He. exact (proj1 He). }
    assert (G2 : Forall (fun e : nat * str => S idx <= e.1) l2).
    { eapply Forall_impl; [exact F2|]. intros e (k & _ & _ & _ & He & _). lia. }
    split.
    + apply Forall_app. split.
      * destruct l1 as [|e0 l1']; [constructor|].
        destruct C1 as (c & Hc); [discriminate|].
        eapply Forall_impl; [exact F1|]. intros e He.
        exists 0, r, c. rewrite Nat.add_0_r. split; [reflexivity|].
        split; [exact (proj1 He)|]. split; [exact Hc|exact He].
      * eapply Forall_impl; [exact F2|]. intros e (k & r' & c & Hk & He & Hc & Hrec).
        exists (S k), r', c. replace (idx + S k) with (S idx + k) by lia.
        split; [exact Hk|]. split; [exact He|]. split; [exact Hc|exact Hrec].
    + rewrite map_app. apply StronglySorted_app_2.
      * intros x1 x2 Hx1 Hx2.
        apply list_elem_of_fmap in Hx1 as (e1 & -> & He1).
        apply list_elem_of_fmap in Hx2 as (e2 & -> & He2).
        rewrite Forall_forall in G1, G2.
        specialize (G1 e1 He1). specialize (G2 e2 He2). lia.
      * clear -G1. induction l1 as [|e l1 IHl]; [constructor|].
        apply Forall_cons in G1 as [He G1]. cbn [map]. constructor; [apply IHl, G1|].
        apply Forall_forall. intros x Hx.
        apply list_elem_of_fmap in Hx as (e1 & -> & He1).
        rewrite Forall_forall in G1. specialize (G1 e1 He1). lia.
      * exact S2.
Qed.
End ReconcileDiscrepancies.

Section ReconcileResults.
Import DataFormatter.
Variable validator : Validator.
Variable today : str.
Variable row_is_view : bool.

Lemma ensure_fold_created cols : forall df i r,
  rows df !! i = Some r ->
  exists r', rows (fold_left (fun d c => ensure_column c d) cols df) !! i = Some r'
             /\ forall c, c ∈ cols -> c ∉ columns df -> r' !! c = Some (Text []).
Proof.
  induction cols as [|col cols IH]; intros df i r Hr; cbn [fold_left].
  - exists r. split; [exact Hr|]. intros c Hc. apply elem_of_nil in Hc. destruct Hc.
  - destruct (ensure_column_spec col df) as (_ & Hcols1 & Hrows1).
    destruct (Hrows1 i r Hr) as (r1 & Hr1 & _).
    destruct (IH (ensure_column col df) i r1 Hr1) as (r2 & Hr2 & Hnew).
    destruct (ensure_fold_spec cols (ensure_column col df)) as (_ & _ & Hkeep).
    cbv zeta in Hkeep. destruct (Hkeep i r1 Hr1) as (r2' & Hr2' & Hsame).
    rewrite Hr2 in Hr2'. injection Hr2' as <-.
    exists r2. split; [exact Hr2|]. intros c Hc Hnot.
    destruct (decide (c = col)) as [->|Hne].
    + rewrite Hsame by (left; apply Hcols1; right; reflexivity).
      revert Hr1. unfold ensure_column.
      rewrite bool_decide_eq_false_2 by exact Hnot. cbn [rows].
      rewrite lookup_map, Hr. cbn. intros [= <-]. apply lookup_insert_eq.
    + apply Hnew.
      * apply elem_of_cons in Hc as [Hc|Hc]; [contradiction|exact Hc].
      * intros Hin. apply Hcols1 in Hin as [Hin|Hin]; contradiction.
Qed.

(** A required column the table lacks is created empty. *)
Lemma snapshot_created df i r' c :
  snapshot validator df !! i = Some r' ->
  c ∈ required_columns -> c ∉ columns df -> r' !! c = Some (Text []).
Proof.
  intros Hr' Hc Hnot.
  assert (Hphone : c <> "Phone").
  { intros ->. revert Hc. unfold required_columns. not_in_list. }
  revert Hr'. unfold snapshot, ensure_required.
  pose proof (ensure_fold_created required_columns df i) as Hnew.
  destruct (ensure_fold_spec required_columns df) as (Hlen & _ & _).
  cbv zeta in Hlen. revert Hnew Hlen.
  generalize (fold_left (fun d c => ensure_column c d) required_columns df).
  intros df1 Hnew Hlen Hr'.
  assert (Hr1 : exists r1, rows df1 !! i = Some r1 /\ r' !! c = r1 !! c).
  { revert Hr'. unfold format_phones. case_bool_decide; cbn [rows].
    - rewrite lookup_map. destruct (rows df1 !! i) as [r1|]; [|discriminate].
      cbn. intros [= <-]. exists r1. split; [reflexivity|].
      apply format_phone_other, Hphone.
    - intros Hr'. exists r'. split; [exact Hr'|reflexivity]. }
  destruct Hr1 as (r1 & Hr1 & ->).
  assert (Hr : exists r, rows df !! i = Some r).
  { apply lookup_lt_is_Some. rewrite <- Hlen. apply lookup_lt_is_Some. eauto. }
  destruct Hr as (r & Hr). destruct (Hnew r Hr) as (r1' & Hr1' & Hcreated).
  rewrite Hr1 in Hr1'. injection Hr1' as <-. apply Hcreated; assumption.
Qed.

(** The rows the loop starts from, against the rows of the table. *)
Lemma snapshot_row df i r' :
  snapshot validator df !! i = Some r' ->
  exists r, rows df !! i = Some r
    /\ (forall c, c ∈ columns df \/ c ∉ required_columns -> c <> "Phone" ->
                  r' !! c = r !! c)
    /\ ("Phone" ∈ columns df -> r' !! "Phone" = format_phone validator r !! "Phone").
Proof.
  intros Hr'. destruct (snapshot_spec validator df) as (Hlen & Hrows).
  assert (Hr : exists r, rows df !! i = Some r).
  { apply lookup_lt_is_Some. rewrite <- Hlen. apply lookup_lt_is_Some. eauto. }
  destruct Hr as (r & Hr). exists r. split; [exact Hr|].
  destruct (Hrows i r Hr) as (r'' & Hr'' & Hsame & Hphone & _).
  rewrite Hr' in Hr''. injection Hr'' as <-. split; assumption.
Qed.

Lemma format_data_for_excel_recorded df ex :
  "Practice" ∈ columns df ->
  exists u n d,
    format_data_for_excel validator today row_is_view df ex = Some (u, n, d)
    /\ d = discrepancies (process_rows validator today row_is_view ex 0 (snapshot validator df)
                                       (State (snapshot validator df) [] [])).
Proof.
  intros H. unfold format_data_for_excel, snapshot.
  rewrite bool_decide_eq_true_2 by exact H.
  eexists _, _, _. split; reflexivity.
Qed.

Lemma format_data_for_excel_discrepancies df ex :
  "Practice" ∈ columns df ->
  exists u n d,
    format_data_for_excel validator today row_is_view df ex = Some (u, n, d)
    /\ Forall (entry_of_loop ex 0 (snapshot validator df)) d
    /\ StronglySorted le (map fst d).
Proof.
  intros Hp.
  destruct (format_data_for_excel_recorded df ex Hp) as (u & n & d & Hres & Hd).
  exists u, n, d. split; [exact Hres|]. clear Hres.
  revert Hd. generalize (snapshot validator df). intros snap Hd.
  destruct (process_rows_records validator today row_is_view ex snap 0
              (State snap [] []) eq_refl)
    as (l & Hl & Fl & Sl).
  rewrite <- Hd in Hl. cbn [discrepancies] in Hl.
  rewrite Hl. split; assumption.
Qed.

Lemma flagged_required field : field ∈ flagged_fields -> field ∈ required_columns.
Proof.
  unfold flagged_fields. intros H.
  repeat (apply elem_of_cons in H as [->|H]; [unfold required_columns; in_list|]).
  apply elem_of_nil in H. destruct H.
Qed.

Lemma flagged_not_phone field : field ∈ flagged_fields -> field <> "Phone".
Proof. intros H ->. revert H. unfold flagged_fields. not_in_list. Qed.

Lemma length_flat_map {A B} (f : A -> list B) (l : list A) :
  length (flat_map f l) = sum_list_with (fun x => length (f x)) l.
Proof.
  induction l as [|x l IH]; [reflexivity|].
  cbn [flat_map sum_list_with]. rewrite length_app, IH. reflexivity.
Qed.

Lemma sum_list_with_pointwise {A} (f g : A -> nat) : forall l l' : list A,
  length l = length l' ->
  (forall i x x', l !! i = Some x -> l' !! i = Some x' -> f x = g x') ->
  sum_list_with f l = sum_list_with g l'.
Proof.
  induction l as [|x l IH]; intros [|x' l'] Hlen Hpt; try discriminate Hlen.
  - reflexivity.
  - cbn [sum_list_with]. rewrite (Hpt 0 x x' eq_refl eq_refl).
    f_equal. apply IH; [injection Hlen as Hlen; exact Hlen|].
    intros i y y' Hy Hy'. exact (Hpt (S i) y y' Hy Hy').
Qed.

Lemma length_expansion ex r :
  length (expansion validator today row_is_view ex r) = added_rows ex r.
Proof.
  unfold expansion, added_rows, candidate_for.
  destruct (lookup_practice ex r) as [e|]; [|reflexivity].
  cbn [fmap option_fmap option_map].
  destruct (first_item e) as [msg|c]; [reflexivity|].
  rewrite length_map. destruct (psychologists c); cbn [tail length]; lia.
Qed.

End ReconcileResults.

Section ReconcileTheorems.
Import DataFormatter.
Variable validator : Validator.
Variable today : str.
Variable row_is_view : bool.

Lemma snapshot_existing_cell df i r r' col :
  rows df !! i = Some r -> snapshot validator df !! i = Some r' ->
  col ∈ required_columns -> r' !! col = existing_cell df r col.
Proof.
  intros Hr Hr' Hcol. unfold existing_cell. case_bool_decide as Hin.
  - destruct (snapshot_row validator df i r' Hr') as (r0 & Hr0 & Hsame & _).
    rewrite Hr in Hr0. injection Hr0 as <-. apply Hsame; [left; exact Hin|].
    intros ->. revert Hcol. unfold required_columns. not_in_list.
  - exact (snapshot_created validator df i r' col Hr' Hcol Hin).
Qed.

(** The row of a record with a candidate, in terms of the table. *)
Lemma matched_row df ex i r c :
  "Practice" ∈ columns df ->
  rows df !! i = Some r ->
  candidate_for ex r = Some (PData c) ->
  exists u n d r',
    format_data_for_excel validator today row_is_view df ex = Some (u, n, d)
    /\ rows u !! i = Some (candidate_writes validator today c r')
    /\ (forall col, col ∈ required_columns -> r' !! col = existing_cell df r col)
    /\ (forall col, col ∈ columns df -> col <> "Phone" -> r' !! col = r !! col)
    /\ ("Phone" ∈ columns df -> r' !! "Phone" = format_phone validator r !! "Phone").
Proof.
  intros Hp Hr Hcand.
  destruct (format_data_for_excel_matched validator today row_is_view df ex i r c Hp Hr Hcand)
    as (u & n & d & r' & Hres & Hr' & Hu).
  exists u, n, d, r'. split; [exact Hres|]. split; [exact Hu|].
  split; [intros col Hcol; exact (snapshot_existing_cell df i r r' col Hr Hr' Hcol)|].
  destruct (snapshot_row validator df i r' Hr') as (r0 & Hr0 & Hsame & Hphone).
  rewrite Hr in Hr0. injection Hr0 as <-. split; [|exact Hphone].
  intros col Hcol Hne. apply Hsame; [left; exact Hcol|exact Hne].
Qed.

(** X13: in the row of a record with a candidate, each of Email, Doctors,
    Initial Consult and Follow-up Consult holds the validator's clean form of
    the candidate's value when that value is present and valid, and the cell
    the row had otherwise (the empty text when the column was missing); Date
    holds today's date; the columns the loop does not write keep their
    cells, Phone holding what the phone pass leaves. *)
Theorem reconcile_matched_practice_fields df ex i r c :
  "Practice" ∈ columns df ->
  rows df !! i = Some r ->
  candidate_for ex r = Some (PData c) ->
  exists u n d y,
    format_data_for_excel validator today row_is_view df ex = Some (u, n, d)
    /\ rows u !! i = Some y
    /\ y !! "Email"
       = field_after (v_email validator) (email c) (existing_cell df r "Email")
    /\ y !! "Doctors"
       = field_after (v_url validator) (doctor_page_url c)
                     (existing_cell df r "Doctors")
    /\ y !! "Initial Consult"
       = field_after (v_price validator) (initial_consult c)
                     (existing_cell df r "Initial Consult")
    /\ y !! "Follow-up Consult"
       = field_after (v_price validator) (followup_consult c)
                     (existing_cell df r "Follow-up Consult")
    /\ y !! "Date" = Some (Text today)
    /\ (forall col, col ∈ columns df -> col ∉ written_columns -> col <> "Phone" ->
                    y !! col = r !! col)
    /\ ("Phone" ∈ columns df -> y !! "Phone" = format_phone validator r !! "Phone").
Proof.
  intros Hp Hr Hcand.
  destruct (matched_row df ex i r c Hp Hr Hcand)
    as (u & n & d & r' & Hres & Hu & Hreq & Hsame & Hphone).
  exists u, n, d, (candidate_writes validator today c r').
  split; [exact Hres|]. split; [exact Hu|].
  destruct (candidate_writes_practice_fields validator today c r')
    as (He & Hd & Hi & Hf & Hdate).
  rewrite He, Hd, Hi, Hf, Hdate.
  rewrite !Hreq by (unfold required_columns; in_list).
  do 5 (split; [reflexivity|]). split.
  - intros col Hcol Hw Hne. rewrite candidate_writes_outside by exact Hw.
    apply Hsame; assumption.
  - intros Hin. rewrite candidate_writes_outside
      by (unfold written_columns; not_in_list).
    apply Hphone, Hin.
Qed.

(** X14: in the row of a record with a candidate, an empty staff list
    writes the note [No psychologists found] and leaves Name and Type as
    they were; otherwise Notes is left as it was, Name holds the first
    psychologist's name when it is non-empty, and Type the clean form of the
    first psychologist's type when it is present and valid. *)
Theorem reconcile_matched_staff_fields df ex i r c :
  "Practice" ∈ columns df ->
  rows df !! i = Some r ->
  candidate_for ex r = Some (PData c) ->
  exists u n d y,
    format_data_for_excel validator today row_is_view df ex = Some (u, n, d)
    /\ rows u !! i = Some y
    /\ match psychologists c with
       | [] =>
           y !! "Notes" = Some (Text "No psychologists found")
           /\ y !! "Name" = existing_cell df r "Name"
           /\ y !! "Type" = existing_cell df r "Type"
       | first_psych :: _ =>
           y !! "Notes" = existing_cell df r "Notes"
           /\ y !! "Name" = match present (psy_name first_psych) with
                            | Some name => Some (Text name)
                            | None => existing_cell df r "Name"
                            end
           /\ y !! "Type" = field_after (v_psychologist_type validator)
                                        (psy_type first_psych)
                                        (existing_cell df r "Type")
       end.
Proof.
  intros Hp Hr Hcand.
  destruct (matched_row df ex i r c Hp Hr Hcand)
    as (u & n & d & r' & Hres & Hu & Hreq & _).
  exists u, n, d, (candidate_writes validator today c r').
  split; [exact Hres|]. split; [exact Hu|].
  pose proof (candidate_writes_staff_fields validator today c r') as Hstaff.
  cbv zeta in Hstaff.
  rewrite <- !Hreq by (unfold required_columns; in_list).
  exact Hstaff.
Qed.

(** X15: the number of new rows is the sum, over the rows of the table, of
    the staff count less one of the row's candidate (nothing for a row
    without a candidate, with an error, or with an empty staff list). *)
Theorem new_rows_count df ex :
  "Practice" ∈ columns df ->
  exists u n d,
    format_data_for_excel validator today row_is_view df ex = Some (u, n, d)
    /\ length n = sum_list_with (added_rows ex) (rows df).
Proof.
  intros Hp.
  destruct (format_data_for_excel_new_rows validator today row_is_view df ex Hp)
    as (u & n & d & Hres & Hn).
  exists u, n, d. split; [exact Hres|].
  destruct (snapshot_spec validator df) as (Hlen & Hrows).
  revert Hn Hlen Hrows. generalize (snapshot validator df). intros snap Hn Hlen Hrows.
  rewrite Hn, length_flat_map.
  apply sum_list_with_pointwise; [exact Hlen|].
  intros k r' r Hr' Hr. rewrite length_expansion.
  destruct (Hrows k r Hr) as (r'' & Hr'' & Hsame & _).
  rewrite Hr' in Hr''. injection Hr'' as <-.
  unfold added_rows. rewrite (candidate_for_snapshot ex r r'); [reflexivity|].
  apply Hsame; [|discriminate]. right. apply practice_not_required.
Qed.

(** X16: every new row stems from a row of the table whose candidate lists
    at least two psychologists, and is dated today.  Outside Name, Type,
    Doctors, Email and Date it holds the cells of the row that [row.copy()]
    copies: where the rows of the loop are views of the table, the cells of
    the updated row, so that the candidate's prices reach the new rows;
    where they are copies, the cells the row had in the table (Phone apart,
    which the phone pass rewrote). *)
Theorem new_rows_copy_the_row df ex :
  "Practice" ∈ columns df ->
  exists u n d,
    format_data_for_excel validator today row_is_view df ex = Some (u, n, d)
    /\ forall new_row, new_row ∈ n ->
         exists i r c y,
           rows df !! i = Some r
           /\ candidate_for ex r = Some (PData c)
           /\ 2 <= length (psychologists c)
           /\ rows u !! i = Some y
           /\ new_row !! "Date" = Some (Text today)
           /\ forall col, col ∉ ["Name"; "Type"; "Doctors"; "Email"; "Date"] ->
                (row_is_view = true -> new_row !! col = y !! col)
                /\ (row_is_view = false -> col ∈ columns df -> col <> "Phone" ->
                    new_row !! col = r !! col).
Proof.
  intros Hp.
  destruct (format_data_for_excel_result validator today row_is_view df ex Hp)
    as (u & n & d & Hres & Hu & Hn).
  exists u, n, d. split; [exact Hres|]. intros new_row Hin.
  pose proof (snapshot_row validator df) as Hsnap.
  destruct (process_rows_frame validator today row_is_view ex (snapshot validator df) 0
              (State (snapshot validator df) [] []))
    as (_ & _ & _ & Hnew).
  pose proof (process_rows_at validator today row_is_view ex (snapshot validator df) 0
                (State (snapshot validator df) [] [])) as Hat.
  revert Hu Hn Hsnap Hnew Hat. generalize (snapshot validator df).
  intros snap Hu Hn Hsnap Hnew Hat.
  cbn [updated_df new_rows drop Nat.add] in Hnew, Hat.
  rewrite Hn, (Hnew eq_refl) in Hin. cbn [app] in Hin.
  apply list_elem_of_In, in_flat_map in Hin as (r' & Hr' & Hin).
  apply list_elem_of_In, list_elem_of_lookup in Hr' as (i & Hr').
  destruct (Hsnap i r' Hr') as (r & Hr & Hsame & _).
  assert (Hprac : r' !! "Practice" = r !! "Practice").
  { apply Hsame; [|discriminate]. right. apply practice_not_required. }
  rewrite (expansion_of_candidate validator today row_is_view) in Hin.
  pose proof (candidate_for_snapshot ex r r' Hprac) as Hc.
  destruct (candidate_for ex r') as [[message|c]|] eqn:Hcand;
    [destruct Hin| |destruct Hin].
  apply in_map_iff in Hin as (psych & <- & Hpsych).
  destruct (Hat i r' Hr') as (st_i & Hst & Hfinal).
  rewrite Hr' in Hst.
  assert (Hy : rows u !! i = Some (candidate_writes validator today c r')).
  { rewrite Hu, Hfinal. unfold process_row.
    rewrite (row_value_here row_is_view i r' st_i Hst).
    unfold candidate_for in Hcand.
    destruct (lookup_practice ex r') as [e|]; [|discriminate Hcand].
    injection Hcand as Hitem. rewrite Hitem. cbn [process_data].
    rewrite (process_candidate_row validator today row_is_view), Hst. reflexivity. }
  exists i, r, c, (candidate_writes validator today c r').
  split; [exact Hr|]. split; [symmetry; exact Hc|]. split.
  { destruct (psychologists c) as [|p1 [|p2 others]]; cbn in Hpsych |- *;
      [destruct Hpsych|destruct Hpsych|lia]. }
  split; [exact Hy|]. split; [apply clone_row_date|].
  intros col Hcol. rewrite (clone_row_other validator today) by exact Hcol.
  unfold copied_row. split.
  - intros ->. reflexivity.
  - intros -> Hin' Hne. apply Hsame; [left; exact Hin'|exact Hne].
Qed.

(** X17: the discrepancy list is in row order: its row labels never
    decrease, and each is the label of a row of the table. *)
Theorem discrepancies_in_row_order df ex :
  "Practice" ∈ columns df ->
  exists u n d,
    format_data_for_excel validator today row_is_view df ex = Some (u, n, d)
    /\ StronglySorted le (map fst d)
    /\ Forall (fun e : nat * str => e.1 < length (rows df)) d.
Proof.
  intros Hp.
  destruct (format_data_for_excel_discrepancies validator today row_is_view df ex Hp)
    as (u & n & d & Hres & Hfrom & Hsorted).
  exists u, n, d. split; [exact Hres|]. split; [exact Hsorted|].
  destruct (snapshot_spec validator df) as (Hlen & _).
  revert Hfrom Hlen. generalize (snapshot validator df). intros snap Hfrom Hlen.
  eapply Forall_impl; [exact Hfrom|].
  intros e (k & r & c & Hk & He & _). rewrite He, <- Hlen.
  apply lookup_lt_Some in Hk. exact Hk.
Qed.

(** X18: every recorded discrepancy belongs to a row that has a candidate
    and names one of the six compared fields, a column of the table whose
    cell in that row is true (a non-empty text, or NaN); its message quotes
    that cell.  A table whose compared cells are all empty texts therefore
    gives no discrepancy. *)
Theorem discrepancy_origin df ex :
  "Practice" ∈ columns df ->
  exists u n d,
    format_data_for_excel validator today row_is_view df ex = Some (u, n, d)
    /\ forall i message, (i, message) ∈ d ->
         exists r c field old v,
           rows df !! i = Some r
           /\ candidate_for ex r = Some (PData c)
           /\ field ∈ flagged_fields
           /\ field ∈ columns df
           /\ r !! field = Some old
           /\ Cell.truthy old = true
           /\ message = "Discrepancy in " +++ lit field +++ ": '"
                        +++ Cell.to_str old +++ "' vs '" +++ v +++ "'".
Proof.
  intros Hp.
  destruct (format_data_for_excel_discrepancies validator today row_is_view df ex Hp)
    as (u & n & d & Hres & Hfrom & _).
  exists u, n, d. split; [exact Hres|]. intros i message Hin.
  pose proof (snapshot_row validator df) as Hsnap.
  pose proof (snapshot_created validator df) as Hcreated.
  revert Hfrom Hsnap Hcreated. generalize (snapshot validator df).
  intros snap Hfrom Hsnap Hcreated.
  rewrite Forall_forall in Hfrom.
  destruct (Hfrom (i, message) Hin)
    as (k & r' & c & Hk & Hi & Hcand & _ & field & old & v & Hfield & Hold & Htrue & Hmsg).
  cbn [fst snd Nat.add] in Hi, Hmsg. subst i.
  destruct (Hsnap k r' Hk) as (r & Hr & Hsame & _).
  assert (Hprac : r' !! "Practice" = r !! "Practice").
  { apply Hsame; [|discriminate]. right. apply practice_not_required. }
  assert (Hcol : field ∈ columns df).
  { destruct (decide (field ∈ columns df)) as [Hyes|Hno]; [exact Hyes|].
    rewrite (Hcreated k r' field Hk (flagged_required field Hfield) Hno) in Hold.
    injection Hold as <-. discriminate Htrue. }
  exists r, c, field, old, v. split; [exact Hr|].
  split; [rewrite <- (candidate_for_snapshot ex r r' Hprac); exact Hcand|].
  split; [exact Hfield|]. split; [exact Hcol|].
  split; [|split; [exact Htrue|exact Hmsg]].
  rewrite <- Hold. symmetry. apply Hsame; [left; exact Hcol|].
  apply flagged_not_phone, Hfield.
Qed.

End ReconcileTheorems.

Lemma reconcile_matched_practice_fields_witness :
  exists u n d y,
    DataFormatter.format_data_for_excel default_validator Wisemind.today true
      Wisemind.df Wisemind.extracted_data = Some (u, n, d)
    /\ rows u !! 0 = Some y
    /\ y !! "Email" = Some (Text "admin@wisemind.com.au")
    /\ y !! "Date" = Some (Text Wisemind.today).
Proof.
  destruct (reconcile_matched_practice_fields default_validator Wisemind.today true
              Wisemind.df Wisemind.extracted_data 0 Wisemind.existing_row
              Wisemind.staff)
    as (u & n & d & y & H & Hy & He & _ & _ & _ & Hd & _).
  - unfold Wisemind.df, Wisemind.all_columns, columns. in_list.
  - reflexivity.
  - vm_compute. reflexivity.
  - exists u, n, d, y. split; [exact H|]. split; [exact Hy|].
    split; [|exact Hd]. rewrite He. vm_compute. reflexivity.
Defined.

Lemma reconcile_matched_staff_fields_witness :
  exists u n d y,
    DataFormatter.format_data_for_excel default_validator Wisemind.today true
      Wisemind.df Wisemind.extracted_data = Some (u, n, d)
    /\ rows u !! 0 = Some y
    /\ y !! "Name" = Some (Text "Melissa Madden").
Proof.
  destruct (reconcile_matched_staff_fields default_validator Wisemind.today true
              Wisemind.df Wisemind.extracted_data 0 Wisemind.existing_row
              Wisemind.staff)
    as (u & n & d & y & H & Hy & Hstaff).
  - unfold Wisemind.df, Wisemind.all_columns, columns. in_list.
  - reflexivity.
  - vm_compute. reflexivity.
  - exists u, n, d, y. split; [exact H|]. split; [exact Hy|].
    exact (proj1 (proj2 Hstaff)).
Defined.

Lemma new_rows_count_witness :
  exists u n d,
    DataFormatter.format_data_for_excel default_validator Wisemind.today true
      Wisemind.df Wisemind.extracted_data = Some (u, n, d)
    /\ length n = 2.
Proof.
  destruct (new_rows_count default_validator Wisemind.today true Wisemind.df
              Wisemind.extracted_data) as (u & n & d & H & Hn).
  - unfold Wisemind.df, Wisemind.all_columns, columns. in_list.
  - exists u, n, d. split; [exact H|]. rewrite Hn. vm_compute. reflexivity.
Defined.

Lemma new_rows_copy_the_row_witness :
  exists u n d,
    DataFormatter.format_data_for_excel default_validator Wisemind.today true
      Wisemind.df Wisemind.extracted_data = Some (u, n, d)
    /\ forall new_row, new_row ∈ n ->
         exists y, rows u !! 0 = Some y
           /\ new_row !! "Initial Consult" = y !! "Initial Consult"
           /\ new_row !! "Follow-up Consult" = y !! "Follow-up Consult".
Proof.
  destruct (new_rows_copy_the_row default_validator Wisemind.today true
              Wisemind.df Wisemind.extracted_data) as (u & n & d & H & Hn).
  - unfold Wisemind.df, Wisemind.all_columns, columns. in_list.
  - exists u, n, d. split; [exact H|]. intros new_row Hin.
    destruct (Hn new_row Hin) as (i & r & c & y & Hr & _ & _ & Hy & _ & Hsame).
    destruct i as [|i]; [|destruct i; discriminate Hr].
    exists y. split; [exact Hy|]. split.
    + apply (Hsame "Initial Consult"); [not_in_list|reflexivity].
    + apply (Hsame "Follow-up Consult"); [not_in_list|reflexivity].
Defined.

(** In the repository's own test, run where the rows of the loop are views,
    the new rows hold the prices of the candidate; run where they are
    copies, the empty cells of the sheet. *)
Example new_rows_prices :
  map (fun new_row : row => (new_row !! "Initial Consult", new_row !! "Follow-up Consult"))
      (new_rows_of (DataFormatter.format_data_for_excel default_validator
                      Wisemind.today true Wisemind.df Wisemind.extracted_data))
  = [(Some (Text "220"), Some (Text "180")); (Some (Text "220"), Some (Text "180"))]
  /\ map (fun new_row : row => (new_row !! "Initial Consult", new_row !! "Follow-up Consult"))
         (new_rows_of (DataFormatter.format_data_for_excel default_validator
                         Wisemind.today false Wisemind.df Wisemind.extracted_data))
     = [(Some (Text ""), Some (Text "")); (Some (Text ""), Some (Text ""))].
Proof. split; vm_compute; reflexivity. Qed.

Lemma discrepancies_in_row_order_witness :
  exists u n d,
    DataFormatter.format_data_for_excel default_validator Wisemind.today true
      Revisit.df Wisemind.extracted_data = Some (u, n, d)
    /\ Forall (fun e : nat * str => e.1 = 0) d.
Proof.
  destruct (discrepancies_in_row_order default_validator Wisemind.today true Revisit.df
              Wisemind.extracted_data) as (u & n & d & H & _ & Hd).
  - unfold Revisit.df, Wisemind.all_columns, columns. in_list.
  - exists u, n, d. split; [exact H|].
    eapply Forall_impl; [exact Hd|]. intros e He. cbn in He. lia.
Defined.

Lemma discrepancy_origin_witness :
  exists u n d,
    DataFormatter.format_data_for_excel default_validator Wisemind.today true
      Revisit.df Wisemind.extracted_data = Some (u, n, d)
    /\ forall i message, (i, message) ∈ d ->
         exists field, field ∈ flagged_fields /\ field ∈ columns Revisit.df.
Proof.
  destruct (discrepancy_origin default_validator Wisemind.today true Revisit.df
              Wisemind.extracted_data) as (u & n & d & H & Hd).
  - unfold Revisit.df, Wisemind.all_columns, columns. in_list.
  - exists u, n, d. split; [exact H|]. intros i message Hin.
    destruct (Hd i message Hin) as (r & c & field & old & v & _ & _ & Hf & Hc & _).
    exists field. split; [exact Hf|exact Hc].
Defined.

(** The older address of the revisited sheet is reported against the new
    one. *)
Example revisit_reports_email :
  discrepancies_of
    (DataFormatter.format_data_for_excel default_validator Wisemind.today true
       Revisit.df Wisemind.extracted_data)
  = [(0, lit "Discrepancy in Email: 'info@wisemind.com.au' vs 'admin@wisemind.com.au'")].
Proof. vm_compute. reflexivity. Qed.

(** ** Prices *)

Section Price.
Import Re DataValidator.

Lemma digit_not_dollar c : Char.is_digit c = true -> Char.eqb "$" c = false.
Proof. destruct c as [[] [] [] [] [] [] [] []]; vm_compute; congruence. Qed.

Lemma digit_not_point c : Char.is_digit c = true -> Char.eqb "." c = false.
Proof. destruct c as [[] [] [] [] [] [] [] []]; vm_compute; congruence. Qed.

Lemma run_cents_miss q post g :
  cents post = [] ->
  run (Seq (C ".") (Times 2 digit)) (MState q post g) = [].
Proof.
  intros Hc. cbn [run C Times flat_map]. unfold digit. cbn [run].
  destruct post as [|c post]; [reflexivity|].
  unfold step at 3. cbn [rest caps].
  destruct (Char.eqb "." c) eqn:Hpoint; [|reflexivity].
  cbn [flat_map]. rewrite app_nil_r.
  destruct post as [|a post]; [reflexivity|].
  unfold step at 2. cbn [rest caps].
  destruct (Char.is_digit a) eqn:Ha; [|reflexivity].
  cbn [flat_map]. rewrite app_nil_r.
  destruct post as [|b post]; [reflexivity|].
  unfold step. cbn [rest caps].
  destruct (Char.is_digit b) eqn:Hb; [|reflexivity].
  exfalso. unfold cents in Hc. rewrite Hpoint, Ha, Hb in Hc. discriminate Hc.
Qed.

Lemma reads_cents post :
  exists post', post = cents post ++ post' /\ reads cents_pattern (cents post) post' id.
Proof.
  destruct (cents post) as [|x l] eqn:Hc.
  - exists post. split; [reflexivity|]. unfold cents_pattern, Opt.
    apply reads_alt_r; [|apply reads_eps].
    intros q g. cbn [app]. apply run_cents_miss, Hc.
  - unfold cents in Hc.
    destruct post as [|c [|a [|b post']]]; try discriminate Hc.
    destruct (Char.eqb "." c) eqn:Hpoint; [|discriminate Hc].
    destruct (Char.is_digit a) eqn:Ha; [|discriminate Hc].
    destruct (Char.is_digit b) eqn:Hb; [|discriminate Hc].
    cbn [andb] in Hc. injection Hc as <- <-.
    exists post'. split; [reflexivity|]. unfold cents_pattern, Opt.
    apply reads_alt_l.
    apply (reads_seq (C ".") (Times 2 digit) [c] [a; b] post' id id).
    + apply reads_chr. exact Hpoint.
    + apply (reads_seq digit digit [a] [b] post' id id); apply reads_chr; assumption.
Qed.

(** The amount, read where the digits start. *)
Lemma reads_amount ds post :
  ds <> [] -> Forall (fun c => Char.is_digit c = true) ds -> stops Char.is_digit post ->
  exists post',
    post = cents post ++ post'
    /\ reads (Group 1 (Seq (Plus digit) cents_pattern)) (ds ++ cents post) post'
             (fun g => (1, ds ++ cents post) :: g).
Proof.
  intros Hne Hds Hstop. destruct (reads_cents post) as (post' & Hpost & Hcents).
  exists post'. split; [exact Hpost|].
  apply (reads_group 1 _ (ds ++ cents post) post' id).
  apply (reads_seq (Plus digit) cents_pattern ds (cents post) post' id id).
  - rewrite <- Hpost. apply reads_plus_chr; assumption.
  - exact Hcents.
Qed.

Lemma run_amount_miss q s g :
  stops Char.is_digit s ->
  run (Group 1 (Seq (Plus digit) cents_pattern)) (MState q s g) = [].
Proof.
  intros Hs.
  change (run (Group 1 (Seq (Plus digit) cents_pattern)) (MState q s g))
    with (map (capture 1 (MState q s g))
              (run (Seq (Plus digit) cents_pattern) (MState q s g))).
  rewrite run_seq_fail; [reflexivity|].
  unfold Plus. apply run_seq_fail. apply run_chr_miss, Hs.
Qed.

(** Where the text does not start with a digit, nor with a dollar sign and
    a digit, the pattern does not match. *)
Lemma price_pattern_miss q c s g :
  Char.is_digit c = false ->
  (Char.eqb "$" c = true -> stops Char.is_digit s) ->
  match_at price_pattern (MState q (c :: s) g) = None.
Proof.
  intros Hc Hs. unfold match_at.
  change (run price_pattern (MState q (c :: s) g))
    with (flat_map (run (Group 1 (Seq (Plus digit) cents_pattern)))
                   (step (Char.eqb "$") (MState q (c :: s) g)
                    ++ [MState q (c :: s) g])).
  destruct (Char.eqb "$" c) eqn:Hd.
  - rewrite step_hit by exact Hd. cbn [app flat_map].
    rewrite run_amount_miss by (apply Hs; reflexivity).
    rewrite run_amount_miss by exact Hc. reflexivity.
  - rewrite step_miss by exact Hd. cbn [app flat_map].
    rewrite run_amount_miss by exact Hc. reflexivity.
Qed.

Lemma price_pattern_miss_end q g : match_at price_pattern (MState q [] g) = None.
Proof. reflexivity. Qed.

Lemma group_of_reads r w s f q g m :
  reads r w s f -> match_at r (MState q (w ++ s) g) = Some m -> groups m = f g.
Proof.
  intros Hr Hm. destruct (Hr q g) as (q' & Hfirst).
  rewrite (match_at_first _ _ _ Hfirst) in Hm. injection Hm as <-. reflexivity.
Qed.

Lemma price_at_digits q ds post :
  ds <> [] -> Forall (fun c => Char.is_digit c = true) ds -> stops Char.is_digit post ->
  exists m, match_at price_pattern (MState q (ds ++ post) []) = Some m
            /\ group 1 m = ds ++ cents post.
Proof.
  intros Hne Hds Hstop.
  destruct (reads_amount ds post Hne Hds Hstop) as (post' & Hpost & Hreads).
  assert (Hall : reads price_pattern ([] ++ (ds ++ cents post)) post'
                       (fun g => (1, ds ++ cents post) :: id g)).
  { apply (reads_seq (Opt (C "$")) _ [] (ds ++ cents post) post' id).
    - apply reads_alt_r; [|apply reads_eps].
      intros q0 g0. cbn [app]. apply run_chr_miss.
      destruct ds as [|d ds]; [congruence|]. cbn [app stops].
      apply digit_not_dollar. apply Forall_cons in Hds as [Hd _]. exact Hd.
    - exact Hreads. }
  cbn [app] in Hall. destruct (Hall q []) as (q' & Hfirst).
  rewrite <- app_assoc, <- Hpost in Hfirst.
  eexists. split; [apply match_at_first, Hfirst|]. reflexivity.
Qed.

Lemma price_at_dollar q c ds post :
  Char.eqb "$" c = true ->
  ds <> [] -> Forall (fun c => Char.is_digit c = true) ds -> stops Char.is_digit post ->
  exists m, match_at price_pattern (MState q (c :: ds ++ post) []) = Some m
            /\ group 1 m = ds ++ cents post.
Proof.
  intros Hc Hne Hds Hstop.
  destruct (reads_amount ds post Hne Hds Hstop) as (post' & Hpost & Hreads).
  assert (Hall : reads price_pattern ([c] ++ (ds ++ cents post)) post'
                       (fun g => (1, ds ++ cents post) :: id g)).
  { apply (reads_seq (Opt (C "$")) _ [c] (ds ++ cents post) post' id).
    - apply reads_alt_l, reads_chr, Hc.
    - exact Hreads. }
  destruct (Hall q []) as (q' & Hfirst).
  cbn [app] in Hfirst. rewrite <- app_assoc, <- Hpost in Hfirst.
  eexists. split; [apply match_at_first, Hfirst|]. reflexivity.
Qed.

Lemma search_from_price ds post :
  ds <> [] -> Forall (fun c => Char.is_digit c = true) ds -> stops Char.is_digit post ->
  forall pre before p,
    Forall (fun c => Char.is_digit c = false) pre ->
    exists b m, search_from price_pattern before p (pre ++ ds ++ post) = Some (b, m)
                /\ group 1 m = ds ++ cents post.
Proof.
  intros Hne Hds Hstop. induction pre as [|c pre IH]; intros before p Hpre.
  - cbn [app]. destruct (price_at_digits p ds post Hne Hds Hstop) as (m & Hm & Hg).
    exists (rev before), m. split; [|exact Hg].
    destruct ds as [|d ds]; [congruence|]. cbn [app search_from] in Hm |- *.
    rewrite Hm. reflexivity.
  - apply Forall_cons in Hpre as [Hc Hpre]. cbn [app search_from].
    destruct (Char.eqb "$" c) eqn:Hd.
    + destruct pre as [|c' pre].
      * cbn [app].
        destruct (price_at_dollar p c ds post Hd Hne Hds Hstop) as (m & Hm & Hg).
        rewrite Hm. exists (rev before), m. split; [reflexivity|exact Hg].
      * rewrite price_pattern_miss; [apply IH, Hpre|exact Hc|].
        intros _. cbn [app stops]. apply Forall_cons in Hpre as [Hc' _]. exact Hc'.
    + rewrite price_pattern_miss; [apply IH, Hpre|exact Hc|].
      intros H. rewrite Hd in H. discriminate H.
Qed.

Lemma search_from_no_digit : forall s before p,
  Forall (fun c => Char.is_digit c = false) s ->
  search_from price_pattern before p s = None.
Proof.
  induction s as [|c s IH]; intros before p Hs; [reflexivity|].
  apply Forall_cons in Hs as [Hc Hs]. cbn [search_from].
  rewrite price_pattern_miss; [apply IH, Hs|exact Hc|].
  intros _. destruct s as [|c' s]; [exact I|].
  apply Forall_cons in Hs as [Hc' _]. exact Hc'.
Qed.

(** X19: a price with a digit is valid, and its clean form is the first run
    of digits, with the point and two digits after it when they follow;
    what stands before the first digit (a dollar sign, words) and the rest
    of the text, a third decimal included, are dropped. *)
Theorem validate_price_amount pre ds post :
  Forall (fun c => Char.is_digit c = false) pre ->
  ds <> [] ->
  Forall (fun c => Char.is_digit c = true) ds ->
  stops Char.is_digit post ->
  validate_price (pre ++ ds ++ post) = (true, ds ++ cents post).
Proof.
  intros Hpre Hne Hds Hstop. unfold validate_price.
  assert (Htruthy : Str.truthy (pre ++ ds ++ post) = true).
  { destruct pre; [destruct ds; [congruence|]|]; reflexivity. }
  rewrite Htruthy. cbn [negb]. unfold search.
  destruct (search_from_price ds post Hne Hds Hstop pre [] None Hpre)
    as (b & m & Hsearch & Hgroup).
  rewrite Hsearch. cbn [fmap option_fmap option_map snd]. rewrite Hgroup. reflexivity.
Qed.

(** X20: a price without a digit is invalid and comes back as it was
    given. *)
Theorem validate_price_no_digit price :
  Forall (fun c => Char.is_digit c = false) price ->
  validate_price price = (false, price).
Proof.
  intros Hs. unfold validate_price. destruct price as [|c s]; [reflexivity|].
  cbn [Str.truthy negb]. unfold search.
  rewrite search_from_no_digit by exact Hs. reflexivity.
Qed.
End Price.

Lemma validate_price_amount_witness :
  DataValidator.validate_price "from $220.505 per session" = (true, lit "220.50").
Proof.
  apply (validate_price_amount "from $" "220" ".505 per session").
  - repeat constructor.
  - discriminate.
  - repeat constructor.
  - reflexivity.
Defined.

Lemma validate_price_no_digit_witness :
  DataValidator.validate_price "on request" = (false, lit "on request").
Proof. apply validate_price_no_digit. repeat constructor. Defined.
